(** * FairDetect: a shallow embedding of [fairdetect/__init__.py]

    The development follows the Python class [FairDetect] statement by
    statement.  Data frames, arrays and figures are Python objects: the ones
    the caller owns ([X_test], [y_test], the predictions) live in an explicit
    heap and are addressed by location, so that copying ([X_test.copy()]),
    in-place column assignment ([full_table['p'] = ...]) and the freshness of
    returned tables are visible in the model.  Printing, chart rendering and
    the random generator are part of the world state.  The third-party
    libraries (scipy's chi-square tests, fairlearn's rate metrics, the
    classifier, the SHAP explainer) are interfaces whose implementations are
    parameters of the development. *)

From Stdlib Require Import ZArith QArith Qround Qabs Qpower Lia Lqa Sorted SetoidList.
From stdpp Require Import base list strings pretty.

Open Scope Q_scope.

(** * Floating point

    Python floats are IEEE-754 binary64 values.  A finite float is modelled by
    the rational it denotes, and every arithmetic operation rounds its exact
    result to 53 significant bits, ties to even.  The exponent range is left
    unbounded (no overflow to infinity, no subnormals) and the two zeros are
    identified; infinities and NaN are kept as special values. *)

Definition pow2 (z : Z) : Q := Qpower 2 z.

Definition round_half_even (q : Q) : Z :=
  let f := Qfloor q in
  match Qcompare (q - inject_Z f) (1 # 2) with
  | Lt => f
  | Gt => (f + 1)%Z
  | Eq => if Z.even f then f else (f + 1)%Z
  end.

(** [ilog2 q] is the binary exponent of a positive rational:
    [2 ^ ilog2 q <= q < 2 ^ (ilog2 q + 1)]. *)
Definition ilog2 (q : Q) : Z :=
  let e0 := (Z.log2 (Qnum q) - Z.log2 (Zpos (Qden q)))%Z in
  if Qle_bool (pow2 e0) q then e0 else (e0 - 1)%Z.

Definition round_pos (q : Q) : Q :=
  let e := ilog2 q in
  Qred (inject_Z (round_half_even (q * pow2 (52 - e))) * pow2 (e - 52)).

Definition round64 (q : Q) : Q :=
  match Qcompare q 0 with
  | Eq => 0
  | Gt => round_pos q
  | Lt => - round_pos (- q)
  end.

Inductive float : Type :=
  | Fin (q : Q)
  | PInf
  | NInf
  | NaN.

Definition Qsign (q : Q) : comparison := Qcompare q 0.

Definition finf (positive : bool) : float := if positive then PInf else NInf.

(** [x + y] *)
Definition fadd (x y : float) : float :=
  match x, y with
  | NaN, _ | _, NaN => NaN
  | Fin a, Fin b => Fin (round64 (a + b))
  | PInf, NInf | NInf, PInf => NaN
  | PInf, _ | _, PInf => PInf
  | NInf, _ | _, NInf => NInf
  end.

(** [x - y] *)
Definition fsub (x y : float) : float :=
  match x, y with
  | NaN, _ | _, NaN => NaN
  | Fin a, Fin b => Fin (round64 (a - b))
  | Fin _, PInf => NInf
  | Fin _, NInf => PInf
  | PInf, PInf | NInf, NInf => NaN
  | PInf, _ => PInf
  | NInf, _ => NInf
  end.

(** [x * y] *)
Definition fmul (x y : float) : float :=
  let inf_times (positive : bool) (q : Q) :=
    match Qsign q with
    | Eq => NaN
    | Gt => finf positive
    | Lt => finf (negb positive)
    end in
  match x, y with
  | NaN, _ | _, NaN => NaN
  | Fin a, Fin b => Fin (round64 (a * b))
  | PInf, Fin b => inf_times true b
  | NInf, Fin b => inf_times false b
  | Fin a, PInf => inf_times true a
  | Fin a, NInf => inf_times false a
  | PInf, PInf | NInf, NInf => PInf
  | PInf, NInf | NInf, PInf => NInf
  end.

(** [x / y], numpy semantics: a zero divisor gives an infinity or NaN. *)
Definition fdiv (x y : float) : float :=
  match x, y with
  | NaN, _ | _, NaN => NaN
  | Fin a, Fin b =>
      match Qsign b with
      | Eq => match Qsign a with
              | Eq => NaN
              | Gt => PInf
              | Lt => NInf
              end
      | _ => Fin (round64 (a / b))
      end
  | Fin _, (PInf | NInf) => Fin 0
  | (PInf | NInf), (PInf | NInf) => NaN
  | PInf, Fin b => match Qsign b with Lt => NInf | _ => PInf end
  | NInf, Fin b => match Qsign b with Lt => PInf | _ => NInf end
  end.

(** [x <= y]; every comparison with NaN is false. *)
Definition fle (x y : float) : bool :=
  match x, y with
  | NaN, _ | _, NaN => false
  | NInf, _ => true
  | _, PInf => true
  | Fin a, Fin b => Qle_bool a b
  | _, _ => false
  end.

(** A float literal of the source text and an integer converted to float. *)
Definition flit (q : Q) : float := Fin (round64 q).
Definition float_of_Z (z : Z) : float := Fin (round64 (inject_Z z)).

(** True division of two Python/numpy integers. *)
Definition int_truediv (a b : Z) : float := fdiv (float_of_Z a) (float_of_Z b).

(** * Python values: exceptions, dictionaries, list indexing *)

Inductive exn : Type :=
  | KeyError
  | IndexError
  | ValueError
  | TypeError
  | LibraryError (code : nat).   (* anything else a collaborator raises *)

(** [LookupError] is the common base class of [KeyError] and [IndexError]. *)
Definition is_LookupError (e : exn) : Prop := e = KeyError \/ e = IndexError.

Abbreviation result A := (exn + A)%type.

(** A [dict] keeps insertion order; assigning an existing key replaces the
    value in place. *)
Abbreviation dict K V := (list (K * V)).

Section dict.
Context {K V : Type} `{EqDecision K}.

Fixpoint dict_get (d : dict K V) (k : K) : option V :=
  match d with
  | [] => None
  | (k', v) :: d' => if decide (k' = k) then Some v else dict_get d' k
  end.

Fixpoint dict_set (d : dict K V) (k : K) (v : V) : dict K V :=
  match d with
  | [] => [(k, v)]
  | (k', v') :: d' =>
      if decide (k' = k) then (k', v) :: d' else (k', v') :: dict_set d' k v
  end.

Definition dict_keys (d : dict K V) : list K := map fst d.
Definition dict_values (d : dict K V) : list V := map snd d.

(** [d[k]] *)
Definition dict_getitem (d : dict K V) (k : K) : result V :=
  match dict_get d k with
  | Some v => inr v
  | None => inl KeyError
  end.
End dict.

(** [l[i]] on a Python list: negative indices count from the end. *)
Definition list_getitem {A} (l : list A) (i : Z) : result A :=
  let n := Z.of_nat (length l) in
  let j := if (i <? 0)%Z then (n + i)%Z else i in
  if ((j <? 0)%Z || (n <=? j)%Z)%bool then inl IndexError
  else match l !! Z.to_nat j with
       | Some a => inr a
       | None => inl IndexError
       end.

(** * pandas: series, data frames, cross tabulation

    A cell is a finite number.  A data frame has an index of [df_len] rows and
    named columns in order; a boolean mask selects rows.  Label alignment is
    positional: [y_test] and the predictions carry the index of [X_test]. *)

Abbreviation Series := (list Q).

Record DataFrame : Type := mkDF {
  df_len : nat;
  df_cols : dict string Series
}.

(** [d[c]] *)
Definition df_get (d : DataFrame) (c : string) : result Series :=
  dict_getitem (df_cols d) c.

(** [d[c] = v] for values that come with one entry per row of the frame:
    a numpy array (the predictions), for which pandas checks the length and
    raises [ValueError], or a series that carries the index of the frame
    (the true labels next to the test features), for which alignment is
    the positional assignment.  A series with another index is outside this
    model, which has no index labels: pandas would align it, filling in NaN
    and dropping entries.  The statements about what the analyses return
    therefore take the true labels to have one entry per row. *)
Definition df_set (d : DataFrame) (c : string) (v : Series) : result DataFrame :=
  if decide (length v = df_len d)
  then inr (mkDF (df_len d) (dict_set (df_cols d) c v))
  else inl ValueError.

Fixpoint select {A} (mask : list bool) (v : list A) : list A :=
  match mask, v with
  | b :: mask', a :: v' => if b then a :: select mask' v' else select mask' v'
  | _, _ => []
  end.

(** [d[mask]] *)
Definition df_filter (d : DataFrame) (mask : list bool) : DataFrame :=
  mkDF (length (List.filter id mask))
       (map (fun kv => (fst kv, select mask (snd kv))) (df_cols d)).

(** [d.drop(names, axis=1)]: every name must be a column. *)
Definition df_drop (d : DataFrame) (names : list string) : result DataFrame :=
  if forallb (fun n => bool_decide (n ∈ dict_keys (df_cols d))) names
  then inr (mkDF (df_len d)
              (List.filter (fun kv => negb (bool_decide (fst kv ∈ names))) (df_cols d)))
  else inl KeyError.

Definition Qsum (v : list Q) : Q := foldr Qplus 0 v.

(** [ndarray.sum] adds the elements of an array up in floating point.  The
    order of the additions is numpy's own: it depends on the length and on
    the memory layout of the array (blocks summed pairwise, several
    accumulators).  The sum is therefore an interface; what is fixed is that
    the result is obtained from the elements, each used once, by
    floating-point additions. *)
Inductive adds_up : list float -> float -> Prop :=
  | adds_up_one (x : float) : adds_up [x] x
  | adds_up_split (l l1 l2 : list float) (x y : float) :
      Permutation l (l1 ++ l2) -> adds_up l1 x -> adds_up l2 y ->
      adds_up l (fadd x y).

Class Numpy : Type := {
  np_sum : list float -> float;
  np_sum_adds_up : forall l, l <> [] -> adds_up l (np_sum l)
}.

(** A cell as a float64: the cells of an integer column are converted. *)
Definition float_of_cell (q : Q) : float := Fin (round64 q).

(** [s.mean()]: NaN on an empty selection; otherwise the float64 sum of the
    cells, as numpy accumulates it, divided by their number. *)
Definition series_mean {numpy : Numpy} (v : Series) : float :=
  match v with
  | [] => NaN
  | _ => fdiv (np_sum (map float_of_cell v)) (float_of_Z (Z.of_nat (length v)))
  end.

(** [d.mean()]: one mean per column, labelled by the column name. *)
Definition df_mean {numpy : Numpy} (d : DataFrame) : dict string float :=
  map (fun kv => (fst kv, series_mean (snd kv))) (df_cols d).

(** Arithmetic between two labelled series aligns on the labels of the left
    operand; a label the right operand lacks gives NaN. *)
Definition series_binop (f : float -> float -> float)
    (a b : dict string float) : dict string float :=
  map (fun kv => (fst kv, f (snd kv) (default NaN (dict_get b (fst kv))))) a.

(** Element-wise comparisons producing masks. *)
Definition series_eq_scalar (v : Series) (x : Q) : list bool :=
  map (fun a => Qeq_bool a x) v.
Definition series_eq (a b : Series) : list bool := zip_with Qeq_bool a b.
Definition series_ne (a b : Series) : list bool :=
  zip_with (fun x y => negb (Qeq_bool x y)) a b.
Definition mask_and (a b : list bool) : list bool := zip_with andb a b.

(** Distinct values in increasing order: the labels of a group-by. *)
Fixpoint insert_uniq (x : Q) (l : list Q) : list Q :=
  match l with
  | [] => [x]
  | y :: l' =>
      match Qcompare x y with
      | Lt => x :: l
      | Eq => l
      | Gt => y :: insert_uniq x l'
      end
  end.

Definition unique_sorted (l : list Q) : list Q := foldr insert_uniq [] l.

Definition count_eq (v : Series) (x : Q) : Z :=
  Z.of_nat (length (List.filter (fun a => Qeq_bool a x) v)).

Definition count_pairs (ps : list (Q * Q)) (v u : Q) : Z :=
  Z.of_nat (length (List.filter
    (fun p => Qeq_bool (fst p) v && Qeq_bool (snd p) u) ps)).

Record Crosstab (A : Type) : Type := mkCrosstab {
  ct_index : list Q;
  ct_columns : list Q;
  ct_values : list (list A)
}.
Arguments mkCrosstab {A}.
Arguments ct_index {A}.
Arguments ct_columns {A}.
Arguments ct_values {A}.

(** [pd.crosstab(r, c)]: counts of the pairs, one row per distinct value of
    [r], one column per distinct value of [c]. *)
Definition crosstab (r c : Series) : Crosstab Z :=
  let ps := zip r c in
  let idx := unique_sorted (map fst ps) in
  let cols := unique_sorted (map snd ps) in
  mkCrosstab idx cols
    (map (fun v => map (fun u => count_pairs ps v u) cols) idx).

Definition Zsum (row : list Z) : Z := foldr Z.add 0%Z row.

Definition fillna0 (x : float) : float :=
  match x with
  | NaN => Fin 0
  | _ => x
  end.

(** [pd.crosstab(r, c, normalize='index')]: every count divided by the sum
    of its row ([table.div(table.sum(axis=1), axis=0).fillna(0)]). *)
Definition crosstab_normalize_index (r c : Series) : Crosstab float :=
  let t := crosstab r c in
  mkCrosstab (ct_index t) (ct_columns t)
    (map (fun row => map (fun n => fillna0 (int_truediv n (Zsum row))) row)
         (ct_values t)).

(** [(s.value_counts() / s.value_counts().sum())[i]] *)
Definition value_share (s : Series) (i : Z) : result float :=
  let c := count_eq s (inject_Z i) in
  if (c =? 0)%Z then inl KeyError
  else inr (int_truediv c (Z.of_nat (length s))).

Definition transpose {A} (ncols : nat) (rows : list (list A)) : list (list A) :=
  map (fun j => omap (fun row => row !! j) rows) (seq 0 ncols).

(** The table handed to [tabulate]: the headers and, per row of the
    transposed frame, its index label and its cells. *)
Record Table : Type := mkTable {
  tab_headers : list string;
  tab_rows : list (Q * list float)
}.

Definition tabulate_T (t : Crosstab float) (headers : list string) : Table :=
  mkTable headers
    (zip (ct_columns t) (transpose (length (ct_columns t)) (ct_values t))).

(** * sklearn: precision

    [precision_score(y_true, y_pred)] with its defaults: binary average,
    positive label 1, [zero_division="warn"], which yields [0.0] when no
    record is predicted positive.  Input without any record is refused. *)
Definition is_integral (q : Q) : bool := Qeq_bool q (inject_Z (Qfloor q)).

Definition precision_score (y_true y_pred : Series) : result float :=
  let present := unique_sorted (y_true ++ y_pred) in
  if (length y_true =? 0)%nat then inl ValueError
  else if negb (forallb is_integral present) then inl ValueError
  else if decide (length y_true <> length y_pred) then inl ValueError
  else if (2 <? length present)%nat then inl ValueError
  else if (negb (existsb (fun v => Qeq_bool v 1) present)
           && (2 <=? length present)%nat)%bool then inl ValueError
  else
    let tp := count_pairs (zip y_true y_pred) 1 1 in
    let pp := count_eq y_pred 1 in
    if (pp =? 0)%Z then inr (Fin 0) else inr (int_truediv tp pp).

(** * Charts and printed output *)

Record Bar : Type := mkBar {
  bar_x : list string;
  bar_y : list float;
  marker_color : option string;
  bar_pos : option (nat * nat)
}.

Definition figure : Type := list Bar.

(** Per-record, per-feature contributions returned by the explainer. *)
Definition explanation : Type := list (list float).

(** The disaggregated metrics of a [MetricFrame]: the groups and, per metric,
    one value per group ([by_group.to_dict(orient='list')]). *)
Record MetricFrame : Type := mkMetricFrame {
  mf_groups : list Q;
  by_group : dict string (list float)
}.

Inductive pyval : Type :=
  | PStr (s : string)
  | PFloat (f : float)
  | PTable (t : Table).

Inductive event : Type :=
  | Print (args : list pyval)
  | FigShow (f : figure)
  | PlotBarSubplots (m : MetricFrame)
  | PltSubplotsAdjust
  | PltSubplot (r c i : nat)
  | ShapBarCohorts (e : explanation) (cohorts : list string)
  | ShapBar (e : explanation)
  | ShapWaterfall (row : list float).

(** * The world: heap, random generator, output *)

Inductive obj : Type :=
  | ODataFrame (d : DataFrame)
  | OArray (s : Series).

Definition loc : Type := nat.

(** The state of the random generator: the raw outputs it is going to
    give, and how many of them were used. *)
Record random_state : Type := mkRandom {
  draws : nat -> nat;
  cursor : nat
}.

(** [random._randbelow(n)] for a positive [n]: a number below [n] and the
    state the generator is left in.  CPython draws raw bits until they fall
    in the range, so the number of raw outputs used is not fixed; the
    function is an interface. *)
Class RandomModule : Type := {
  randbelow : nat -> random_state -> nat * random_state;
  randbelow_lt : forall n s, (0 < n)%nat -> (fst (randbelow n s) < n)%nat
}.

Record world : Type := mkWorld {
  heap : list obj;
  rng : random_state;
  stdout : list event
}.

Definition set_heap (h : list obj) (w : world) : world :=
  mkWorld h (rng w) (stdout w).

(** Computations: state passing with exceptions; the state reached when an
    exception is raised is kept. *)
Definition M (A : Type) : Type := world -> result A * world.

Definition ret {A} (a : A) : M A := fun w => (inr a, w).
Definition raise {A} (e : exn) : M A := fun w => (inl e, w).
Definition lift {A} (r : result A) : M A := fun w => (r, w).

Definition bind {A B} (c : M A) (k : A -> M B) : M B :=
  fun w =>
    match c w with
    | (inl e, w') => (inl e, w')
    | (inr a, w') => k a w'
    end.

Notation "'let*' x ':=' c 'in' k" := (bind c (fun x => k))
  (at level 10, x pattern, c at level 100, k at level 200).

(** A [for] loop threading the local variables it updates. *)
Fixpoint for_each {A S} (l : list A) (s : S) (body : S -> A -> M S) : M S :=
  match l with
  | [] => ret s
  | a :: l' => let* s' := body s a in for_each l' s' body
  end.

Definition alloc (o : obj) : M loc :=
  fun w => (inr (length (heap w)), set_heap (heap w ++ [o]) w).

Definition read_frame (l : loc) : M DataFrame :=
  fun w =>
    match heap w !! l with
    | Some (ODataFrame d) => (inr d, w)
    | _ => (inl TypeError, w)
    end.

Definition read_array (l : loc) : M Series :=
  fun w =>
    match heap w !! l with
    | Some (OArray s) => (inr s, w)
    | _ => (inl TypeError, w)
    end.

Definition write_frame (l : loc) (d : DataFrame) : M unit :=
  fun w => (inr tt, set_heap (<[l := ODataFrame d]> (heap w)) w).

Definition emit (e : event) : M unit :=
  fun w => (inr tt, mkWorld (heap w) (rng w) (stdout w ++ [e])).

(** [random.randrange(0, n)]: an empty range is a [ValueError], raised
    before the generator is used. *)
Definition randrange0 {random : RandomModule} (n : nat) : M nat :=
  fun w =>
    match n with
    | O => (inl ValueError, w)
    | S _ =>
        (inr (fst (randbelow n (rng w))),
         mkWorld (heap w) (snd (randbelow n (rng w))) (stdout w))
    end.

(** [X.copy()] *)
Definition df_copy (l : loc) : M loc :=
  let* d := read_frame l in alloc (ODataFrame d).

(** [frame[c] = v], in place. *)
Definition df_setitem (l : loc) (c : string) (v : Series) : M unit :=
  let* d := read_frame l in
  let* d' := lift (df_set d c v) in
  write_frame l d'.

(** [frame[c]] *)
Definition df_getitem (l : loc) (c : string) : M Series :=
  let* d := read_frame l in lift (df_get d c).

(** [frame[mask]]: a new frame. *)
Definition df_select (l : loc) (mask : list bool) : M loc :=
  let* d := read_frame l in alloc (ODataFrame (df_filter d mask)).

(** * The collaborators

    The statistics, classifier, explanation and fairness-metric libraries are
    interfaces.  [chisquare f_obs f_exp] is scipy's goodness-of-fit test: with
    [f_exp = None] the categories are taken as equally likely.  Both tests
    return the statistic first and the p-value second. *)

Class Statistics : Type := {
  chi2_contingency : list (list Z) -> result (float * float * Z * list (list float));
  chisquare : list float -> option (list float) -> float * float
}.

Class Classifier : Type := {
  predict : DataFrame -> Series
}.

Class Explainer : Type := {
  explain : DataFrame -> result explanation
}.

(** shap's plotting functions look into what they are given and may refuse
    it: [None] when the chart is drawn, the exception otherwise.
    [plots_bar_cohorts e c] stands for
    [shap.plots.bar(e.cohorts(c).abs.mean(0), show=False)]. *)
Class ShapPlots : Type := {
  plots_bar_cohorts : explanation -> list string -> option exn;
  plots_bar : explanation -> option exn;
  plots_waterfall : list float -> option exn
}.

(** A call of a plotting function: the chart appears unless the call is
    refused. *)
Definition shap_plot (refusal : option exn) (chart : event) : M unit :=
  match refusal with
  | Some e => raise e
  | None => emit chart
  end.

(** fairlearn's and sklearn's metric functions, each taking the true and the
    predicted labels of one subgroup. *)
Class FairnessMetrics : Type := {
  true_positive_rate : Series -> Series -> float;
  false_positive_rate : Series -> Series -> float;
  true_negative_rate : Series -> Series -> float;
  false_negative_rate : Series -> Series -> float;
  selection_rate : Series -> Series -> float;
  accuracy_score : Series -> Series -> float
}.

(** [MetricFrame(metrics=..., y_true=..., y_pred=..., sensitive_features=...)]:
    every metric evaluated on every subgroup, groups in increasing order. *)
Definition metric_frame_of (metrics : dict string (Series -> Series -> float))
    (y_true y_pred sensitive_features : Series) : result MetricFrame :=
  if decide (length y_true = length y_pred
             /\ length y_true = length sensitive_features)
  then
    let groups := unique_sorted sensitive_features in
    inr (mkMetricFrame groups
      (map (fun nf =>
              (fst nf,
               map (fun g =>
                      let m := series_eq_scalar sensitive_features g in
                      snd nf (select m y_true) (select m y_pred))
                   groups))
           metrics))
  else inl ValueError.

(** * The class [FairDetect] *)

Record FairDetect : Type := mkFairDetect {
  X_test : loc;
  y_test : loc
}.

Definition newline : string := String (Ascii.ascii_of_nat 10) EmptyString.

(** The float literals of the significance levels. *)
Definition sl_0_01 : float := flit (1 # 100).
Definition sl_0_05 : float := flit (5 # 100).
Definition sl_0_1 : float := flit (1 # 10).

Definition times_100 (items : list float) : list float :=
  map (fun x => fmul x (float_of_Z 100)) items.

Section FairDetect.
Context {stats : Statistics} {clf : Classifier} {expl : Explainer}
  {metrics : FairnessMetrics} {numpy : Numpy} {plots : ShapPlots}
  {random : RandomModule}.

(** [representation], lines 109-144. *)
Definition representation (X_test y_test : loc) (sensitive : string)
    (labels : dict Z string) (predictions : loc)
    : M (Table * dict string loc * figure * float) :=
  let* full_table := df_copy X_test in
  let* sens_df :=
    for_each (dict_keys labels) ([] : dict string loc) (fun sens_df i =>
      let* p := read_array predictions in
      let* _ := df_setitem full_table "p" p in
      let* t := read_array y_test in
      let* _ := df_setitem full_table "t" t in
      let* s := df_getitem full_table sensitive in
      let* part := df_select full_table (series_eq_scalar s (inject_Z i)) in
      let* name := lift (dict_getitem labels i) in
      ret (dict_set sens_df name part)) in
  let* s := df_getitem full_table sensitive in
  let* t := df_getitem full_table "t" in
  let contigency_p := crosstab s t in
  let* _ := lift (chi2_contingency (ct_values contigency_p)) in
  let* s := df_getitem full_table sensitive in
  let* t := df_getitem full_table "t" in
  let contigency_pct_p := crosstab_normalize_index s t in
  let* reps :=
    for_each (dict_keys labels)
      (([] : dict string float), ([] : dict string float)) (fun reps i =>
      let* xs := df_getitem X_test sensitive in
      let* share := lift (value_share xs i) in
      let* name := lift (dict_getitem labels i) in
      let sens_rep := dict_set (fst reps) name share in
      let* ys := read_array y_test in
      let* share := lift (value_share ys i) in
      let labl_rep := dict_set (snd reps) (pretty i) share in
      ret (sens_rep, labl_rep)) in
  let sens_rep := fst reps in
  let labl_rep := snd reps in
  let* fig :=
    for_each (dict_keys labels) ([] : figure) (fun fig i =>
      let* name := lift (dict_getitem labels i) in
      let* y := lift (dict_getitem sens_rep name) in
      let fig := fig ++ [mkBar [name] [y] None (Some (1, 1)%nat)] in
      let* y := lift (dict_getitem labl_rep (pretty i)) in
      let* color := lift (list_getitem ["orange"; "blue"]%string i) in
      ret (fig ++ [mkBar [pretty i] [y] (Some color) (Some (1, 2)%nat)])) in
  let* (c, p, dof, expected) := lift (chi2_contingency (ct_values contigency_p)) in
  let cont_table := tabulate_T contigency_pct_p (dict_values labels) in
  ret (cont_table, sens_df, fig, p).

(** [ability], lines 193-205. *)
Definition ability (self : FairDetect) (predictions sen_feat_test : loc)
    : M MetricFrame :=
  let* sens := read_array sen_feat_test in
  let* t := read_array (y_test self) in
  let* p := read_array predictions in
  lift (metric_frame_of
    [("true_positive_rate_m", true_positive_rate);
     ("false_positive_rate_m", false_positive_rate);
     ("true_negative_rate_m", true_negative_rate);
     ("false_negative_rate_m", false_negative_rate);
     ("selection_rate", selection_rate);
     ("accuracy_score", accuracy_score)]%string
    t p sens).

(** [ability_plots], lines 241-247. *)
Definition ability_plots (metric_frame : MetricFrame) : M unit :=
  emit (PlotBarSubplots metric_frame).

Definition list_test : list string :=
  ["true_positive_rate_m"; "false_positive_rate_m";
   "true_negative_rate_m"; "false_negative_rate_m"]%string.

(** The first loop of [ability_metrics], lines 288-294: the dictionary
    [dic_p_val]. *)
Definition ability_p_values (dic_met : dict string (list float))
    : dict string float :=
  foldl (fun dic_p_val kv =>
           if bool_decide (fst kv ∈ list_test)
           then dict_set dic_p_val (fst kv)
                  (snd (chisquare (times_100 (snd kv)) None))
           else dic_p_val)
        [] dic_met.

(** The branch taken for one entry of [dic_p_val], lines 297-304. *)
Definition ability_verdict (key : string) (items : float) : event :=
  if fle items sl_0_01 then
    Print [PStr ("With 99% Confidence Level, Reject H0: " +:+ key +:+ " with p= ");
           PFloat items]
  else if fle items sl_0_05 then
    Print [PStr ("With 95% Confidence Level, Reject H0: " +:+ key +:+ " with p= ");
           PFloat items]
  else if fle items sl_0_1 then
    Print [PStr ("With 90% Confidence Level, Reject H0: " +:+ key +:+ " with p= ");
           PFloat items]
  else
    Print [PStr ("Accept H0: " +:+ key +:+ " Disparity is Not Detected. p= ");
           PFloat items].

(** [ability_metrics], lines 288-304. *)
Definition ability_metrics (metric_frame : MetricFrame) : M unit :=
  let dic_met := by_group metric_frame in
  let dic_p_val := ability_p_values dic_met in
  for_each dic_p_val tt (fun _ kv => emit (ability_verdict (fst kv) (snd kv))).

(** [predictive], lines 345-354. *)
Definition predictive (labels : dict Z string) (sens_df : dict string loc)
    : M (dict string float * figure * float) :=
  let* precision_dic :=
    for_each (dict_keys labels) ([] : dict string float) (fun precision_dic i =>
      let* name := lift (dict_getitem labels i) in
      let* part := lift (dict_getitem sens_df name) in
      let* t := df_getitem part "t" in
      let* p := df_getitem part "p" in
      let* score := lift (precision_score t p) in
      ret (dict_set precision_dic name score)) in
  let fig := [mkBar (dict_values labels) (dict_values precision_dic) None None] in
  let pred_p := snd (chisquare (times_100 (dict_values precision_dic)) None) in
  ret (precision_dic, fig, pred_p).

(** The verdict printed for the representation p-value, lines 434-441. *)
Definition representation_verdict (sensitive : string) (rep_p : float) : event :=
  if fle rep_p sl_0_01 then
    Print [PStr "*** Reject H0: Significant Relation Between"; PStr sensitive;
           PStr "and Target with p="; PFloat rep_p]
  else if fle rep_p sl_0_05 then
    Print [PStr "** Reject H0: Significant Relation Between"; PStr sensitive;
           PStr "and Target with p="; PFloat rep_p]
  else if fle rep_p sl_0_1 then
    Print [PStr "* Reject H0: Significant Relation Between"; PStr sensitive;
           PStr "and Target with p="; PFloat rep_p]
  else
    Print [PStr "Accept H0: No Significant Relation Between"; PStr sensitive;
           PStr "and Target Detected. p="; PFloat rep_p].

(** The verdict printed for the precision p-value, lines 448-455. *)
Definition predictive_verdict (pred_p : float) : event :=
  if fle pred_p sl_0_01 then
    Print [PStr "*** Reject H0: Significant Predictive Disparity with p=";
           PFloat pred_p]
  else if fle pred_p sl_0_05 then
    Print [PStr "** Reject H0: Significant Predictive Disparity with p=";
           PFloat pred_p]
  else if fle pred_p sl_0_1 then
    Print [PStr "* Reject H0: Significant Predictive Disparity with p=";
           PFloat pred_p]
  else
    Print [PStr "Accept H0: No Significant Predictive Disparity. p=";
           PFloat pred_p].

(** [identify_bias], lines 426-460. *)
Definition identify_bias (self : FairDetect) (sensitive : string)
    (labels : dict Z string) : M unit :=
  let* X := read_frame (X_test self) in
  let* predictions := alloc (OArray (predict X)) in
  let* (cont_table, sens_df, rep_fig, rep_p) :=
    representation (X_test self) (y_test self) sensitive labels predictions in
  let* _ := emit (Print [PStr "REPRESENTATION"]) in
  let* _ := emit (FigShow rep_fig) in
  let* _ := emit (Print [PTable cont_table; PStr newline]) in
  let* _ := emit (representation_verdict sensitive rep_p) in
  let* (precision_dic, pred_fig, pred_p) := predictive labels sens_df in
  let* _ := emit (Print [PStr (newline +:+ newline +:+ "PREDICTIVE")]) in
  let* _ := emit (FigShow pred_fig) in
  let* _ := emit (predictive_verdict pred_p) in
  let* s := df_getitem (X_test self) sensitive in
  let* sen_feat_test := alloc (OArray s) in
  let* metric_frame := ability self predictions sen_feat_test in
  let* _ := ability_metrics metric_frame in
  ability_plots metric_frame.

(** [tab[tab.t != tab.p]] and [tab[tab.t == tab.p]] *)
Definition select_misclassified (tab : loc) : M loc :=
  let* t := df_getitem tab "t" in
  let* p := df_getitem tab "p" in
  df_select tab (series_ne t p).

Definition select_correct (tab : loc) : M loc :=
  let* t := df_getitem tab "t" in
  let* p := df_getitem tab "p" in
  df_select tab (series_eq t p).

(** [tab[(tab[sensitive] == affected_group) & (tab[col] == affected_target)]] *)
Definition select_group_label (tab : loc) (sensitive col : string)
    (affected_group affected_target : Z) : M loc :=
  let* s := df_getitem tab sensitive in
  let* c := df_getitem tab col in
  df_select tab (mask_and (series_eq_scalar s (inject_Z affected_group))
                          (series_eq_scalar c (inject_Z affected_target))).

(** [tab.drop(['t','p',sensitive],axis=1).mean()] *)
Definition feature_means (tab : loc) (sensitive : string) : M (dict string float) :=
  let* d := read_frame tab in
  let* d' := lift (df_drop d ["t"; "p"; sensitive]%string) in
  ret (df_mean d').

(** [list(tab.drop(['t','p',sensitive],axis=1).columns)] *)
Definition feature_names (tab : loc) (sensitive : string) : M (list string) :=
  let* d := read_frame tab in
  let* d' := lift (df_drop d ["t"; "p"; sensitive]%string) in
  ret (dict_keys (df_cols d')).

(** Lines 559-566 of [understand_shap]: the comparison of the misclassified
    cohort with the members of the true class. *)
Definition compare_to_true_class (full_table : loc) (sensitive : string)
    (affected_group affected_target : Z) : M (list string * list float) :=
  let* misclass := select_misclassified full_table in
  let* affected_class :=
    select_group_label misclass sensitive "p" affected_group affected_target in
  let* truclass := select_correct full_table in
  let* tru_class :=
    select_group_label truclass sensitive "t" affected_group affected_target in
  let* x_axis := feature_names affected_class sensitive in
  let* a := feature_means affected_class sensitive in
  let* b := feature_means tru_class sensitive in
  let* a' := feature_means affected_class sensitive in
  let affect_character :=
    dict_values (series_binop fdiv (series_binop fsub a b) a') in
  ret (x_axis, affect_character).

(** Lines 574-578: the comparison with the whole population; it returns the
    cohort as well, which the last statement samples from. *)
Definition compare_to_all (full_table : loc) (sensitive : string)
    (affected_group affected_target : Z) : M (loc * list string * list float) :=
  let* misclass := select_misclassified full_table in
  let* affected_class :=
    select_group_label misclass sensitive "p" affected_group affected_target in
  let* x_axis := feature_names affected_class sensitive in
  let* a := feature_means affected_class sensitive in
  let* b := feature_means full_table sensitive in
  let* a' := feature_means affected_class sensitive in
  let affect_character :=
    dict_values (series_binop fdiv (series_binop fsub a b) a') in
  ret (affected_class, x_axis, affect_character).

(** Line 543: [np.where(X_test[sensitive] == list(labels.keys())[0],
    labels[0], labels[1])]; the arguments are evaluated left to right. *)
Definition global_cohorts (X_test : loc) (sensitive : string)
    (labels : dict Z string) : M (list string) :=
  let* s := df_getitem X_test sensitive in
  let* first_key := lift (list_getitem (dict_keys labels) 0) in
  let* label0 := lift (dict_getitem labels 0%Z) in
  let* label1 := lift (dict_getitem labels 1%Z) in
  ret (map (fun v => if Qeq_bool v (inject_Z first_key) then label0 else label1) s).

(** Lines 539-540 and again 556-557: the true and the predicted labels are
    written into the working table. *)
Definition relabel (self : FairDetect) (full_table : loc) : M unit :=
  let* y := read_array (y_test self) in
  let* _ := df_setitem full_table "t" y in
  let* X := read_frame (X_test self) in
  df_setitem full_table "p" (predict X).

(** Lines 536-542: the working table is a copy of [X_test] extended with the
    labels; the explainer is applied to [X_test]. *)
Definition shap_setup (self : FairDetect) : M (loc * explanation) :=
  let* full_table := df_copy (X_test self) in
  let* _ := relabel self full_table in
  let* X := read_frame (X_test self) in
  let* shap_values := lift (explain X) in
  ret (full_table, shap_values).

(** Lines 543-554: the two importance charts. *)
Definition importance_comparison (self : FairDetect) (full_table : loc)
    (shap_values : explanation) (labels : dict Z string) (sensitive : string)
    (affected_group affected_target : Z) : M unit :=
  let* sens_glob_coh := global_cohorts (X_test self) sensitive labels in
  let* misclass := select_misclassified full_table in
  let* affected_class :=
    select_group_label misclass sensitive "p" affected_group affected_target in
  let* _ := emit PltSubplotsAdjust in
  let* _ := emit (Print [PStr "Model Importance Comparison"]) in
  let* _ := shap_plot (plots_bar_cohorts shap_values sens_glob_coh)
              (ShapBarCohorts shap_values sens_glob_coh) in
  let* _ := emit (PltSubplot 1 2 2) in
  let* d := read_frame affected_class in
  let* d' := lift (df_drop d ["t"; "p"]%string) in
  let* shap_values2 := lift (explain d') in
  shap_plot (plots_bar shap_values2) (ShapBar shap_values2).

(** Lines 584-586: one record of the cohort, drawn at random, is explained. *)
Definition random_decision_process (affected_class : loc) : M unit :=
  let* _ := emit (Print [PStr "Random Affected Decision Process"]) in
  let* d := read_frame affected_class in
  let* d' := lift (df_drop d ["t"; "p"]%string) in
  let* e := lift (explain d') in
  let* d := read_frame affected_class in
  let* k := randrange0 (df_len d) in
  let* row := lift (list_getitem e (Z.of_nat k)) in
  shap_plot (plots_waterfall row) (ShapWaterfall row).

(** [understand_shap], lines 535-586. *)
Definition understand_shap (self : FairDetect) (labels : dict Z string)
    (sensitive : string) (affected_group affected_target : Z) : M unit :=
  let* (full_table, shap_values) := shap_setup self in
  let* _ := importance_comparison self full_table shap_values labels sensitive
              affected_group affected_target in
  let* _ := relabel self full_table in
  let* (x_axis, affect_character) :=
    compare_to_true_class full_table sensitive affected_group affected_target in
  let fig := [mkBar x_axis affect_character None None] in
  let* _ := emit (Print [PStr "Affected Attribute Comparison"]) in
  let* _ := emit (Print [PStr "Average Comparison to True Class Members"]) in
  let* _ := emit (FigShow fig) in
  let* (affected_class, x_axis, affect_character) :=
    compare_to_all full_table sensitive affected_group affected_target in
  let fig := [mkBar x_axis affect_character None None] in
  let* _ := emit (Print [PStr "Average Comparison to All Members"]) in
  let* _ := emit (FigShow fig) in
  random_decision_process affected_class.

End FairDetect.

(** * Test doubles

    Executable stand-ins for the collaborators, used to run the model on
    concrete inputs.  The chi-square doubles compute Pearson's statistic
    exactly and refuse the tables scipy refuses (no data, a zero expected
    frequency); their p-value [1 / (1 + statistic)] is a stand-in for the
    chi-square survival function, with which it shares the value 1 at
    statistic 0 and the monotone decrease. *)

Definition Qsquare (x : Q) : Q := x * x.

Definition column_sums (t : list (list Z)) : list Z :=
  map (fun j => Zsum (omap (fun row => row !! j) t))
      (seq 0 (length (default [] (head t)))).

Definition pearson_contingency (t : list (list Z)) : Q :=
  let total := inject_Z (Zsum (map Zsum t)) in
  let cols := column_sums t in
  Qsum (map (fun row =>
          Qsum (zip_with (fun o c =>
                  let e := inject_Z (Zsum row) * inject_Z c / total in
                  Qsquare (inject_Z o - e) / e) row cols)) t).

Definition double_chi2_contingency (t : list (list Z))
    : result (float * float * Z * list (list float)) :=
  if (existsb (Z.eqb 0) (map Zsum t) || existsb (Z.eqb 0) (column_sums t)
      || (Zsum (map Zsum t) =? 0)%Z)%bool
  then inl ValueError
  else
    let stat := pearson_contingency t in
    inr (flit stat, flit (1 / (1 + stat)),
         ((Z.of_nat (length t) - 1) * (Z.of_nat (length (column_sums t)) - 1))%Z,
         []).

Definition finite_values (l : list float) : option (list Q) :=
  mapM (fun x => match x with Fin q => Some q | _ => None end) l.

Definition double_chisquare (f_obs : list float) (f_exp : option (list float))
    : float * float :=
  match finite_values f_obs, f_exp with
  | Some obs, None =>
      let m := Qsum obs / inject_Z (Z.of_nat (length obs)) in
      if Qeq_bool m 0 then (NaN, NaN)
      else
        let stat := Qsum (map (fun o => Qsquare (o - m) / m) obs) in
        (flit stat, flit (1 / (1 + stat)))
  | _, _ => (NaN, NaN)
  end.

#[local] Instance double_statistics : Statistics :=
  {| chi2_contingency := double_chi2_contingency;
     chisquare := double_chisquare |}.

(** A classifier that thresholds the column [score] at one half. *)
#[local] Instance double_classifier : Classifier :=
  {| predict := fun d =>
       map (fun x => if Qle_bool (1 # 2) x then 1 else 0)
           (default [] (dict_get (df_cols d) "score"%string)) |}.

(** An explainer that returns every record's own feature values. *)
#[local] Instance double_explainer : Explainer :=
  {| explain := fun d =>
       inr (map (fun i => omap (fun kv => Fin <$> snd kv !! i) (df_cols d))
                (seq 0 (df_len d))) |}.

Definition rate (y_true y_pred : Series) (t p : Q) (among_true : Q) : float :=
  let den := count_eq y_true among_true in
  if (den =? 0)%Z then Fin 0
  else int_truediv (count_pairs (zip y_true y_pred) t p) den.

#[local] Instance double_metrics : FairnessMetrics :=
  {| true_positive_rate := fun t p => rate t p 1 1 1;
     false_positive_rate := fun t p => rate t p 0 1 0;
     true_negative_rate := fun t p => rate t p 0 0 0;
     false_negative_rate := fun t p => rate t p 1 0 1;
     selection_rate := fun t p =>
       int_truediv (count_eq p 1) (Z.of_nat (length p));
     accuracy_score := fun t p =>
       int_truediv (Z.of_nat (length (List.filter id (series_eq t p))))
                   (Z.of_nat (length p)) |}.

(** Summation from left to right, starting with the first element. *)
Definition sum_left_to_right (l : list float) : float :=
  match l with
  | [] => Fin 0
  | x :: l' => foldl fadd x l'
  end.

#[local] Instance double_numpy : Numpy.
Proof.
  refine {| np_sum := sum_left_to_right |}.
  intros [|x l] Hne; [congruence|]. clear Hne. simpl.
  enough (Hgen : forall (l done : list float) (acc : float),
            adds_up done acc -> adds_up (done ++ l) (foldl fadd acc l))
    by (exact (Hgen l [x] x (adds_up_one x))).
  clear. induction l as [|y l IH]; intros done acc Hacc; simpl.
  - now rewrite app_nil_r.
  - replace (done ++ y :: l) with ((done ++ [y]) ++ l)
      by (now rewrite <- app_assoc).
    apply IH. eapply adds_up_split; [reflexivity | exact Hacc | constructor].
Defined.

(** Plotting functions that draw whatever they are given, except that the
    bar chart refuses an explanation without records. *)
#[local] Instance double_plots : ShapPlots :=
  {| plots_bar_cohorts := fun _ _ => None;
     plots_bar := fun e => match e with [] => Some IndexError | _ => None end;
     plots_waterfall := fun _ => None |}.

(** A generator that reduces its next raw output into the range. *)
#[local] Instance double_random : RandomModule.
Proof.
  refine {| randbelow := fun n s =>
              ((draws s (cursor s) mod n)%nat, mkRandom (draws s) (S (cursor s))) |}.
  intros n s Hn. simpl. apply Nat.mod_upper_bound. lia.
Defined.

(** * [create_labels]: the interactive label map

    [create_labels] talks to the user: [input(text)] writes the prompt to the
    console and reads one line, and raises [EOFError] when the input is at
    its end.  The console is a state of its own, threaded explicitly; the
    frame is only read.  The order in which Python iterates over a [set] is
    not specified: it is a parameter, constrained in the theorems to list
    the distinct values. *)

(** The text of a prompt: literal pieces and [str(v)] of a cell. *)
Inductive prompt_piece : Type :=
  | Lit (s : string)
  | StrOf (v : Q).

Abbreviation prompt := (list prompt_piece).

Record console : Type := mkConsole {
  stdin : list string;
  prompts : list prompt
}.

Inductive console_exn : Type :=
  | Raised (e : exn)
  | EOFError.

Definition IO (A : Type) : Type := console -> (console_exn + A) * console.

(** [input(text)] *)
Definition input (text : prompt) : IO string :=
  fun c =>
    match stdin c with
    | [] => (inl EOFError, mkConsole [] (prompts c ++ [text]))
    | line :: rest => (inr line, mkConsole rest (prompts c ++ [text]))
    end.

(** The iteration order of [set(values)]. *)
Class PySet : Type := {
  set_iter : Series -> list Q
}.

(** [d[k] = v] on a dictionary keyed by numbers: keys are compared by
    value. *)
Fixpoint num_dict_set (d : dict Q string) (k : Q) (v : string) : dict Q string :=
  match d with
  | [] => [(k, v)]
  | (k', v') :: d' =>
      if Qeq_bool k' k then (k', v) :: d' else (k', v') :: num_dict_set d' k v
  end.

(** ["Please Enter Label for Group" + " " + str(i) + ": "] *)
Definition label_prompt (i : Q) : prompt :=
  [Lit "Please Enter Label for Group"; Lit " "; StrOf i; Lit ": "].

(** The loop of [create_labels], lines 60-63. *)
Fixpoint label_groups (groups : list Q) (sensitive_label : dict Q string)
    : IO (dict Q string) :=
  match groups with
  | [] => fun c => (inr sensitive_label, c)
  | i :: groups' =>
      fun c =>
        let text := label_prompt i in
        match input text c with
        | (inl e, c') => (inl e, c')
        | (inr label, c') =>
            label_groups groups' (num_dict_set sensitive_label i label) c'
        end
  end.

(** [create_labels], lines 59-64. *)
Definition create_labels {order : PySet} (X_test : loc) (sensitive : string)
    (w : world) : IO (dict Q string) :=
  fun c =>
    match fst (df_getitem X_test sensitive w) with
    | inl e => (inl (Raised e), c)
    | inr values => label_groups (set_iter values) [] c
    end.

(** * The verdict policy, in the words of the specification *)

Inductive tier : Type :=
  | Reject99
  | Reject95
  | Reject90
  | AcceptH0.

Definition strength (t : tier) : nat :=
  match t with
  | Reject99 => 3
  | Reject95 => 2
  | Reject90 => 1
  | AcceptH0 => 0
  end.

(** [x < y] on floats. *)
Definition flt (x y : float) : bool := fle x y && negb (fle y x).

Definition in_tier (p : float) (t : tier) : Prop :=
  match t with
  | Reject99 => fle p sl_0_01 = true
  | Reject95 => flt sl_0_01 p = true /\ fle p sl_0_05 = true
  | Reject90 => flt sl_0_05 p = true /\ fle p sl_0_1 = true
  | AcceptH0 => flt sl_0_1 p = true
  end.

(** What each of the three reports prints for a tier. *)
Definition ability_line (t : tier) (key : string) (p : float) : event :=
  match t with
  | Reject99 =>
      Print [PStr ("With 99% Confidence Level, Reject H0: " +:+ key +:+ " with p= "); PFloat p]
  | Reject95 =>
      Print [PStr ("With 95% Confidence Level, Reject H0: " +:+ key +:+ " with p= "); PFloat p]
  | Reject90 =>
      Print [PStr ("With 90% Confidence Level, Reject H0: " +:+ key +:+ " with p= "); PFloat p]
  | AcceptH0 =>
      Print [PStr ("Accept H0: " +:+ key +:+ " Disparity is Not Detected. p= "); PFloat p]
  end.

Definition representation_line (t : tier) (sensitive : string) (p : float) : event :=
  match t with
  | Reject99 =>
      Print [PStr "*** Reject H0: Significant Relation Between"; PStr sensitive;
             PStr "and Target with p="; PFloat p]
  | Reject95 =>
      Print [PStr "** Reject H0: Significant Relation Between"; PStr sensitive;
             PStr "and Target with p="; PFloat p]
  | Reject90 =>
      Print [PStr "* Reject H0: Significant Relation Between"; PStr sensitive;
             PStr "and Target with p="; PFloat p]
  | AcceptH0 =>
      Print [PStr "Accept H0: No Significant Relation Between"; PStr sensitive;
             PStr "and Target Detected. p="; PFloat p]
  end.

Definition predictive_line (t : tier) (p : float) : event :=
  match t with
  | Reject99 =>
      Print [PStr "*** Reject H0: Significant Predictive Disparity with p="; PFloat p]
  | Reject95 =>
      Print [PStr "** Reject H0: Significant Predictive Disparity with p="; PFloat p]
  | Reject90 =>
      Print [PStr "* Reject H0: Significant Predictive Disparity with p="; PFloat p]
  | AcceptH0 =>
      Print [PStr "Accept H0: No Significant Predictive Disparity. p="; PFloat p]
  end.

(** * Reasoning about computations *)

(** [wp c Q w]: running [c] from [w] ends in an outcome and a world that
    satisfy [Q]. *)
Definition wp {A} (c : M A) (Q : result A -> world -> Prop) (w : world) : Prop :=
  Q (fst (c w)) (snd (c w)).

(** [extends w w']: [w'] has the objects of [w], unchanged and at the same
    locations, possibly followed by new ones; the random generator is
    untouched; output was only appended. *)
Definition extends (w w' : world) : Prop :=
  (exists ext, heap w' = heap w ++ ext)
  /\ rng w' = rng w
  /\ (exists evs, stdout w' = stdout w ++ evs).

Definition append_only {A} (c : M A) : Prop :=
  forall w, extends w (snd (c w)).

(** * The attribution comparison, in the words of the specification *)

(** A well-formed frame: every column has one cell per row and no two
    columns share a name. *)
Definition df_wf (d : DataFrame) : Prop :=
  Forall (fun kv => length (snd kv) = df_len d) (df_cols d)
  /\ NoDup (dict_keys (df_cols d)).

(** Row by row, with [s] the sensitive column, [t] the true and [p] the
    predicted labels: the misclassified cohort of a group and a predicted
    label, and the correctly classified members of the group whose true label
    is that label. *)
Definition cohort_rows (s t p : Series) (group target : Z) : list bool :=
  zip_with (fun si tp =>
              negb (Qeq_bool (fst tp) (snd tp))
              && Qeq_bool si (inject_Z group)
              && Qeq_bool (snd tp) (inject_Z target))
           s (zip t p).

Definition true_class_rows (s t p : Series) (group target : Z) : list bool :=
  zip_with (fun si tp =>
              Qeq_bool (fst tp) (snd tp)
              && Qeq_bool si (inject_Z group)
              && Qeq_bool (fst tp) (inject_Z target))
           s (zip t p).

(** The mean of the values of a feature: their sum in float64 divided by
    their number, and not a number when there is no value. *)
Definition mean_of {numpy : Numpy} (values : Series) : float :=
  if (length values =? 0)%nat then NaN
  else fdiv (np_sum (map float_of_cell values))
            (float_of_Z (Z.of_nat (length values))).

(** (mean over the cohort - mean over the reference) / mean over the cohort *)
Definition relative_difference {numpy : Numpy} (cohort reference : Series)
    : float :=
  fdiv (fsub (mean_of cohort) (mean_of reference)) (mean_of cohort).

(** The compared features: every column but the labels and the sensitive
    column. *)
Definition is_feature (sensitive c : string) : bool :=
  negb (bool_decide (c ∈ ["t"; "p"; sensitive]%string)).

Definition features (sensitive : string) (d : DataFrame) : dict string Series :=
  List.filter (fun kv => is_feature sensitive (fst kv)) (df_cols d).

Definition spec_compare_to_true_class {numpy : Numpy} (d : DataFrame)
    (s t p : Series) (sensitive : string) (group target : Z)
    : dict string float :=
  map (fun kv =>
         (fst kv,
          relative_difference
            (select (cohort_rows s t p group target) (snd kv))
            (select (true_class_rows s t p group target) (snd kv))))
      (features sensitive d).

(** The number of selected rows. *)
Definition count_true (mask : list bool) : nat := length (List.filter id mask).

(** The working table of [understand_shap]: [X_test] with the true labels
    in column [t] and the predictions in column [p]. *)
Definition working_table (X : DataFrame) (y p : Series) : result DataFrame :=
  match df_set X "t" y with
  | inl e => inl e
  | inr d1 => df_set d1 "p" p
  end.

(** No record of the table is misclassified into the given label within the
    given group. *)
Definition cohort_empty (d : DataFrame) (sensitive : string)
    (group target : Z) : Prop :=
  forall s t p,
    df_get d sensitive = inr s -> df_get d "t" = inr t -> df_get d "p" = inr p ->
    count_true (cohort_rows s t p group target) = 0%nat.

(** * Two runs side by side

    [B1] and [B2] are the worlds in which two runs start.  [sim] relates the
    worlds the runs have reached: each heap is the starting heap followed by
    the same new objects, each output is the starting output followed by the
    same events.  Nothing is asked of the random generators.  Locations
    correspond when they hold the same object in the starting heaps, or when
    they are the same new object. *)

Definition sim (B1 B2 w1 w2 : world) : Prop :=
  (exists ext, heap w1 = heap B1 ++ ext /\ heap w2 = heap B2 ++ ext)
  /\ (exists evs, stdout w1 = stdout B1 ++ evs /\ stdout w2 = stdout B2 ++ evs).

Definition fresh_rel (B1 B2 : world) (l1 l2 : loc) : Prop :=
  exists k : nat, l1 = (length (heap B1) + k)%nat /\ l2 = (length (heap B2) + k)%nat.

Definition input_rel (B1 B2 : world) (l1 l2 : loc) : Prop :=
  exists o, heap B1 !! l1 = Some o /\ heap B2 !! l2 = Some o.

Definition loc_rel (B1 B2 : world) (l1 l2 : loc) : Prop :=
  input_rel B1 B2 l1 l2 \/ fresh_rel B1 B2 l1 l2.

Definition outcome_rel {A} (R : A -> A -> Prop) (r1 r2 : result A) : Prop :=
  match r1, r2 with
  | inl e1, inl e2 => e1 = e2
  | inr a1, inr a2 => R a1 a2
  | _, _ => False
  end.

(** [related B1 B2 R c1 c2]: from corresponding worlds, [c1] and [c2] reach
    corresponding worlds, raise the same exception or return values related
    by [R]. *)
Definition related {A} (B1 B2 : world) (R : A -> A -> Prop) (c1 c2 : M A) : Prop :=
  forall w1 w2, sim B1 B2 w1 w2 ->
    sim B1 B2 (snd (c1 w1)) (snd (c2 w2))
    /\ outcome_rel R (fst (c1 w1)) (fst (c2 w2)).

(** Two subgroup partitions with the same names and corresponding frames. *)
Definition partition_rel (rel : loc -> loc -> Prop)
    (sd1 sd2 : dict string loc) : Prop :=
  Forall2 (fun a b => fst a = fst b /\ rel (snd a) (snd b)) sd1 sd2.

(** The results of two runs of [representation] agree: same table, same
    figure, same p-value, same partition up to the locations of its frames. *)
Definition representation_rel (rel : loc -> loc -> Prop)
    (a b : Table * dict string loc * figure * float) : Prop :=
  fst (fst (fst a)) = fst (fst (fst b))
  /\ partition_rel rel (snd (fst (fst a))) (snd (fst (fst b)))
  /\ snd (fst a) = snd (fst b)
  /\ snd a = snd b.

(** [grows w w']: the heap of [w'] is the heap of [w], every object unchanged
    and in place, followed by new objects. *)
Definition grows (w w' : world) : Prop :=
  exists ext, heap w' = heap w ++ ext.

Definition heap_append_only {A} (c : M A) : Prop :=
  forall w, grows w (snd (c w)).

(** * Numeric bounds *)

(** The unit roundoff of binary64. *)
Definition eps64 : Q := pow2 (-53).

(** The tolerance of the row sums: 1e-9. *)
Definition tolerance : Q := 1 # 1000000000.

(** The subgroup, its label columns and its precision, for a key of the
    label map. *)
Definition subgroup_precision (labels : dict Z string) (sens_df : dict string loc)
    (w : world) (i : Z) (name : string) (p : Series) (score : float) : Prop :=
  exists l d t,
    dict_get labels i = Some name
    /\ dict_get sens_df name = Some l
    /\ heap w !! l = Some (ODataFrame d)
    /\ df_get d "t" = inr t
    /\ df_get d "p" = inr p
    /\ precision_score t p = inr score.

(** Binary labels: every value is 0 or 1. *)
Definition binary (v : Series) : Prop := Forall (fun x => x == 0 \/ x == 1) v.

(** The frame of the subgroup of a key of the label map, with its label
    columns. *)
Definition subgroup_labels (labels : dict Z string) (sens_df : dict string loc)
    (w : world) (i : Z) (name : string) (t p : Series) : Prop :=
  exists l d,
    dict_get labels i = Some name
    /\ dict_get sens_df name = Some l
    /\ heap w !! l = Some (ODataFrame d)
    /\ df_get d "t" = inr t
    /\ df_get d "p" = inr p.

(** * Outcomes of the analyses *)

(** [quiet c]: [c] prints nothing, shows no chart and leaves the random
    generator alone, whether it returns or raises. *)
Definition quiet {A} (c : M A) : Prop :=
  forall w, stdout (snd (c w)) = stdout w /\ rng (snd (c w)) = rng w.

(** [read_only c]: [c] leaves the whole world as it found it. *)
Definition read_only {A} (c : M A) : Prop := forall w, snd (c w) = w.

(** The rows of a sensitive group. *)
Definition group_mask (s : Series) (i : Z) : list bool :=
  series_eq_scalar s (inject_Z i).

(** What [representation] asks of a key of the label map: the key occurs in
    the sensitive column and among the true labels, and it indexes the list
    of the two marker colours. *)
Definition key_usable (s ys : Series) (i : Z) : Prop :=
  count_eq s (inject_Z i) <> 0%Z
  /\ count_eq ys (inject_Z i) <> 0%Z
  /\ (-2 <= i <= 1)%Z.

(** The table [representation] works on: a copy of [X_test] with the
    predictions in column [p], then the true labels in column [t]. *)
Definition representation_table (X : DataFrame) (y p : Series) : result DataFrame :=
  match df_set X "p" p with
  | inl e => inl e
  | inr d1 => df_set d1 "t" y
  end.

(** The frames of the subgroups, one per key of the label map, in the order
    in which [representation] creates them. *)
Definition subgroup_frames (d : DataFrame) (s : Series) (keys : list Z) : list obj :=
  map (fun i => ODataFrame (df_filter d (group_mask s i))) keys.

(** [sens_df] maps label names to the frames created for the keys [done],
    the first of them at location [base]: every entry is the frame of a key
    bearing that name, and every key's name has an entry. *)
Definition partition_of (labels : dict Z string) (base : nat)
    (sens_df : dict string loc) (done : list Z) : Prop :=
  (forall name l, dict_get sens_df name = Some l ->
     exists k i, l = (base + k)%nat /\ done !! k = Some i
                 /\ dict_get labels i = Some name)
  /\ (forall i name, In i done -> dict_get labels i = Some name ->
        is_Some (dict_get sens_df name)).

(** Why [representation] raised [e], on inputs whose partition it could
    build: the chi-square test refused the contingency table, or a key of the
    label map is missing from the data ([KeyError]), or all keys are there
    and one of them does not index the two marker colours ([IndexError]). *)
Definition representation_failure {stats : Statistics}
    (labels : dict Z string) (s ys : Series) (e : exn) : Prop :=
  chi2_contingency (ct_values (crosstab s ys)) = inl e
  \/ ((exists v, chi2_contingency (ct_values (crosstab s ys)) = inr v)
      /\ e = KeyError
      /\ exists i, In i (dict_keys labels)
                   /\ (count_eq s (inject_Z i) = 0%Z \/ count_eq ys (inject_Z i) = 0%Z))
  \/ ((exists v, chi2_contingency (ct_values (crosstab s ys)) = inr v)
      /\ (forall i, In i (dict_keys labels) ->
            count_eq s (inject_Z i) <> 0%Z /\ count_eq ys (inject_Z i) <> 0%Z)
      /\ e = IndexError
      /\ exists i, In i (dict_keys labels) /\ ~ (-2 <= i <= 1)%Z).

(** The six metrics of [ability]. *)
Definition audit_metrics {metrics : FairnessMetrics}
    : dict string (Series -> Series -> float) :=
  [("true_positive_rate_m", true_positive_rate);
   ("false_positive_rate_m", false_positive_rate);
   ("true_negative_rate_m", true_negative_rate);
   ("false_negative_rate_m", false_negative_rate);
   ("selection_rate", selection_rate);
   ("accuracy_score", accuracy_score)]%string.

(** What a complete audit prints and shows, in order. *)
Definition audit_output {stats : Statistics} (sensitive : string)
    (rep_fig : figure) (cont_table : Table) (rep_p : float)
    (pred_fig : figure) (pred_p : float) (metric_frame : MetricFrame)
    : list event :=
  [Print [PStr "REPRESENTATION"];
   FigShow rep_fig;
   Print [PTable cont_table; PStr newline];
   representation_verdict sensitive rep_p;
   Print [PStr (newline +:+ newline +:+ "PREDICTIVE")];
   FigShow pred_fig;
   predictive_verdict pred_p]
  ++ map (fun kv => ability_verdict (fst kv) (snd kv))
         (ability_p_values (by_group metric_frame))
  ++ [PlotBarSubplots metric_frame].

(** The columns that are left by [drop(['t','p'],axis=1)]. *)
Definition not_label (c : string) : bool :=
  negb (bool_decide (c ∈ ["t"; "p"]%string)).

(** The records of the misclassified cohort without the label columns: the
    frame the explainer is given at the end of [understand_shap]. *)
Definition cohort_table (d : DataFrame) (s t p : Series) (group target : Z)
    : DataFrame :=
  mkDF (count_true (cohort_rows s t p group target))
       (map (fun kv => (fst kv, select (cohort_rows s t p group target) (snd kv)))
            (List.filter (fun kv => not_label (fst kv)) (df_cols d))).

(** The comparison of the cohort with the whole population, in the words of
    the docstring: per feature, (mean over the cohort - mean over all
    records) / mean over the cohort. *)
Definition spec_compare_to_all {numpy : Numpy} (d : DataFrame)
    (s t p : Series) (sensitive : string) (group target : Z)
    : dict string float :=
  map (fun kv =>
         (fst kv,
          relative_difference
            (select (cohort_rows s t p group target) (snd kv))
            (snd kv)))
      (features sensitive d).

(** [groups] lists the distinct values of [values], each once. *)
Definition distinct_values (groups : list Q) (values : Series) : Prop :=
  NoDupA Qeq groups /\ forall x, InA Qeq x groups <-> InA Qeq x values.

(** [(v.value_counts() / v.value_counts().sum())[i]] for a value that
    occurs. *)
Definition share (v : Series) (i : Z) : float :=
  int_truediv (count_eq v (inject_Z i)) (Z.of_nat (length v)).

(** The two bars drawn for a key of the label map: the share of the key
    among the values of the sensitive column, under the key's label, and the
    share of the key among the true labels, under the key itself. *)
Definition representation_bars (labels : dict Z string) (s ys : Series) (i : Z)
    : list Bar :=
  match dict_get labels i, list_getitem ["orange"; "blue"]%string i with
  | Some name, inr color =>
      [mkBar [name] [share s i] None (Some (1, 1)%nat);
       mkBar [pretty i] [share ys i] (Some color) (Some (1, 2)%nat)]
  | _, _ => []
  end.

Definition representation_fig (labels : dict Z string) (s ys : Series) : figure :=
  flat_map (representation_bars labels s ys) (dict_keys labels).

(** No two keys of the label map bear the same label. *)
Definition one_key_per_name (labels : dict Z string) : Prop :=
  forall i j name,
    In i (dict_keys labels) -> In j (dict_keys labels) ->
    dict_get labels i = Some name -> dict_get labels j = Some name -> i = j.

(** The chart of one attribute comparison. *)
Definition comparison_chart (m : dict string float) : event :=
  FigShow [mkBar (dict_keys m) (dict_values m) None None].

(** What a complete run of [understand_shap] prints and shows, in order. *)
Definition attribution_output (shap_values : explanation)
    (sens_glob_coh : list string) (shap_values2 : explanation)
    (to_true_class to_all : dict string float) (row : list float) : list event :=
  [PltSubplotsAdjust;
   Print [PStr "Model Importance Comparison"];
   ShapBarCohorts shap_values sens_glob_coh;
   PltSubplot 1 2 2;
   ShapBar shap_values2;
   Print [PStr "Affected Attribute Comparison"];
   Print [PStr "Average Comparison to True Class Members"];
   comparison_chart to_true_class;
   Print [PStr "Average Comparison to All Members"];
   comparison_chart to_all;
   Print [PStr "Random Affected Decision Process"];
   ShapWaterfall row].

(** The cohort label of every record, as line 543 computes it. *)
Definition cohort_labels (first_key : Z) (label0 label1 : string) (s : Series)
    : list string :=
  map (fun v => if Qeq_bool v (inject_Z first_key) then label0 else label1) s.

(** What [understand_shap] needs in order to return: the predictions fit
    the frame, the explainer accepts the test frame, the sensitive column is
    there, the label map has the keys 0 and 1, the chart of the two cohorts
    is drawn, the explainer accepts the misclassified cohort and its chart is
    drawn, the cohort is not empty, the explanation has a row for the record
    that [randrange] picks, and the waterfall of that row is drawn. *)
Definition attribution_ready {clf : Classifier} {expl : Explainer}
    {plots : ShapPlots} {random : RandomModule}
    (labels : dict Z string) (sensitive : string) (group target : Z)
    (dX : DataFrame) (ys : Series) (rs : random_state) : Prop :=
  exists d2 sX s first_key label0 label1 sv sv2 row,
    working_table dX ys (predict dX) = inr d2
    /\ explain dX = inr sv
    /\ df_get dX sensitive = inr sX
    /\ head (dict_keys labels) = Some first_key
    /\ dict_get labels 0%Z = Some label0
    /\ dict_get labels 1%Z = Some label1
    /\ plots_bar_cohorts sv (cohort_labels first_key label0 label1 sX) = None
    /\ df_get d2 sensitive = inr s
    /\ explain (cohort_table d2 s ys (predict dX) group target) = inr sv2
    /\ plots_bar sv2 = None
    /\ (0 < count_true (cohort_rows s ys (predict dX) group target))%nat
    /\ sv2 !! fst (randbelow (count_true (cohort_rows s ys (predict dX) group target))
                            rs)
       = Some row
    /\ plots_waterfall row = None.

(** Everything [understand_shap] does before it asks for a random number,
    as a function of the contents of the test frame [dX] and of the true
    labels [ys]: what is printed and shown, in order, and then either the
    exception of the first step that fails, or the explanation of the
    misclassified cohort together with the number of its records. *)
Definition attribution_prefix {clf : Classifier} {expl : Explainer}
    {plots : ShapPlots} {numpy : Numpy}
    (labels : dict Z string) (sensitive : string) (group target : Z)
    (dX : DataFrame) (ys : Series) : list event * result (explanation * nat) :=
  match working_table dX ys (predict dX) with
  | inl e => ([], inl e)
  | inr d2 =>
  match explain dX with
  | inl e => ([], inl e)
  | inr sv =>
  match df_get dX sensitive with
  | inl e => ([], inl e)
  | inr sX =>
  match list_getitem (dict_keys labels) 0 with
  | inl e => ([], inl e)
  | inr first_key =>
  match dict_getitem labels 0%Z with
  | inl e => ([], inl e)
  | inr label0 =>
  match dict_getitem labels 1%Z with
  | inl e => ([], inl e)
  | inr label1 =>
  match df_get d2 sensitive with
  | inl e => ([], inl e)
  | inr s =>
  let sens_glob_coh := cohort_labels first_key label0 label1 sX in
  let out1 := [PltSubplotsAdjust; Print [PStr "Model Importance Comparison"]] in
  match plots_bar_cohorts sv sens_glob_coh with
  | Some e => (out1, inl e)
  | None =>
  let out2 := out1 ++ [ShapBarCohorts sv sens_glob_coh; PltSubplot 1 2 2] in
  match explain (cohort_table d2 s ys (predict dX) group target) with
  | inl e => (out2, inl e)
  | inr sv2 =>
  match plots_bar sv2 with
  | Some e => (out2, inl e)
  | None =>
      (out2 ++
       [ShapBar sv2;
        Print [PStr "Affected Attribute Comparison"];
        Print [PStr "Average Comparison to True Class Members"];
        comparison_chart
          (spec_compare_to_true_class d2 s ys (predict dX) sensitive group target);
        Print [PStr "Average Comparison to All Members"];
        comparison_chart
          (spec_compare_to_all d2 s ys (predict dX) sensitive group target);
        Print [PStr "Random Affected Decision Process"]],
       inr (sv2, count_true (cohort_rows s ys (predict dX) group target)))
  end end end end end end end end end end.

(** The last step, for the record at position [k] of the cohort: the
    waterfall of its row of the explanation, unless the row is missing or
    the chart is refused. *)
Definition explain_record {plots : ShapPlots} (sv2 : explanation) (k : nat)
    : list event * option exn :=
  match list_getitem sv2 (Z.of_nat k) with
  | inl e => ([], Some e)
  | inr row =>
      match plots_waterfall row with
      | Some e => ([], Some e)
      | None => ([ShapWaterfall row], None)
      end
  end.

(** A complete run of [understand_shap] with the generator in state [rs]:
    the output, the state of the generator afterwards, and the exception
    that ends the run, if any.  An empty cohort makes the range of
    [randrange] empty. *)
Definition attribution_trace {clf : Classifier} {expl : Explainer}
    {plots : ShapPlots} {numpy : Numpy} {random : RandomModule}
    (labels : dict Z string) (sensitive : string) (group target : Z)
    (dX : DataFrame) (ys : Series) (rs : random_state)
    : list event * random_state * option exn :=
  match attribution_prefix labels sensitive group target dX ys with
  | (out, inl e) => (out, rs, Some e)
  | (out, inr (sv2, O)) => (out, rs, Some ValueError)
  | (out, inr (sv2, S n)) =>
      (out ++ fst (explain_record sv2 (fst (randbelow (S n) rs))),
       snd (randbelow (S n) rs),
       snd (explain_record sv2 (fst (randbelow (S n) rs))))
  end.

(** The outcome of a call that ends with the exception [e], if any. *)
Definition ended (e : option exn) : result unit :=
  match e with
  | Some e => inl e
  | None => inr tt
  end.

(** With what an empty cohort is refused: by the explainer, by the bar
    chart of its explanation, or, when both accept it, by [randrange]. *)
Definition empty_cohort_refusal {expl : Explainer} {plots : ShapPlots}
    (cohort : DataFrame) : exn :=
  match explain cohort with
  | inl e => e
  | inr sv2 =>
      match plots_bar sv2 with
      | Some e => e
      | None => ValueError
      end
  end.


(** * A demo audit *)

(** A small audit: eight records, the sensitive column [sex], two features.
    The heap holds the test features, the true labels, the predictions of the
    classifier and the sensitive column. *)
Definition demo_X : DataFrame :=
  mkDF 8 [("sex", [0; 0; 0; 0; 1; 1; 1; 1]);
          ("age", [30; 40; 50; 45; 20; 60; 35; 52]);
          ("score", [9 # 10; 1 # 10; 7 # 10; 8 # 10;
                     2 # 10; 8 # 10; 3 # 10; 6 # 10])]%string.

Definition demo_y : Series := [1; 0; 0; 0; 1; 1; 0; 1].

Definition demo_heap : list obj :=
  [ODataFrame demo_X; OArray demo_y; OArray (predict demo_X);
   OArray [0; 0; 0; 0; 1; 1; 1; 1]].

Definition demo_world : world :=
  mkWorld demo_heap (mkRandom (fun n => n) 0) [].

Definition demo_self : FairDetect := mkFairDetect 0%nat 1%nat.

Definition demo_labels : dict Z string := [(0%Z, "F"); (1%Z, "M")]%string.

(** The same audit in another world: other objects come first in the heap,
    the random generator is in another state, something was printed. *)
Definition demo_world' : world :=
  mkWorld (OArray [7] :: OArray [] :: demo_heap)
          (mkRandom (fun n => 3 * n + 1)%nat 5)
          [Print [PStr "earlier output"]].

Definition demo_self' : FairDetect := mkFairDetect 2%nat 3%nat.

(** The audit with a label map that names group 0 only. *)
Definition partial_labels : dict Z string := [(0%Z, "F")]%string.

(** Two subgroups as [representation] leaves them; nobody in the second is
    predicted positive. *)
Definition zero_world : world :=
  mkWorld [ODataFrame (mkDF 2 [("sex", [0; 0]); ("p", [1; 0]); ("t", [1; 0])]%string);
           ODataFrame (mkDF 2 [("sex", [1; 1]); ("p", [0; 0]); ("t", [1; 0])]%string)]
          (mkRandom (fun n => n) 0) [].

Definition zero_sens_df : dict string loc := [("F", 0%nat); ("M", 1%nat)]%string.

(** The demo audit with another random generator. *)
Definition demo_world_other_rng : world :=
  mkWorld demo_heap (mkRandom (fun _ => 1%nat) 0) [].

(** The working table of the demo audit, as [understand_shap] sets it up. *)
Definition demo_table : DataFrame :=
  Eval vm_compute in
    match working_table demo_X demo_y (predict demo_X) with
    | inr d => d
    | inl _ => demo_X
    end.

Definition demo_table_world : world :=
  mkWorld (demo_heap ++ [ODataFrame demo_table]) (mkRandom (fun n => n) 0) [].

(** A set that iterates in increasing order. *)
#[local] Instance double_set : PySet := {| set_iter := unique_sorted |}.

(** A label map with a key that is not in the data. *)
Definition stray_labels : dict Z string := [(0%Z, "F"); (2%Z, "X")]%string.

(** A metric frame with one tested rate among other columns. *)
Definition demo_metric_frame : MetricFrame :=
  mkMetricFrame [0; 1]
    [("accuracy_score", [Fin (3 # 4); Fin (1 # 2)]);
     ("false_positive_rate_m", [Fin (1 # 4); Fin (1 # 2)]);
     ("brier", [Fin (1 # 10); Fin (2 # 10)])]%string.

(** The user's answers to the prompts. *)
Definition demo_console : console :=
  mkConsole ["F"; "M"; "left over"]%string [].

Definition short_console : console := mkConsole ["F"]%string [].

Section Properties.
Context {stats : Statistics} {clf : Classifier} {expl : Explainer}
  {metrics : FairnessMetrics} {numpy : Numpy} {plots : ShapPlots}
  {random : RandomModule}.

(** * Rounding *)

Lemma round_half_even_err q : Qabs (inject_Z (round_half_even q) - q) <= 1 # 2.
Proof.
  unfold round_half_even.
  pose proof (Qfloor_le q) as Hlo. pose proof (Qlt_floor q) as Hhi.
  rewrite inject_Z_plus in Hhi. change (inject_Z 1) with 1 in Hhi.
  apply Qabs_Qle_condition.
  destruct (Qcompare (q - inject_Z (Qfloor q)) (1 # 2)) eqn:Hc.
  - apply Qeq_alt in Hc.
    destruct (Z.even (Qfloor q));
      [|rewrite inject_Z_plus; change (inject_Z 1) with 1]; lra.
  - apply Qlt_alt in Hc. lra.
  - apply Qgt_alt in Hc. rewrite inject_Z_plus. change (inject_Z 1) with 1. lra.
Qed.

Lemma pow2_pos z : 0 < pow2 z.
Proof. apply Qpower_0_lt. reflexivity. Qed.

Lemma pow2_plus a b : pow2 (a + b) == pow2 a * pow2 b.
Proof. apply Qpower_plus. discriminate. Qed.

Lemma pow2_Z (n : Z) : (0 <= n)%Z -> pow2 n == inject_Z (2 ^ n).
Proof. intros Hn. unfold pow2. rewrite Zpower_Qpower by assumption. reflexivity. Qed.

Lemma pow2_half z : pow2 (z - 1) == pow2 z * (1 # 2).
Proof. unfold Z.sub. rewrite pow2_plus. reflexivity. Qed.

Lemma ilog2_lower q : 0 < q -> pow2 (ilog2 q) <= q.
Proof.
  intros Hq. unfold ilog2.
  destruct (Qle_bool _ q) eqn:Hb.
  - now apply Qle_bool_iff in Hb.
  - clear Hb. destruct q as [n d]. simpl.
    assert (Hn : (0 < n)%Z) by (unfold Qlt in Hq; simpl in Hq; lia).
    pose proof (Z.log2_spec n Hn) as [Hn1 _].
    pose proof (Z.log2_spec (Zpos d) (Pos2Z.is_pos d)) as [_ Hd2].
    pose proof (Z.log2_nonneg n) as Ha.
    pose proof (Z.log2_nonneg (Zpos d)) as Hb.
    set (a := Z.log2 n) in *. set (b := Z.log2 (Zpos d)) in *.
    assert (E : pow2 (a - b - 1) * pow2 (b + 1) == pow2 a).
    { rewrite <- pow2_plus. replace (a - b - 1 + (b + 1))%Z with a by lia.
      reflexivity. }
    rewrite (pow2_Z a) in E by lia. rewrite (pow2_Z (b + 1)) in E by lia.
    replace (Z.succ b) with (b + 1)%Z in Hd2 by lia.
    pose proof (pow2_pos (a - b - 1)) as Hp.
    set (x := pow2 (a - b - 1)) in *.
    assert (Hd2q : inject_Z (Zpos d) < inject_Z (2 ^ (b + 1)))
      by (rewrite <- Zlt_Qlt; exact Hd2).
    assert (Hn1q : inject_Z (2 ^ a) <= inject_Z n)
      by (rewrite <- Zle_Qle; exact Hn1).
    assert (Hx : x * inject_Z (Zpos d) <= inject_Z n).
    { rewrite <- E in Hn1q.
      apply Qle_trans with (x * inject_Z (2 ^ (b + 1))); [|exact Hn1q].
      apply Qmult_le_l; [exact Hp|]. apply Qlt_le_weak. exact Hd2q. }
    rewrite (Qmake_Qdiv n d). apply Qle_shift_div_l; [reflexivity | exact Hx].
Qed.

Lemma round_pos_err q : 0 < q -> Qabs (round_pos q - q) <= eps64 * q.
Proof.
  intros Hq. unfold round_pos, eps64. rewrite Qred_correct.
  set (e := ilog2 q).
  pose proof (round_half_even_err (q * pow2 (52 - e))) as Hr.
  set (r := inject_Z (round_half_even (q * pow2 (52 - e)))) in *.
  pose proof (ilog2_lower q Hq) as He. fold e in He.
  assert (E1 : pow2 (52 - e) * pow2 (e - 52) == 1).
  { rewrite <- pow2_plus. replace (52 - e + (e - 52))%Z with 0%Z by lia.
    reflexivity. }
  assert (E2 : pow2 (-53) * pow2 e == (1 # 2) * pow2 (e - 52)).
  { rewrite <- pow2_plus. rewrite Qmult_comm, <- pow2_half.
    replace (-53 + e)%Z with (e - 52 - 1)%Z by lia. reflexivity. }
  pose proof (pow2_pos (e - 52)) as Hp.
  setoid_replace (r * pow2 (e - 52) - q)
    with ((r - q * pow2 (52 - e)) * pow2 (e - 52)) using relation Qeq.
  2:{ rewrite <- (Qmult_1_r q) at 1. rewrite <- E1. ring. }
  rewrite Qabs_Qmult.
  rewrite (Qabs_pos (pow2 (e - 52))) by (apply Qlt_le_weak; exact Hp).
  apply Qle_trans with ((1 # 2) * pow2 (e - 52)).
  - apply Qmult_le_compat_r; [exact Hr | apply Qlt_le_weak; exact Hp].
  - rewrite <- E2. apply Qmult_le_l; [apply pow2_pos | exact He].
Qed.

(** Rounding to binary64 has relative error at most [2^-53]. *)
Lemma round64_err q : Qabs (round64 q - q) <= eps64 * Qabs q.
Proof.
  unfold round64. destruct (Qcompare q 0) eqn:Hc.
  - apply Qeq_alt in Hc. rewrite Hc. vm_compute. discriminate.
  - apply Qlt_alt in Hc.
    assert (Hq : 0 < - q) by lra.
    pose proof (round_pos_err (- q) Hq) as Hr.
    rewrite (Qabs_neg q) by lra.
    setoid_replace (- round_pos (- q) - q) with (- (round_pos (- q) - - q))
      using relation Qeq by ring.
    rewrite Qabs_opp. exact Hr.
  - apply Qgt_alt in Hc. rewrite (Qabs_pos q) by lra. apply round_pos_err. exact Hc.
Qed.

(** * Order on floats *)

Lemma fle_trans x y z : fle x y = true -> fle y z = true -> fle x z = true.
Proof.
  destruct x, y, z; simpl; try congruence.
  rewrite !Qle_bool_iff. apply Qle_trans.
Qed.

Lemma flt_not_fle x y : flt x y = true -> fle y x = false.
Proof.
  unfold flt. intros Hxy. apply andb_prop in Hxy as [_ Hxy].
  now apply negb_true_iff in Hxy.
Qed.

Lemma significance_levels_ordered :
  fle sl_0_01 sl_0_05 = true /\ fle sl_0_05 sl_0_1 = true.
Proof. split; vm_compute; reflexivity. Qed.

Lemma in_tier_upper p t u :
  match t with
  | Reject99 => u = sl_0_01
  | Reject95 => u = sl_0_05
  | Reject90 => u = sl_0_1
  | AcceptH0 => False
  end ->
  in_tier p t -> fle p u = true.
Proof. destruct t; simpl; intros Hu Ht; subst; tauto. Qed.

Lemma in_tier_lower p t l :
  match t with
  | Reject99 => False
  | Reject95 => l = sl_0_01
  | Reject90 => l = sl_0_05
  | AcceptH0 => l = sl_0_1
  end ->
  in_tier p t -> fle p l = false.
Proof.
  destruct t; simpl; intros Hl Ht; subst; try tauto.
  - apply flt_not_fle; tauto.
  - apply flt_not_fle; tauto.
  - apply flt_not_fle; tauto.
Qed.

(** The branch the three reports take is the one the policy names. *)
Lemma verdict_branches (key sensitive : string) (p : float) (t : tier) :
  in_tier p t ->
  ability_verdict key p = ability_line t key p
  /\ representation_verdict sensitive p = representation_line t sensitive p
  /\ predictive_verdict p = predictive_line t p.
Proof.
  destruct significance_levels_ordered as [H15 H510].
  intros Ht. unfold ability_verdict, representation_verdict, predictive_verdict.
  destruct t; simpl in Ht.
  - rewrite Ht. auto.
  - destruct Ht as [Hlo Hhi]. rewrite (flt_not_fle _ _ Hlo), Hhi. auto.
  - destruct Ht as [Hlo Hhi].
    assert (H1 : fle p sl_0_01 = false).
    { destruct (fle p sl_0_01) eqn:E; [|reflexivity].
      rewrite <- (flt_not_fle _ _ Hlo). symmetry. eapply fle_trans; eassumption. }
    rewrite H1, (flt_not_fle _ _ Hlo), Hhi. auto.
  - assert (H10 : fle p sl_0_1 = false) by (now apply flt_not_fle).
    assert (H5 : fle p sl_0_05 = false).
    { destruct (fle p sl_0_05) eqn:E; [|reflexivity].
      rewrite <- H10. symmetry. eapply fle_trans; eassumption. }
    assert (H1 : fle p sl_0_01 = false).
    { destruct (fle p sl_0_01) eqn:E; [|reflexivity].
      rewrite <- H5. symmetry. eapply fle_trans; eassumption. }
    rewrite H1, H5, H10. auto.
Qed.

Lemma verdict_monotone (p1 p2 : float) (t1 t2 : tier) :
  fle p1 p2 = true -> in_tier p1 t1 -> in_tier p2 t2 ->
  (strength t2 <= strength t1)%nat.
Proof.
  destruct significance_levels_ordered as [H15 H510].
  pose proof (fle_trans _ _ _ H15 H510) as H110.
  intros Hle H1 H2.
  assert (Hc : forall u l, fle p2 u = true -> fle u l = true ->
                        fle p1 l = false -> False).
  { intros u l Hu Hul Hl. rewrite (fle_trans _ _ _ Hle (fle_trans _ _ _ Hu Hul)) in Hl.
    discriminate. }
  assert (Hrefl : forall x, x = sl_0_01 \/ x = sl_0_05 \/ x = sl_0_1 -> fle x x = true).
  { intros x [-> | [-> | ->]]; vm_compute; reflexivity. }
  destruct t1, t2; simpl strength; try lia; exfalso.
  all: first
    [ eapply (Hc sl_0_01 sl_0_01); [eapply in_tier_upper; [|eassumption]; reflexivity | auto | eapply in_tier_lower; [|eassumption]; reflexivity]
    | eapply (Hc sl_0_01 sl_0_05); [eapply in_tier_upper; [|eassumption]; reflexivity | auto | eapply in_tier_lower; [|eassumption]; reflexivity]
    | eapply (Hc sl_0_01 sl_0_1); [eapply in_tier_upper; [|eassumption]; reflexivity | auto | eapply in_tier_lower; [|eassumption]; reflexivity]
    | eapply (Hc sl_0_05 sl_0_05); [eapply in_tier_upper; [|eassumption]; reflexivity | auto | eapply in_tier_lower; [|eassumption]; reflexivity]
    | eapply (Hc sl_0_05 sl_0_1); [eapply in_tier_upper; [|eassumption]; reflexivity | auto | eapply in_tier_lower; [|eassumption]; reflexivity]
    | eapply (Hc sl_0_1 sl_0_1); [eapply in_tier_upper; [|eassumption]; reflexivity | auto | eapply in_tier_lower; [|eassumption]; reflexivity] ].
Qed.

Lemma in_tier_total (p : float) : p <> NaN -> exists t, in_tier p t.
Proof.
  intros Hp.
  assert (Htot : forall q, fle p (flit q) = false -> flt (flit q) p = true).
  { intros q Hq. unfold flt. rewrite Hq. rewrite andb_true_r. revert Hq.
    unfold flit. destruct p; simpl; try congruence.
    intros Hq. apply Qle_bool_iff. apply Qlt_le_weak. apply Qnot_le_lt.
    intros Hle. apply Qle_bool_iff in Hle. congruence. }
  destruct (fle p sl_0_01) eqn:H1; [exists Reject99; exact H1|].
  destruct (fle p sl_0_05) eqn:H5.
  { exists Reject95. split; [apply Htot; exact H1 | exact H5]. }
  destruct (fle p sl_0_1) eqn:H10.
  { exists Reject90. split; [apply Htot; exact H5 | exact H10]. }
  exists AcceptH0. apply Htot. exact H10.
Qed.

(** C2.  The three verdict reports (rate disparities in [ability_metrics],
    representation and precision in [identify_bias]) print the line of the
    99% tier when p <= 0.01, of the 95% tier when 0.01 < p <= 0.05, of the
    90% tier when 0.05 < p <= 0.10 and accept the null when p > 0.10; every
    p-value that is a number falls in one of the tiers; and the tier is
    monotone: a smaller p-value never gets a weaker tier. *)
Theorem verdict_policy_four_tiers_monotone :
  (forall (key sensitive : string) (p : float) (t : tier),
     in_tier p t ->
     ability_verdict key p = ability_line t key p
     /\ representation_verdict sensitive p = representation_line t sensitive p
     /\ predictive_verdict p = predictive_line t p)
  /\ (forall p : float, p <> NaN -> exists t, in_tier p t)
  /\ (forall (p1 p2 : float) (t1 t2 : tier),
        fle p1 p2 = true -> in_tier p1 t1 -> in_tier p2 t2 ->
        (strength t2 <= strength t1)%nat).
Proof.
  split; [|split].
  - intros key sensitive p t. apply verdict_branches.
  - exact in_tier_total.
  - exact verdict_monotone.
Qed.

(** The four p-values the specification lists. *)
Example verdict_examples :
  in_tier (flit (5 # 1000)) Reject99 /\ in_tier (flit (3 # 100)) Reject95
  /\ in_tier (flit (8 # 100)) Reject90 /\ in_tier (flit (1 # 2)) AcceptH0.
Proof. vm_compute. auto. Qed.

(** A NaN p-value, which compares false with every level, is accepted. *)
Example verdict_nan :
  predictive_verdict NaN = predictive_line AcceptH0 NaN.
Proof. reflexivity. Qed.

(** * The rate disparity test *)

Lemma for_each_emit {A} (l : list A) (f : A -> event) (w : world) :
  for_each l tt (fun _ a => emit (f a)) w
  = (inr tt, mkWorld (heap w) (rng w) (stdout w ++ map f l)).
Proof.
  revert w. induction l as [|a l IH]; intros w; simpl.
  - unfold ret. rewrite app_nil_r. destruct w; reflexivity.
  - unfold bind at 1. unfold emit at 1. rewrite IH. simpl.
    rewrite <- app_assoc. reflexivity.
Qed.

Lemma float_of_Z_100 : float_of_Z 100 = Fin 100.
Proof. vm_compute. reflexivity. Qed.

(** C1.  On the metric frame [ability] returns, which holds the six metrics,
    [ability_metrics] computes exactly four p-values, one for each of TPR,
    FPR, TNR and FNR: the p-value of the chi-square goodness-of-fit test, with
    no expected frequencies given (all subgroups equally likely), of the
    vector of per-subgroup values, each multiplied by the float 100.  The
    selection rate and the accuracy are in the frame and are not tested.  One
    verdict line is printed per p-value. *)
Theorem ability_metrics_tests_four_rates (self : FairDetect)
    (predictions sen_feat_test : loc) (w w' : world) (mf : MetricFrame) :
  ability self predictions sen_feat_test w = (inr mf, w') ->
  exists tpr fpr tnr fnr sel acc : list float,
    by_group mf =
      [("true_positive_rate_m", tpr); ("false_positive_rate_m", fpr);
       ("true_negative_rate_m", tnr); ("false_negative_rate_m", fnr);
       ("selection_rate", sel); ("accuracy_score", acc)]%string
    /\ ability_p_values (by_group mf) =
      [("true_positive_rate_m",
        snd (chisquare (map (fun x => fmul x (Fin 100)) tpr) None));
       ("false_positive_rate_m",
        snd (chisquare (map (fun x => fmul x (Fin 100)) fpr) None));
       ("true_negative_rate_m",
        snd (chisquare (map (fun x => fmul x (Fin 100)) tnr) None));
       ("false_negative_rate_m",
        snd (chisquare (map (fun x => fmul x (Fin 100)) fnr) None))]%string
    /\ ability_metrics mf w' =
      (inr tt,
       mkWorld (heap w') (rng w')
         (stdout w' ++
          map (fun kv => ability_verdict (fst kv) (snd kv))
              (ability_p_values (by_group mf)))).
Proof.
  unfold ability. intros Hrun.
  unfold bind in Hrun.
  destruct (read_array sen_feat_test w) as [[e|sens] w1]; [discriminate|].
  destruct (read_array (y_test self) w1) as [[e|t] w2]; [discriminate|].
  destruct (read_array predictions w2) as [[e|p] w3]; [discriminate|].
  unfold lift, metric_frame_of in Hrun.
  destruct (decide _) as [Hlen|Hlen]; [|discriminate].
  injection Hrun as <- <-. simpl by_group.
  eexists _, _, _, _, _, _. split; [reflexivity|]. split.
  - cbn. unfold times_100. rewrite float_of_Z_100. reflexivity.
  - unfold ability_metrics. apply for_each_emit.
Qed.


(** * Row-normalised cross tabulation *)

Lemma eps64_value : eps64 == 1 # 9007199254740992.
Proof. reflexivity. Qed.

Lemma round64_bounds (q : Q) :
  0 <= q -> (1 - eps64) * q <= round64 q <= (1 + eps64) * q.
Proof.
  intros Hq. pose proof (round64_err q) as He.
  rewrite (Qabs_pos q) in He by exact Hq.
  apply Qabs_Qle_condition in He. rewrite eps64_value in *. lra.
Qed.

(** Dividing two integers as floats, [a >= 0] and [b > 0], gives a finite
    number within a relative error of [4 * 2^-53] of the quotient. *)
Lemma int_truediv_bounds (a b : Z) :
  (0 <= a)%Z -> (0 < b)%Z ->
  exists z : Q,
    int_truediv a b = Fin z
    /\ (1 - 4 * eps64) * inject_Z a <= z * inject_Z b
    /\ z * inject_Z b <= (1 + 4 * eps64) * inject_Z a.
Proof.
  intros Ha Hb.
  assert (HA : 0 <= inject_Z a) by (change 0 with (inject_Z 0); now rewrite <- Zle_Qle).
  assert (HB : 0 < inject_Z b) by (change 0 with (inject_Z 0); now rewrite <- Zlt_Qlt).
  set (A := inject_Z a) in *. set (B := inject_Z b) in *.
  pose proof (round64_bounds A HA) as [Hx1 Hx2].
  pose proof (round64_bounds B (Qlt_le_weak _ _ HB)) as [Hy1 Hy2].
  unfold int_truediv, float_of_Z, fdiv. fold A B.
  set (x := round64 A) in *. set (y := round64 B) in *.
  rewrite eps64_value in *.
  assert (Hy : 0 < y) by lra.
  assert (Hx : 0 <= x) by lra.
  unfold Qsign. rewrite (proj1 (Qgt_alt y 0) Hy).
  set (q := x / y).
  assert (Hqy : q * y == x).
  { unfold q. field. lra. }
  assert (Hq : 0 <= q).
  { unfold q. apply Qle_shift_div_l; [exact Hy | lra]. }
  pose proof (round64_bounds q Hq) as [Hz1 Hz2]. rewrite eps64_value in *.
  exists (round64 q). split; [reflexivity|].
  set (z := round64 q) in *.
  assert (F1 : q * ((1 - (1 # 9007199254740992)) * B) <= q * y).
  { rewrite !(Qmult_comm q). apply Qmult_le_compat_r; assumption. }
  assert (F2 : q * y <= q * ((1 + (1 # 9007199254740992)) * B)).
  { rewrite !(Qmult_comm q). apply Qmult_le_compat_r; assumption. }
  assert (F3 : (1 - (1 # 9007199254740992)) * q * B <= z * B).
  { apply Qmult_le_compat_r; [assumption | lra]. }
  assert (F4 : z * B <= (1 + (1 # 9007199254740992)) * q * B).
  { apply Qmult_le_compat_r; [assumption | lra]. }
  rewrite Hqy in F1, F2.
  set (t := q * B) in *.
  assert (E1 : q * ((1 - (1 # 9007199254740992)) * B) == (1 - (1 # 9007199254740992)) * t)
    by (unfold t; ring).
  assert (E2 : q * ((1 + (1 # 9007199254740992)) * B) == (1 + (1 # 9007199254740992)) * t)
    by (unfold t; ring).
  assert (E3 : (1 - (1 # 9007199254740992)) * q * B == (1 - (1 # 9007199254740992)) * t)
    by (unfold t; ring).
  assert (E4 : (1 + (1 # 9007199254740992)) * q * B == (1 + (1 # 9007199254740992)) * t)
    by (unfold t; ring).
  rewrite E1 in F1. rewrite E2 in F2. rewrite E3 in F3. rewrite E4 in F4.
  set (zb := z * B) in *.
  split; rewrite eps64_value; lra.
Qed.

Lemma insert_uniq_in (x v : Q) (l : list Q) :
  In v (insert_uniq x l) -> v = x \/ In v l.
Proof.
  induction l as [|y l IH]; simpl.
  - intros [<-|[]]. now left.
  - destruct (Qcompare x y); simpl.
    + intros Hv. now right.
    + intros [<-|Hv]; [now left | now right].
    + intros [<-|Hv]; [right; now left|].
      destruct (IH Hv) as [->|Hl]; [now left | right; now right].
Qed.

Lemma unique_sorted_in (v : Q) (l : list Q) :
  In v (unique_sorted l) -> In v l.
Proof.
  induction l as [|x l IH]; simpl; [tauto|].
  intros Hv. destruct (insert_uniq_in _ _ _ Hv) as [->|Hl]; [now left|].
  right. now apply IH.
Qed.

Lemma insert_uniq_cover (x y : Q) (l : list Q) :
  y == x \/ (exists u, In u l /\ y == u) ->
  exists u, In u (insert_uniq x l) /\ y == u.
Proof.
  induction l as [|z l IH]; simpl.
  - intros [Hy|[u [[] _]]]. exists x. split; [now left | exact Hy].
  - intros Hy. destruct (Qcompare x z) eqn:Hc.
    + apply Qeq_alt in Hc. destruct Hy as [Hy|[u [Hu Hyu]]].
      * exists z. split; [now left | now rewrite Hy].
      * exists u. split; assumption.
    + destruct Hy as [Hy|[u [Hu Hyu]]].
      * exists x. split; [now left | exact Hy].
      * exists u. split; [now right | exact Hyu].
    + destruct Hy as [Hy|[u [[<-|Hu] Hyu]]].
      * destruct IH as [u [Hu Hyu]]; [now left|]. exists u. split; [now right | exact Hyu].
      * exists z. split; [now left | exact Hyu].
      * destruct IH as [u' [Hu' Hyu']]; [right; now exists u|].
        exists u'. split; [now right | exact Hyu'].
Qed.

Lemma unique_sorted_cover (y : Q) (l : list Q) :
  In y l -> exists u, In u (unique_sorted l) /\ y == u.
Proof.
  induction l as [|x l IH]; simpl; [tauto|].
  intros [<-|Hy]; apply insert_uniq_cover.
  - left. reflexivity.
  - right. now apply IH.
Qed.

Lemma count_pairs_nonneg ps v u : (0 <= count_pairs ps v u)%Z.
Proof. unfold count_pairs. lia. Qed.


Lemma Zsum_nonneg (row : list Z) :
  Forall (fun n => (0 <= n)%Z) row -> (0 <= Zsum row)%Z.
Proof. induction 1; simpl; lia. Qed.


Lemma normalized_row_bounds (N : Z) (row : list Z) :
  (0 < N)%Z -> Forall (fun n => (0 <= n)%Z) row ->
  exists qs : list Q,
    map (fun n => fillna0 (int_truediv n N)) row = map Fin qs
    /\ (1 - 4 * eps64) * inject_Z (Zsum row) <= Qsum qs * inject_Z N
    /\ Qsum qs * inject_Z N <= (1 + 4 * eps64) * inject_Z (Zsum row).
Proof.
  intros HN. induction 1 as [|n row Hn Hrow IH].
  - exists []. simpl. split; [reflexivity|]. rewrite eps64_value.
    change (inject_Z 0) with 0. lra.
  - destruct IH as [qs [Hqs [Hlo Hhi]]].
    destruct (int_truediv_bounds n N Hn HN) as [z [Hz [Hzlo Hzhi]]].
    exists (z :: qs). simpl. rewrite Hz, Hqs. split; [reflexivity|].
    rewrite inject_Z_plus. rewrite eps64_value in *.
    set (S := inject_Z (Zsum row)) in *. set (a := inject_Z n) in *.
    assert (E : (z + Qsum qs) * inject_Z N == z * inject_Z N + Qsum qs * inject_Z N) by ring.
    rewrite E. set (u := z * inject_Z N) in *. set (s := Qsum qs * inject_Z N) in *.
    split; lra.
Qed.

Lemma normalized_row_sums_to_one (row : list Z) :
  Forall (fun n => (0 <= n)%Z) row -> (0 < Zsum row)%Z ->
  exists qs : list Q,
    map (fun n => fillna0 (int_truediv n (Zsum row))) row = map Fin qs
    /\ Qabs (Qsum qs - 1) <= tolerance.
Proof.
  intros Hrow Hpos.
  destruct (normalized_row_bounds (Zsum row) row Hpos Hrow) as [qs [Hqs [Hlo Hhi]]].
  exists qs. split; [exact Hqs|].
  assert (HN : 0 < inject_Z (Zsum row))
    by (change 0 with (inject_Z 0); now rewrite <- Zlt_Qlt).
  set (N := inject_Z (Zsum row)) in *. rewrite eps64_value in *.
  assert (H1 : (Qsum qs - 1) * N <= (4 # 9007199254740992) * N) by lra.
  assert (H2 : - (4 # 9007199254740992) * N <= (Qsum qs - 1) * N) by lra.
  apply Qmult_le_r in H1; [|exact HN]. apply Qmult_le_r in H2; [|exact HN].
  apply Qabs_Qle_condition. unfold tolerance. lra.
Qed.

(** * Rules for [wp] *)

Lemma wp_run {A} (c : M A) Q w r w' : wp c Q w -> c w = (r, w') -> Q r w'.
Proof. unfold wp. intros HQ Hrun. now rewrite Hrun in HQ. Qed.

Lemma wp_conseq {A} (c : M A) (Q Q' : result A -> world -> Prop) w :
  wp c Q w -> (forall r w', Q r w' -> Q' r w') -> wp c Q' w.
Proof. unfold wp. auto. Qed.

Lemma wp_ret {A} (a : A) Q w : Q (inr a) w -> wp (ret a) Q w.
Proof. exact id. Qed.

Lemma wp_lift {A} (r : result A) Q w : Q r w -> wp (lift r) Q w.
Proof. exact id. Qed.

Lemma wp_bind {A B} (c : M A) (k : A -> M B) Q w :
  wp c (fun r w' => match r with
                    | inl e => Q (inl e) w'
                    | inr a => wp (k a) Q w'
                    end) w ->
  wp (bind c k) Q w.
Proof. unfold wp, bind. destruct (c w) as [[e|a] w']; exact id. Qed.

Lemma wp_read_frame l Q w :
  match heap w !! l with
  | Some (ODataFrame d) => Q (inr d) w
  | _ => Q (inl TypeError) w
  end ->
  wp (read_frame l) Q w.
Proof. unfold wp, read_frame. destruct (heap w !! l) as [[d|s]|]; exact id. Qed.

Lemma wp_read_array l Q w :
  match heap w !! l with
  | Some (OArray s) => Q (inr s) w
  | _ => Q (inl TypeError) w
  end ->
  wp (read_array l) Q w.
Proof. unfold wp, read_array. destruct (heap w !! l) as [[d|s]|]; exact id. Qed.

Lemma wp_alloc o Q w :
  (forall w', heap w' = heap w ++ [o] -> rng w' = rng w ->
              stdout w' = stdout w -> Q (inr (length (heap w))) w') ->
  wp (alloc o) Q w.
Proof. unfold wp, alloc. intros HQ. now apply HQ. Qed.

Lemma wp_write_frame l d Q w :
  (forall w', heap w' = <[l := ODataFrame d]> (heap w) -> rng w' = rng w ->
              stdout w' = stdout w -> Q (inr tt) w') ->
  wp (write_frame l d) Q w.
Proof. unfold wp, write_frame. intros HQ. now apply HQ. Qed.

Lemma wp_emit e Q w :
  (forall w', heap w' = heap w -> rng w' = rng w ->
              stdout w' = stdout w ++ [e] -> Q (inr tt) w') ->
  wp (emit e) Q w.
Proof. unfold wp, emit. intros HQ. now apply HQ. Qed.

Lemma wp_shap_plot refusal chart Q w :
  match refusal with
  | Some e => Q (inl e) w
  | None =>
      forall w', heap w' = heap w -> rng w' = rng w ->
                 stdout w' = stdout w ++ [chart] -> Q (inr tt) w'
  end ->
  wp (shap_plot refusal chart) Q w.
Proof.
  unfold shap_plot. destruct refusal as [e|]; [exact id | apply wp_emit].
Qed.

(** Derived rules for the data-frame operations on a location known to hold
    a frame. *)
Lemma wp_df_getitem l c d Q w :
  heap w !! l = Some (ODataFrame d) ->
  Q (df_get d c) w ->
  wp (df_getitem l c) Q w.
Proof.
  intros Hl HQ. unfold df_getitem. apply wp_bind, wp_read_frame. rewrite Hl.
  now apply wp_lift.
Qed.

Lemma wp_df_select l mask d Q w :
  heap w !! l = Some (ODataFrame d) ->
  (forall w', heap w' = heap w ++ [ODataFrame (df_filter d mask)] ->
              rng w' = rng w -> stdout w' = stdout w ->
              Q (inr (length (heap w))) w') ->
  wp (df_select l mask) Q w.
Proof.
  intros Hl HQ. unfold df_select. apply wp_bind, wp_read_frame. rewrite Hl.
  now apply wp_alloc.
Qed.

Lemma wp_df_copy l d Q w :
  heap w !! l = Some (ODataFrame d) ->
  (forall w', heap w' = heap w ++ [ODataFrame d] ->
              rng w' = rng w -> stdout w' = stdout w ->
              Q (inr (length (heap w))) w') ->
  wp (df_copy l) Q w.
Proof.
  intros Hl HQ. unfold df_copy. apply wp_bind, wp_read_frame. rewrite Hl.
  now apply wp_alloc.
Qed.

Lemma wp_df_setitem l c v d Q w :
  heap w !! l = Some (ODataFrame d) ->
  match df_set d c v with
  | inl e => Q (inl e) w
  | inr d' =>
      forall w', heap w' = <[l := ODataFrame d']> (heap w) -> rng w' = rng w ->
                 stdout w' = stdout w -> Q (inr tt) w'
  end ->
  wp (df_setitem l c v) Q w.
Proof.
  intros Hl HQ. unfold df_setitem. apply wp_bind, wp_read_frame. rewrite Hl.
  apply wp_bind, wp_lift. destruct (df_set d c v) as [e|d']; [exact HQ|].
  now apply wp_write_frame.
Qed.

(** A loop whose body succeeds and keeps an invariant succeeds and keeps it;
    the invariant sees the items already processed. *)
Lemma wp_for_each {A S} (l : list A) (body : S -> A -> M S)
    (I : list A -> S -> world -> Prop) (s : S) (w : world) :
  I [] s w ->
  (forall done a s w, I done s w -> In a l ->
     wp (body s a) (fun r w' => exists s', r = inr s' /\ I (done ++ [a]) s' w') w) ->
  wp (for_each l s body) (fun r w' => exists s', r = inr s' /\ I l s' w') w.
Proof.
  intros HI Hbody.
  enough (Hgen : forall done, I done s w ->
            wp (for_each l s body)
               (fun r w' => exists s', r = inr s' /\ I (done ++ l) s' w') w)
    by (exact (Hgen [] HI)).
  clear HI. revert s w Hbody.
  induction l as [|a l IH]; intros s w Hbody done HI.
  - simpl. apply wp_ret. exists s. now rewrite app_nil_r.
  - simpl. apply wp_bind.
    eapply wp_conseq; [apply (Hbody done a s w HI); now left|].
    intros r w' [s' [-> HI']]. simpl.
    replace (done ++ a :: l) with ((done ++ [a]) ++ l)
      by (now rewrite <- app_assoc).
    apply IH; [|exact HI'].
    intros done' a' s'' w'' HI'' Ha'. apply Hbody; [exact HI''|now right].
Qed.

(** * Append-only computations *)

Lemma extends_refl w : extends w w.
Proof.
  repeat split; [exists [] | exists []]; now rewrite app_nil_r.
Qed.

Lemma extends_trans w1 w2 w3 : extends w1 w2 -> extends w2 w3 -> extends w1 w3.
Proof.
  intros [[x1 Hh1] [Hr1 [o1 Ho1]]] [[x2 Hh2] [Hr2 [o2 Ho2]]].
  repeat split.
  - exists (x1 ++ x2). now rewrite Hh2, Hh1, app_assoc.
  - congruence.
  - exists (o1 ++ o2). now rewrite Ho2, Ho1, app_assoc.
Qed.

Lemma extends_lookup w w' l o :
  extends w w' -> heap w !! l = Some o -> heap w' !! l = Some o.
Proof.
  intros [[ext Hh] _] Hl. rewrite Hh. now apply lookup_app_l_Some.
Qed.

Lemma append_only_ret {A} (a : A) : append_only (ret a).
Proof. intros w. apply extends_refl. Qed.

Lemma append_only_lift {A} (r : result A) : append_only (lift r).
Proof. intros w. apply extends_refl. Qed.

Lemma append_only_bind {A B} (c : M A) (k : A -> M B) :
  append_only c -> (forall a, append_only (k a)) -> append_only (bind c k).
Proof.
  intros Hc Hk w. unfold bind. specialize (Hc w).
  destruct (c w) as [[e|a] w']; simpl in *; [exact Hc|].
  eapply extends_trans; [exact Hc | apply Hk].
Qed.

Lemma append_only_read_frame l : append_only (read_frame l).
Proof.
  intros w. unfold read_frame.
  destruct (heap w !! l) as [[d|s]|]; apply extends_refl.
Qed.

Lemma append_only_read_array l : append_only (read_array l).
Proof.
  intros w. unfold read_array.
  destruct (heap w !! l) as [[d|s]|]; apply extends_refl.
Qed.

Lemma append_only_alloc o : append_only (alloc o).
Proof.
  intros w. repeat split; simpl; [now exists [o] | exists []; now rewrite app_nil_r].
Qed.

Lemma append_only_emit e : append_only (emit e).
Proof.
  intros w. repeat split; simpl; [exists []; now rewrite app_nil_r | now exists [e]].
Qed.

Lemma append_only_shap_plot refusal chart : append_only (shap_plot refusal chart).
Proof.
  unfold shap_plot. destruct refusal as [e|]; [|apply append_only_emit].
  intros w. apply extends_refl.
Qed.

Lemma append_only_for_each {A S} (l : list A) (s : S) (body : S -> A -> M S) :
  (forall s a, append_only (body s a)) -> append_only (for_each l s body).
Proof.
  intros Hbody. revert s. induction l as [|a l IH]; intros s; simpl.
  - apply append_only_ret.
  - apply append_only_bind; [apply Hbody | intros s'; apply IH].
Qed.

Create HintDb append_only.

#[local] Hint Resolve append_only_ret append_only_lift append_only_read_frame
  append_only_read_array append_only_alloc append_only_emit
  append_only_shap_plot : append_only.

Ltac append_only_tac :=
  repeat first
    [ apply append_only_bind
    | apply append_only_for_each
    | progress intros
    | match goal with |- append_only (let (_, _) := ?p in _) => destruct p end
    | solve [auto with append_only] ].

Lemma append_only_df_copy l : append_only (df_copy l).
Proof. unfold df_copy. append_only_tac. Qed.

Lemma append_only_df_getitem l c : append_only (df_getitem l c).
Proof. unfold df_getitem. append_only_tac. Qed.

Lemma append_only_df_select l m : append_only (df_select l m).
Proof. unfold df_select. append_only_tac. Qed.

#[local] Hint Resolve append_only_df_copy append_only_df_getitem
  append_only_df_select : append_only.

Lemma append_only_select_misclassified tab : append_only (select_misclassified tab).
Proof. unfold select_misclassified. append_only_tac. Qed.

Lemma append_only_select_correct tab : append_only (select_correct tab).
Proof. unfold select_correct. append_only_tac. Qed.

Lemma append_only_select_group_label tab s c g t :
  append_only (select_group_label tab s c g t).
Proof. unfold select_group_label. append_only_tac. Qed.

Lemma append_only_feature_means tab s : append_only (feature_means tab s).
Proof. unfold feature_means. append_only_tac. Qed.

Lemma append_only_feature_names tab s : append_only (feature_names tab s).
Proof. unfold feature_names. append_only_tac. Qed.

#[local] Hint Resolve append_only_select_misclassified append_only_select_correct
  append_only_select_group_label append_only_feature_means
  append_only_feature_names : append_only.

Lemma append_only_compare_to_true_class ft s g t :
  append_only (compare_to_true_class ft s g t).
Proof. unfold compare_to_true_class. append_only_tac. Qed.

Lemma append_only_compare_to_all ft s g t :
  append_only (compare_to_all ft s g t).
Proof. unfold compare_to_all. append_only_tac. Qed.

Lemma append_only_global_cohorts X s labels :
  append_only (global_cohorts X s labels).
Proof. unfold global_cohorts. append_only_tac. Qed.

#[local] Hint Resolve append_only_compare_to_true_class append_only_compare_to_all
  append_only_global_cohorts : append_only.

Lemma append_only_importance_comparison self ft sv labels s g t :
  append_only (importance_comparison self ft sv labels s g t).
Proof. unfold importance_comparison. append_only_tac. Qed.

(** * The working table of the attribution analysis *)

Lemma lookup_middle_heap (h0 : list obj) o parts :
  (h0 ++ o :: parts) !! length h0 = Some o.
Proof. now apply list_lookup_middle. Qed.

Lemma insert_middle_heap (h0 : list obj) o o' parts :
  <[length h0 := o']> (h0 ++ o :: parts) = h0 ++ o' :: parts.
Proof.
  rewrite insert_app_r_alt by lia. now rewrite Nat.sub_diag.
Qed.

Lemma lookup_old_heap (h0 : list obj) tail l o :
  h0 !! l = Some o -> (h0 ++ tail) !! l = Some o.
Proof. apply lookup_app_l_Some. Qed.

Lemma wp_relabel (self : FairDetect) (ft : loc) h0 dft parts dX ys Q w :
  heap w = h0 ++ ODataFrame dft :: parts ->
  ft = length h0 ->
  h0 !! X_test self = Some (ODataFrame dX) ->
  h0 !! y_test self = Some (OArray ys) ->
  match df_set dft "t" ys with
  | inl e => Q (inl e) w
  | inr d1 =>
      match df_set d1 "p" (predict dX) with
      | inl e =>
          forall w', heap w' = h0 ++ ODataFrame d1 :: parts ->
                     rng w' = rng w -> stdout w' = stdout w -> Q (inl e) w'
      | inr d2 =>
          forall w', heap w' = h0 ++ ODataFrame d2 :: parts ->
                     rng w' = rng w -> stdout w' = stdout w -> Q (inr tt) w'
      end
  end ->
  wp (relabel self ft) Q w.
Proof.
  intros Hh -> HX Hy HQ. unfold relabel.
  apply wp_bind, wp_read_array. rewrite Hh, (lookup_old_heap _ _ _ _ Hy).
  apply wp_bind. eapply wp_df_setitem.
  { rewrite Hh. apply lookup_middle_heap. }
  destruct (df_set dft "t" ys) as [e|d1]; [exact HQ|].
  intros w1 Hh1 Hr1 Ho1. rewrite Hh, insert_middle_heap in Hh1.
  apply wp_bind, wp_read_frame. rewrite Hh1, (lookup_old_heap _ _ _ _ HX).
  eapply wp_df_setitem.
  { rewrite Hh1. apply lookup_middle_heap. }
  destruct (df_set d1 "p" (predict dX)) as [e|d2].
  - apply HQ; congruence.
  - intros w2 Hh2 Hr2 Ho2. rewrite Hh1, insert_middle_heap in Hh2.
    apply HQ; congruence.
Qed.

Lemma lookup_snoc_array (h : list obj) d l s :
  (h ++ [ODataFrame d]) !! l = Some (OArray s) -> h !! l = Some (OArray s).
Proof.
  intros Hl. destruct (decide (l < length h)%nat) as [Hlt|Hge].
  - now rewrite lookup_app_l in Hl.
  - rewrite lookup_app_r in Hl by lia.
    destruct (l - length h)%nat; simpl in Hl; [congruence|].
    now rewrite lookup_nil in Hl.
Qed.

Lemma shap_setup_spec (self : FairDetect) (w : world) :
  wp (shap_setup self)
     (fun r w1 =>
        rng w1 = rng w /\ stdout w1 = stdout w /\
        match r with
        | inl _ => exists ext, heap w1 = heap w ++ ext
        | inr (ft, sv) =>
            exists dX ys d1 d2,
              heap w !! X_test self = Some (ODataFrame dX)
              /\ heap w !! y_test self = Some (OArray ys)
              /\ df_set dX "t" ys = inr d1
              /\ df_set d1 "p" (predict dX) = inr d2
              /\ explain dX = inr sv
              /\ ft = length (heap w)
              /\ heap w1 = heap w ++ [ODataFrame d2]
        end) w.
Proof.
  unfold shap_setup. apply wp_bind. unfold df_copy.
  apply wp_bind, wp_read_frame.
  destruct (heap w !! X_test self) as [[dX|s]|] eqn:HX;
    try (split; [reflexivity|split; [reflexivity|exists []; now rewrite app_nil_r]]).
  apply wp_alloc. intros w1 Hh1 Hr1 Ho1.
  apply wp_bind.
  destruct (heap w1 !! y_test self) as [[dy|ys]|] eqn:Hy.
  1,3: unfold relabel; apply wp_bind, wp_read_array; rewrite Hy;
    (split; [exact Hr1|split; [exact Ho1|now exists [ODataFrame dX]]]).
  rewrite Hh1 in Hy. apply lookup_snoc_array in Hy.
  eapply wp_relabel with (parts := []); [exact Hh1 | reflexivity | exact HX | exact Hy |].
  destruct (df_set dX "t" ys) as [e|d1] eqn:Hd1.
  { split; [exact Hr1|split; [exact Ho1|now exists [ODataFrame dX]]]. }
  destruct (df_set d1 "p" (predict dX)) as [e|d2] eqn:Hd2.
  { intros w2 Hh2 Hr2 Ho2. split; [congruence|split; [congruence|now exists [ODataFrame d1]]]. }
  intros w2 Hh2 Hr2 Ho2.
  apply wp_bind, wp_read_frame. rewrite Hh2, (lookup_old_heap _ _ _ _ HX).
  apply wp_bind, wp_lift.
  destruct (explain dX) as [e|sv] eqn:Hsv.
  { split; [congruence|split; [congruence|now exists [ODataFrame d2]]]. }
  apply wp_ret. split; [congruence|split; [congruence|]].
  exists dX, ys, d1, d2. repeat split; auto.
Qed.

(** * The global cohorts of the attribution analysis *)

Lemma list_getitem_0 {A} (l : list A) :
  list_getitem l 0 = match l with [] => inl IndexError | a :: _ => inr a end.
Proof. destruct l; reflexivity. Qed.

Lemma global_cohorts_run X sensitive (labels : dict Z string) w d :
  heap w !! X = Some (ODataFrame d) ->
  global_cohorts X sensitive labels w =
  (match df_get d sensitive with
   | inl e => inl e
   | inr s =>
       match list_getitem (dict_keys labels) 0 with
       | inl e => inl e
       | inr first_key =>
           match dict_getitem labels 0%Z with
           | inl e => inl e
           | inr label0 =>
               match dict_getitem labels 1%Z with
               | inl e => inl e
               | inr label1 =>
                   inr (map (fun v => if Qeq_bool v (inject_Z first_key)
                                      then label0 else label1) s)
               end
           end
       end
   end, w).
Proof.
  intros Hl. unfold global_cohorts, df_getitem, bind, read_frame, lift, ret.
  rewrite Hl. destruct (df_get d sensitive); [reflexivity|].
  destruct (list_getitem (dict_keys labels) 0); [reflexivity|].
  destruct (dict_getitem labels 0%Z); [reflexivity|].
  destruct (dict_getitem labels 1%Z); reflexivity.
Qed.

Lemma global_cohorts_lookup_error X sensitive (labels : dict Z string) w d :
  heap w !! X = Some (ODataFrame d) ->
  dict_get labels 0%Z = None \/ dict_get labels 1%Z = None ->
  exists e, global_cohorts X sensitive labels w = (inl e, w) /\ is_LookupError e.
Proof.
  intros Hl Hmiss. rewrite (global_cohorts_run _ _ _ _ _ Hl).
  unfold df_get, dict_getitem, is_LookupError.
  destruct (dict_get (df_cols d) sensitive); [|eauto].
  rewrite list_getitem_0. destruct (dict_keys labels); [eauto|].
  destruct (dict_get labels 0%Z); [|eauto].
  destruct (dict_get labels 1%Z); [|eauto].
  destruct Hmiss; discriminate.
Qed.

(** C10.  [understand_shap] indexes the label map at the literal keys 0 and
    1.  Once the working table is set up, a label map without the key 0 or
    without the key 1 makes the call fail with a lookup error ([KeyError] or
    [IndexError]).  When both keys are there, the population is split in two
    cohorts: a record whose sensitive value equals the first key of the map
    gets the label at key 0, every other record, whatever its value, gets the
    label at key 1. *)
Theorem understand_shap_indexes_labels_0_and_1 :
  (forall (self : FairDetect) (labels : dict Z string) (sensitive : string)
          (affected_group affected_target : Z) (w w1 : world) v,
     shap_setup self w = (inr v, w1) ->
     dict_get labels 0%Z = None \/ dict_get labels 1%Z = None ->
     exists e w',
       understand_shap self labels sensitive affected_group affected_target w
       = (inl e, w')
       /\ is_LookupError e)
  /\ (forall (X : loc) (labels : dict Z string) (sensitive : string)
             (w w' : world) (cohorts : list string),
        global_cohorts X sensitive labels w = (inr cohorts, w') ->
        exists d s first_key label0 label1,
          heap w !! X = Some (ODataFrame d)
          /\ df_get d sensitive = inr s
          /\ head (dict_keys labels) = Some first_key
          /\ dict_get labels 0%Z = Some label0
          /\ dict_get labels 1%Z = Some label1
          /\ cohorts = map (fun v => if Qeq_bool v (inject_Z first_key)
                                     then label0 else label1) s).
Proof.
  split.
  - intros self labels sensitive g tg w w1 [ft sv] Hsetup Hmiss.
    pose proof (wp_run _ _ _ _ _ (shap_setup_spec self w) Hsetup) as Hspec.
    simpl in Hspec.
    destruct Hspec as [_ [_ [dX [ys [d1 [d2 [HX [_ [_ [_ [_ [_ Hh1]]]]]]]]]]]].
    assert (HX1 : heap w1 !! X_test self = Some (ODataFrame dX))
      by (rewrite Hh1; now apply lookup_old_heap).
    destruct (global_cohorts_lookup_error _ sensitive labels w1 dX HX1 Hmiss)
      as [e [Hrun He]].
    exists e, w1. split; [|exact He].
    unfold understand_shap. unfold bind at 1. rewrite Hsetup.
    unfold importance_comparison. unfold bind at 1. unfold bind at 1.
    rewrite Hrun. reflexivity.
  - intros X labels sensitive w w' cohorts Hrun.
    unfold global_cohorts, df_getitem, bind, read_frame in Hrun.
    destruct (heap w !! X) as [[d|?]|] eqn:HX; try discriminate.
    fold (df_getitem X sensitive) in Hrun.
    unfold lift, ret in Hrun.
    destruct (df_get d sensitive) as [?|s] eqn:Hs; [discriminate|].
    rewrite list_getitem_0 in Hrun.
    destruct (dict_keys labels) as [|k ks] eqn:Hk; [discriminate|].
    unfold dict_getitem in Hrun.
    destruct (dict_get labels 0%Z) as [l0|] eqn:H0; [|discriminate].
    destruct (dict_get labels 1%Z) as [l1|] eqn:H1; [|discriminate].
    injection Hrun as <- <-.
    exists d, s, k, l0, l1. repeat split; auto.
Qed.

(** * Selections of rows *)

Lemma dict_get_map_values {V W} (f : V -> W) (l : dict string V) (c : string) :
  dict_get (map (fun kv => (fst kv, f (snd kv))) l) c = f <$> dict_get l c.
Proof.
  induction l as [|[k v] l IH]; simpl; [reflexivity|].
  destruct (decide (k = c)); [reflexivity | exact IH].
Qed.

Lemma df_get_filter (d : DataFrame) (m : list bool) (c : string) :
  df_get (df_filter d m) c =
  match df_get d c with
  | inl e => inl e
  | inr v => inr (select m v)
  end.
Proof.
  unfold df_get, dict_getitem, df_filter. cbn [df_cols].
  rewrite (dict_get_map_values (select m)).
  destruct (dict_get (df_cols d) c); reflexivity.
Qed.

Lemma dict_keys_map_values {V W} (f : V -> W) (l : dict string V) :
  dict_keys (map (fun kv => (fst kv, f (snd kv))) l) = dict_keys l.
Proof. unfold dict_keys. rewrite map_map. reflexivity. Qed.

Lemma filter_map_values {V W} (f : V -> W) (P : string -> bool) (l : dict string V) :
  List.filter (fun kv => P (fst kv)) (map (fun kv => (fst kv, f (snd kv))) l)
  = map (fun kv => (fst kv, f (snd kv))) (List.filter (fun kv => P (fst kv)) l).
Proof.
  induction l as [|[k v] l IH]; simpl; [reflexivity|].
  destruct (P k); simpl; now rewrite IH.
Qed.

Lemma dict_get_In {V} (l : dict string V) (c : string) (v : V) :
  dict_get l c = Some v -> In c (dict_keys l).
Proof.
  induction l as [|[k x] l IH]; simpl; [discriminate|].
  destruct (decide (k = c)); [now left | right; now apply IH].
Qed.

(** Dropping the labels and the sensitive column from a selection of a
    frame that has them. *)
Lemma df_drop_filter (d : DataFrame) (m : list bool) (sensitive : string) s t p :
  df_get d sensitive = inr s -> df_get d "t" = inr t -> df_get d "p" = inr p ->
  df_drop (df_filter d m) ["t"; "p"; sensitive]%string
  = inr (mkDF (count_true m)
           (map (fun kv => (fst kv, select m (snd kv))) (features sensitive d))).
Proof.
  unfold df_get, dict_getitem. intros Hs Ht Hp.
  destruct (dict_get (df_cols d) sensitive) eqn:Es; [|discriminate].
  destruct (dict_get (df_cols d) "t") eqn:Et; [|discriminate].
  destruct (dict_get (df_cols d) "p") eqn:Ep; [|discriminate].
  apply dict_get_In in Es, Et, Ep.
  unfold df_drop, df_filter. cbn [df_cols df_len].
  rewrite (dict_keys_map_values (select m)).
  assert (Hall : forallb (fun n => bool_decide (n ∈ dict_keys (df_cols d)))
                   ["t"; "p"; sensitive]%string = true).
  { simpl. rewrite !bool_decide_eq_true_2; [reflexivity|..];
      now apply list_elem_of_In. }
  rewrite Hall. f_equal. unfold features, count_true. f_equal.
  exact (filter_map_values (select m) (is_feature sensitive) (df_cols d)).
Qed.

Lemma series_mean_mean_of (v : Series) : series_mean v = mean_of v.
Proof. destruct v; reflexivity. Qed.

Lemma df_mean_map (f : Series -> Series) (l : dict string Series) n :
  df_mean (mkDF n (map (fun kv => (fst kv, f (snd kv))) l))
  = map (fun kv => (fst kv, series_mean (f (snd kv)))) l.
Proof. unfold df_mean. simpl. rewrite map_map. reflexivity. Qed.

(** Arithmetic of two series computed from the same columns. *)
Lemma series_binop_same_columns (op : float -> float -> float)
    (F G : Series -> float) (l : dict string Series) :
  NoDup (dict_keys l) ->
  series_binop op (map (fun kv => (fst kv, F (snd kv))) l)
                  (map (fun kv => (fst kv, G (snd kv))) l)
  = map (fun kv => (fst kv, op (F (snd kv)) (G (snd kv)))) l.
Proof.
  intros Hnd. unfold series_binop. rewrite map_map. simpl.
  apply map_ext_in. intros [k v] Hin. simpl. f_equal. f_equal.
  rewrite (dict_get_map_values G).
  enough (Hget : dict_get l k = Some v) by now rewrite Hget.
  clear F G. induction l as [|[k' v'] l IH]; [destruct Hin|].
  simpl. apply NoDup_cons in Hnd as [Hk' Hnd].
  destruct Hin as [Heq|Hin].
  - injection Heq as -> ->. destruct (decide (k = k)); [reflexivity | congruence].
  - destruct (decide (k' = k)) as [->|Hne]; [|now apply IH].
    exfalso. apply Hk'. apply list_elem_of_In.
    exact (in_map fst l (k, v) Hin).
Qed.

Lemma NoDup_filter_keys {V} (P : string * V -> bool) (l : dict string V) :
  NoDup (dict_keys l) -> NoDup (dict_keys (List.filter P l)).
Proof.
  unfold dict_keys. induction l as [|[k v] l IH]; simpl; [constructor|].
  intros Hnd. apply NoDup_cons in Hnd as [Hk Hnd].
  destruct (P (k, v)); simpl; [|now apply IH].
  apply NoDup_cons. split; [|now apply IH].
  intros Hin. apply Hk. apply list_elem_of_In in Hin. apply list_elem_of_In.
  apply in_map_iff in Hin as [[k' v'] [Hk' Hin]]. simpl in Hk'. subst k'.
  apply filter_In in Hin as [Hin _].
  exact (in_map fst l (k, v') Hin).
Qed.

(** Selecting twice, as the code does, selects the rows of the
    specification's single condition. *)
Lemma select_cohort (s t p v : Series) (group target : Z) :
  length t = length s -> length p = length s -> length v = length s ->
  select (mask_and (series_eq_scalar (select (series_ne t p) s) (inject_Z group))
                   (series_eq_scalar (select (series_ne t p) p) (inject_Z target)))
         (select (series_ne t p) v)
  = select (cohort_rows s t p group target) v.
Proof.
  revert t p v. induction s as [|si s IH]; intros [|ti t] [|pi p] [|vi v];
    simpl; try discriminate; try reflexivity.
  intros Ht Hp Hv. injection Ht as Ht. injection Hp as Hp. injection Hv as Hv.
  specialize (IH t p v Ht Hp Hv).
  unfold series_ne, cohort_rows in *. simpl.
  destruct (Qeq_bool ti pi); simpl; [exact IH|].
  unfold mask_and, series_eq_scalar in *. simpl.
  destruct (Qeq_bool si (inject_Z group)), (Qeq_bool pi (inject_Z target));
    simpl; now rewrite IH.
Qed.

Lemma select_true_class (s t p v : Series) (group target : Z) :
  length t = length s -> length p = length s -> length v = length s ->
  select (mask_and (series_eq_scalar (select (series_eq t p) s) (inject_Z group))
                   (series_eq_scalar (select (series_eq t p) t) (inject_Z target)))
         (select (series_eq t p) v)
  = select (true_class_rows s t p group target) v.
Proof.
  revert t p v. induction s as [|si s IH]; intros [|ti t] [|pi p] [|vi v];
    simpl; try discriminate; try reflexivity.
  intros Ht Hp Hv. injection Ht as Ht. injection Hp as Hp. injection Hv as Hv.
  specialize (IH t p v Ht Hp Hv).
  unfold series_eq, true_class_rows in *. simpl.
  destruct (Qeq_bool ti pi); simpl; [|exact IH].
  unfold mask_and, series_eq_scalar in *. simpl.
  destruct (Qeq_bool si (inject_Z group)), (Qeq_bool ti (inject_Z target));
    simpl; now rewrite IH.
Qed.

Lemma count_cohort (s t p : Series) (group target : Z) :
  length t = length s -> length p = length s ->
  count_true (mask_and (series_eq_scalar (select (series_ne t p) s) (inject_Z group))
                       (series_eq_scalar (select (series_ne t p) p) (inject_Z target)))
  = count_true (cohort_rows s t p group target).
Proof.
  revert t p. induction s as [|si s IH]; intros [|ti t] [|pi p];
    simpl; try discriminate; try reflexivity.
  intros Ht Hp. injection Ht as Ht. injection Hp as Hp.
  specialize (IH t p Ht Hp).
  unfold series_ne, cohort_rows, count_true in *. simpl.
  destruct (Qeq_bool ti pi); simpl; [exact IH|].
  unfold mask_and, series_eq_scalar in *. simpl.
  destruct (Qeq_bool si (inject_Z group)), (Qeq_bool pi (inject_Z target));
    simpl; now rewrite IH.
Qed.

(** * Tracing the attribution comparisons *)

Lemma lookup_snoc_heap (h : list obj) o : (h ++ [o]) !! length h = Some o.
Proof. apply lookup_middle_heap. Qed.

Ltac heap_lookup :=
  repeat match goal with
         | H : heap ?w = _ ++ [_] |- context [heap ?w] => rewrite H
         end;
  repeat first [ eassumption | apply lookup_snoc_heap | apply lookup_old_heap ].

Lemma wp_select_rows (tab : loc) (sel : Series -> Series -> list bool)
    (c : M loc) d t p Q w :
  c = (let* t := df_getitem tab "t" in
       let* p := df_getitem tab "p" in
       df_select tab (sel t p)) ->
  heap w !! tab = Some (ODataFrame d) ->
  df_get d "t" = inr t -> df_get d "p" = inr p ->
  (forall w', heap w' = heap w ++ [ODataFrame (df_filter d (sel t p))] ->
              rng w' = rng w -> stdout w' = stdout w ->
              Q (inr (length (heap w))) w') ->
  wp c Q w.
Proof.
  intros -> Hl Ht Hp HQ.
  apply wp_bind. eapply wp_df_getitem; [exact Hl|]. rewrite Ht.
  apply wp_bind. eapply wp_df_getitem; [exact Hl|]. rewrite Hp.
  eapply wp_df_select; [exact Hl | exact HQ].
Qed.

Lemma wp_select_group_label (tab : loc) (sensitive col : string) (g tg : Z)
    d s c Q w :
  heap w !! tab = Some (ODataFrame d) ->
  df_get d sensitive = inr s -> df_get d col = inr c ->
  (forall w',
     heap w' = heap w ++
       [ODataFrame (df_filter d (mask_and (series_eq_scalar s (inject_Z g))
                                          (series_eq_scalar c (inject_Z tg))))] ->
     rng w' = rng w -> stdout w' = stdout w ->
     Q (inr (length (heap w))) w') ->
  wp (select_group_label tab sensitive col g tg) Q w.
Proof.
  intros Hl Hs Hc HQ. unfold select_group_label.
  apply wp_bind. eapply wp_df_getitem; [exact Hl|]. rewrite Hs.
  apply wp_bind. eapply wp_df_getitem; [exact Hl|]. rewrite Hc.
  eapply wp_df_select; [exact Hl | exact HQ].
Qed.

Lemma wp_feature_means (tab : loc) (sensitive : string) d d' Q w :
  heap w !! tab = Some (ODataFrame d) ->
  df_drop d ["t"; "p"; sensitive]%string = inr d' ->
  Q (inr (df_mean d')) w ->
  wp (feature_means tab sensitive) Q w.
Proof.
  intros Hl Hd HQ. unfold feature_means.
  apply wp_bind, wp_read_frame. rewrite Hl.
  apply wp_bind, wp_lift. rewrite Hd. now apply wp_ret.
Qed.

Lemma wp_feature_names (tab : loc) (sensitive : string) d d' Q w :
  heap w !! tab = Some (ODataFrame d) ->
  df_drop d ["t"; "p"; sensitive]%string = inr d' ->
  Q (inr (dict_keys (df_cols d'))) w ->
  wp (feature_names tab sensitive) Q w.
Proof.
  intros Hl Hd HQ. unfold feature_names.
  apply wp_bind, wp_read_frame. rewrite Hl.
  apply wp_bind, wp_lift. rewrite Hd. now apply wp_ret.
Qed.

Lemma df_wf_get (d : DataFrame) (c : string) (v : Series) :
  df_wf d -> df_get d c = inr v -> length v = df_len d.
Proof.
  intros [Hlen _]. unfold df_get, dict_getitem.
  destruct (dict_get (df_cols d) c) as [v'|] eqn:Hg; [|discriminate].
  intros [= <-]. revert Hg. induction Hlen as [|[k x] l Hx Hl IH]; simpl; [discriminate|].
  destruct (decide (k = c)); [now intros [= <-] | exact IH].
Qed.

Lemma features_wf (d : DataFrame) (sensitive : string) :
  df_wf d ->
  NoDup (dict_keys (features sensitive d))
  /\ Forall (fun kv => length (snd kv) = df_len d) (features sensitive d).
Proof.
  intros [Hlen Hnd]. split.
  - now apply NoDup_filter_keys.
  - unfold features. apply List.Forall_forall. intros kv Hin.
    apply filter_In in Hin as [Hin _].
    now apply (proj1 (List.Forall_forall _ _) Hlen).
Qed.

Lemma df_drop_filter2 (d : DataFrame) (m1 m2 : list bool) (sensitive : string) s t p :
  df_get d sensitive = inr s -> df_get d "t" = inr t -> df_get d "p" = inr p ->
  df_drop (df_filter (df_filter d m1) m2) ["t"; "p"; sensitive]%string
  = inr (mkDF (count_true m2)
           (map (fun kv => (fst kv, select m2 (select m1 (snd kv))))
                (features sensitive d))).
Proof.
  intros Hs Ht Hp.
  rewrite (df_drop_filter (df_filter d m1) m2 sensitive
             (select m1 s) (select m1 t) (select m1 p))
    by (rewrite df_get_filter; (rewrite Hs || rewrite Ht || rewrite Hp); reflexivity).
  f_equal. f_equal. unfold features, df_filter. cbn [df_cols].
  rewrite (filter_map_values (select m1) (is_feature sensitive)).
  rewrite map_map. reflexivity.
Qed.

(** C3.  On a well-formed working table, the comparison to the true class
    computed by [understand_shap] (lines 559-566) gives, for every column
    other than the labels [t], [p] and the sensitive column, the mean of the
    feature over the misclassified cohort of the given sensitive group and
    predicted label, minus its mean over the correctly classified rows of the
    same group whose true label is that label, divided by the cohort mean. *)
Theorem compare_to_true_class_formula (full_table : loc) (sensitive : string)
    (affected_group affected_target : Z) (w : world) (d : DataFrame)
    (s t p : Series) :
  heap w !! full_table = Some (ODataFrame d) ->
  df_wf d ->
  df_get d sensitive = inr s -> df_get d "t" = inr t -> df_get d "p" = inr p ->
  exists w',
    compare_to_true_class full_table sensitive affected_group affected_target w
    = (inr (dict_keys (spec_compare_to_true_class d s t p sensitive
                         affected_group affected_target),
            dict_values (spec_compare_to_true_class d s t p sensitive
                           affected_group affected_target)), w')
    /\ extends w w'.
Proof.
  intros Hl Hwf Hs Ht Hp.
  enough (Hwp : wp (compare_to_true_class full_table sensitive
                      affected_group affected_target)
                   (fun r _ =>
                      r = inr (dict_keys (spec_compare_to_true_class d s t p
                                 sensitive affected_group affected_target),
                               dict_values (spec_compare_to_true_class d s t p
                                 sensitive affected_group affected_target))) w).
  { unfold wp in Hwp.
    pose proof (append_only_compare_to_true_class full_table sensitive
                  affected_group affected_target w) as Hext.
    destruct (compare_to_true_class _ _ _ _ w) as [r w'].
    simpl in *. subst r. now exists w'. }
  unfold compare_to_true_class.
  apply wp_bind.
  eapply (wp_select_rows full_table series_ne); [reflexivity | exact Hl | exact Ht | exact Hp |].
  intros w1 Hh1 _ _.
  apply wp_bind. eapply wp_select_group_label;
    [heap_lookup | rewrite df_get_filter, Hs; reflexivity
     | rewrite df_get_filter, Hp; reflexivity |].
  intros w2 Hh2 _ _.
  apply wp_bind.
  eapply (wp_select_rows full_table series_eq); [reflexivity | heap_lookup | exact Ht | exact Hp |].
  intros w3 Hh3 _ _.
  apply wp_bind. eapply wp_select_group_label;
    [heap_lookup | rewrite df_get_filter, Hs; reflexivity
     | rewrite df_get_filter, Ht; reflexivity |].
  intros w4 Hh4 _ _.
  apply wp_bind. eapply wp_feature_names;
    [heap_lookup | eapply df_drop_filter2; eassumption |].
  apply wp_bind. eapply wp_feature_means;
    [heap_lookup | eapply df_drop_filter2; eassumption |].
  apply wp_bind. eapply wp_feature_means;
    [heap_lookup | eapply df_drop_filter2; eassumption |].
  apply wp_bind. eapply wp_feature_means;
    [heap_lookup | eapply df_drop_filter2; eassumption |].
  apply wp_ret. cbn [df_cols].
  destruct (features_wf d sensitive Hwf) as [Hnd _].
  rewrite !(df_mean_map (fun v => select _ (select _ v))).
  f_equal. f_equal.
  - unfold spec_compare_to_true_class.
    rewrite (dict_keys_map_values (fun v => select _ (select _ v))).
    unfold dict_keys. rewrite map_map. reflexivity.
  - rewrite (series_binop_same_columns fsub
               (fun v => series_mean (select _ (select _ v)))
               (fun v => series_mean (select _ (select _ v)))) by exact Hnd.
    rewrite (series_binop_same_columns fdiv
               (fun v => fsub (series_mean (select _ (select _ v)))
                              (series_mean (select _ (select _ v))))
               (fun v => series_mean (select _ (select _ v)))) by exact Hnd.
    unfold spec_compare_to_true_class, dict_values. rewrite !map_map. simpl.
    apply map_ext_in. intros kv Hin. unfold relative_difference.
    rewrite !series_mean_mean_of.
    pose proof (df_wf_get _ _ _ Hwf Hs) as Ls.
    pose proof (df_wf_get _ _ _ Hwf Ht) as Lt.
    pose proof (df_wf_get _ _ _ Hwf Hp) as Lp.
    destruct (features_wf d sensitive Hwf) as [_ Hlen].
    pose proof (proj1 (List.Forall_forall _ _) Hlen kv Hin) as Lv.
    rewrite select_cohort by congruence.
    rewrite select_true_class by congruence.
    reflexivity.
Qed.

(** * Column assignment *)

Lemma dict_get_set_same {K V} `{EqDecision K} (l : dict K V) (c : K) (v : V) :
  dict_get (dict_set l c v) c = Some v.
Proof.
  induction l as [|[k x] l IH]; simpl.
  - now rewrite decide_True.
  - destruct (decide (k = c)) as [->|Hne]; simpl.
    + now rewrite decide_True.
    + now rewrite decide_False.
Qed.

Lemma dict_get_set_other {K V} `{EqDecision K} (l : dict K V) (c c' : K) (v : V) :
  c <> c' -> dict_get (dict_set l c v) c' = dict_get l c'.
Proof.
  intros Hne. induction l as [|[k x] l IH]; simpl.
  - now rewrite decide_False.
  - destruct (decide (k = c)) as [->|Hk]; simpl.
    + now rewrite !decide_False.
    + destruct (decide (k = c')); [reflexivity | exact IH].
Qed.

Lemma dict_set_same {V} (l : dict string V) (c : string) (v : V) :
  dict_get l c = Some v -> dict_set l c v = l.
Proof.
  induction l as [|[k x] l IH]; simpl; [discriminate|].
  destruct (decide (k = c)) as [->|Hk].
  - now intros [= ->].
  - intros Hg. now rewrite IH.
Qed.

Lemma dict_set_In {V} (l : dict string V) (c : string) (v : V) kv :
  In kv (dict_set l c v) -> In kv l \/ kv = (c, v).
Proof.
  induction l as [|[k x] l IH]; simpl.
  - intros [<-|[]]. now right.
  - destruct (decide (k = c)) as [->|Hk]; simpl.
    + intros [<-|Hin]; [now right | left; now right].
    + intros [<-|Hin]; [left; now left|].
      destruct (IH Hin) as [Hl|Heq]; [left; now right | now right].
Qed.

Lemma dict_set_NoDup {V} (l : dict string V) (c : string) (v : V) :
  NoDup (dict_keys l) -> NoDup (dict_keys (dict_set l c v)).
Proof.
  unfold dict_keys. induction l as [|[k x] l IH]; simpl.
  - intros _. apply NoDup_singleton.
  - intros Hnd. apply NoDup_cons in Hnd as [Hk Hnd].
    destruct (decide (k = c)) as [->|Hne]; simpl.
    + apply NoDup_cons. now split.
    + apply NoDup_cons. split; [|now apply IH].
      intros Hin. apply list_elem_of_In, in_map_iff in Hin as [[k' x'] [Hk' Hin]].
      simpl in Hk'. subst k'.
      apply dict_set_In in Hin as [Hin|[= -> ->]]; [|congruence].
      apply Hk, list_elem_of_In. exact (in_map fst l (k, x') Hin).
Qed.

Lemma df_set_inv (d d' : DataFrame) (c : string) (v : Series) :
  df_set d c v = inr d' ->
  length v = df_len d /\ d' = mkDF (df_len d) (dict_set (df_cols d) c v).
Proof.
  unfold df_set. destruct (decide (length v = df_len d)); [|discriminate].
  intros [= <-]. now split.
Qed.

Lemma df_get_set_same (d d' : DataFrame) (c : string) (v : Series) :
  df_set d c v = inr d' -> df_get d' c = inr v.
Proof.
  intros Hset. apply df_set_inv in Hset as [_ ->].
  unfold df_get, dict_getitem. simpl. now rewrite dict_get_set_same.
Qed.

Lemma df_get_set_other (d d' : DataFrame) (c c' : string) (v : Series) :
  c <> c' -> df_set d c v = inr d' -> df_get d' c' = df_get d c'.
Proof.
  intros Hne Hset. apply df_set_inv in Hset as [_ ->].
  unfold df_get, dict_getitem. simpl. now rewrite dict_get_set_other.
Qed.

Lemma df_set_wf (d d' : DataFrame) (c : string) (v : Series) :
  df_wf d -> df_set d c v = inr d' -> df_wf d'.
Proof.
  intros [Hlen Hnd] Hset. apply df_set_inv in Hset as [Hv ->].
  split; simpl.
  - apply List.Forall_forall. intros kv Hin.
    apply dict_set_In in Hin as [Hin| ->]; [|exact Hv].
    now apply (proj1 (List.Forall_forall _ _) Hlen).
  - now apply dict_set_NoDup.
Qed.

Lemma df_set_idem (d : DataFrame) (c : string) (v : Series) :
  df_get d c = inr v -> length v = df_len d -> df_set d c v = inr d.
Proof.
  unfold df_get, dict_getitem, df_set. intros Hg Hv.
  destruct (dict_get (df_cols d) c) as [v'|] eqn:Hd; [|discriminate].
  injection Hg as ->. rewrite decide_True by exact Hv.
  rewrite dict_set_same by exact Hd. now destruct d.
Qed.

(** Assigning the labels again leaves the working table as it is. *)
Lemma working_table_relabel (X d : DataFrame) (y p : Series) :
  working_table X y p = inr d ->
  df_set d "t" y = inr d /\ df_set d "p" p = inr d
  /\ df_get d "t" = inr y /\ df_get d "p" = inr p.
Proof.
  unfold working_table. destruct (df_set X "t" y) as [e|d1] eqn:H1; [discriminate|].
  intros H2.
  pose proof (df_set_inv _ _ _ _ H1) as [Ly E1].
  pose proof (df_set_inv _ _ _ _ H2) as [Lp E2].
  assert (Ld : df_len d = df_len X) by (subst d d1; reflexivity).
  assert (Ld1 : df_len d1 = df_len X) by (subst d1; reflexivity).
  assert (Gt : df_get d "t" = inr y).
  { rewrite (df_get_set_other _ _ "p" "t" _ ltac:(discriminate) H2).
    exact (df_get_set_same _ _ _ _ H1). }
  assert (Gp : df_get d "p" = inr p) by exact (df_get_set_same _ _ _ _ H2).
  repeat split; try assumption; apply df_set_idem; congruence.
Qed.

Lemma working_table_wf (X d : DataFrame) (y p : Series) :
  df_wf X -> working_table X y p = inr d -> df_wf d.
Proof.
  unfold working_table. intros Hwf.
  destruct (df_set X "t" y) as [e|d1] eqn:H1; [discriminate|].
  intros H2. eapply df_set_wf; [|exact H2]. eapply df_set_wf; eassumption.
Qed.

Lemma wp_append_only {A} (c : M A) (Q : result A -> world -> Prop) w :
  append_only c -> (forall r w', extends w w' -> Q r w') -> wp c Q w.
Proof. intros Hc HQ. unfold wp. apply HQ, Hc. Qed.


Lemma extends_rng w w' : extends w w' -> rng w' = rng w.
Proof. intros [_ [Hr _]]. exact Hr. Qed.

(** * Precision per subgroup *)

Lemma subgroup_precision_functional labels sens_df w i i' name p p' score score' :
  subgroup_precision labels sens_df w i name p score ->
  subgroup_precision labels sens_df w i' name p' score' ->
  score = score'.
Proof.
  intros (l & d & t & _ & Hl & Hd & Ht & Hp & Hs)
         (l' & d' & t' & _ & Hl' & Hd' & Ht' & Hp' & Hs').
  congruence.
Qed.

Lemma predictive_loop (labels : dict Z string) (sens_df : dict string loc)
    (w : world) :
  (forall i, In i (dict_keys labels) ->
     exists name p score, subgroup_precision labels sens_df w i name p score) ->
  wp (for_each (dict_keys labels) ([] : dict string float)
        (fun precision_dic i =>
           let* name := lift (dict_getitem labels i) in
           let* part := lift (dict_getitem sens_df name) in
           let* t := df_getitem part "t" in
           let* p := df_getitem part "p" in
           let* score := lift (precision_score t p) in
           ret (dict_set precision_dic name score)))
     (fun r w' =>
        exists precision_dic,
          r = inr precision_dic /\ w' = w
          /\ forall i name p score,
               In i (dict_keys labels) ->
               subgroup_precision labels sens_df w i name p score ->
               dict_get precision_dic name = Some score) w.
Proof.
  intros Hall.
  eapply wp_conseq.
  - apply (wp_for_each (dict_keys labels) _
             (fun done precision_dic w' =>
                w' = w /\
                forall i name p score,
                  In i done ->
                  subgroup_precision labels sens_df w i name p score ->
                  dict_get precision_dic name = Some score)).
    + split; [reflexivity|]. intros i name p score [].
    + intros done a dic w' [-> Hinv] Ha.
      destruct (Hall a Ha) as (name & p & score & Hsub).
      pose proof Hsub as (l & d & t & Hn & Hl & Hd & Ht & Hp & Hs).
      apply wp_bind, wp_lift. unfold dict_getitem at 1. rewrite Hn.
      apply wp_bind, wp_lift. unfold dict_getitem at 1. rewrite Hl.
      apply wp_bind. eapply wp_df_getitem; [exact Hd|]. rewrite Ht.
      apply wp_bind. eapply wp_df_getitem; [exact Hd|]. rewrite Hp.
      apply wp_bind, wp_lift. rewrite Hs. apply wp_ret.
      eexists. split; [reflexivity|]. split; [reflexivity|].
      intros i name' p' score' Hi Hsub'.
      destruct (decide (name = name')) as [<-|Hne].
      * rewrite dict_get_set_same. f_equal.
        eapply subgroup_precision_functional; eassumption.
      * rewrite dict_get_set_other by exact Hne.
        apply in_app_or in Hi as [Hi|[<-|[]]]; [eapply Hinv; eassumption|].
        destruct Hsub' as (_ & _ & _ & Hn' & _). congruence.
  - intros r w' (dic & -> & -> & Hinv). exists dic. auto.
Qed.

Lemma insert_uniq_HdRel (x a : Q) (l : list Q) :
  a < x -> HdRel Qlt a l -> HdRel Qlt a (insert_uniq x l).
Proof.
  intros Hax Hl. destruct l as [|y l]; simpl; [now constructor|].
  apply HdRel_inv in Hl.
  destruct (Qcompare x y); constructor; assumption.
Qed.

Lemma insert_uniq_sorted (x : Q) (l : list Q) :
  Sorted Qlt l -> Sorted Qlt (insert_uniq x l).
Proof.
  induction 1 as [|y l Hl IH Hy]; simpl.
  - repeat constructor.
  - destruct (Qcompare x y) eqn:Hc.
    + now constructor.
    + apply Qlt_alt in Hc. constructor; [now constructor | now constructor].
    + apply Qgt_alt in Hc. constructor; [exact IH|].
      now apply insert_uniq_HdRel.
Qed.

Lemma unique_sorted_sorted (l : list Q) : Sorted Qlt (unique_sorted l).
Proof.
  induction l as [|x l IH]; simpl; [constructor | now apply insert_uniq_sorted].
Qed.

(** An increasing list of values among 0 and 1 has at most two elements, and
    two only if 1 is one of them. *)
Lemma sorted_binary (l : list Q) :
  Sorted Qlt l -> binary l ->
  (length l <= 2)%nat
  /\ ((2 <= length l)%nat -> exists x, In x l /\ x == 1).
Proof.
  intros Hs Hb. destruct l as [|a [|b [|c l]]]; simpl.
  - split; [lia | intros; lia].
  - split; [lia | intros; lia].
  - split; [lia|]. intros _.
    apply Sorted_inv in Hs as [_ Hab]. apply HdRel_inv in Hab.
    apply Forall_cons in Hb as [Ha Hb]. apply Forall_cons in Hb as [Hb _].
    exists b. split; [right; now left|].
    destruct Hb as [Hb|Hb]; [|exact Hb]. destruct Ha as [Ha|Ha]; lra.
  - exfalso.
    apply Sorted_inv in Hs as [Hs Hab]. apply HdRel_inv in Hab.
    apply Sorted_inv in Hs as [_ Hbc]. apply HdRel_inv in Hbc.
    apply Forall_cons in Hb as [Ha Hb]. apply Forall_cons in Hb as [Hb Hc].
    apply Forall_cons in Hc as [Hc _].
    destruct Ha, Hb, Hc; lra.
Qed.

Lemma binary_integral (x : Q) : x == 0 \/ x == 1 -> is_integral x = true.
Proof.
  intros Hx. unfold is_integral. apply Qeq_bool_iff.
  destruct Hx as [Hx|Hx]; rewrite Hx; reflexivity.
Qed.

(** On binary labels of at least one record sklearn's precision is defined:
    it is TP / (TP + FP), and 0.0 when nothing is predicted positive. *)
Lemma precision_score_binary (t p : Series) :
  binary t -> binary p -> length t = length p -> t <> [] ->
  precision_score t p
  = inr (if (count_eq p 1 =? 0)%Z then Fin 0
         else int_truediv (count_pairs (zip t p) 1 1) (count_eq p 1)).
Proof.
  intros Ht Hp Hlen Hnil.
  assert (Hb : binary (unique_sorted (t ++ p))).
  { apply List.Forall_forall. intros x Hx. apply unique_sorted_in in Hx.
    apply in_app_or in Hx as [Hx|Hx];
      [exact (proj1 (List.Forall_forall _ _) Ht x Hx)
      | exact (proj1 (List.Forall_forall _ _) Hp x Hx)]. }
  destruct (sorted_binary _ (unique_sorted_sorted (t ++ p)) Hb) as [Hle Hone].
  assert (G0 : (length t =? 0)%nat = false)
    by (destruct t; [congruence | reflexivity]).
  unfold precision_score. rewrite G0.
  assert (G1 : forallb is_integral (unique_sorted (t ++ p)) = true).
  { apply forallb_forall. intros x Hx. apply binary_integral.
    exact (proj1 (List.Forall_forall _ _) Hb x Hx). }
  rewrite G1. cbn [negb].
  destruct (decide (length t <> length p)) as [Hne|_]; [contradiction|].
  destruct (Nat.ltb_spec 2 (length (unique_sorted (t ++ p)))) as [Hlt|_]; [lia|].
  destruct (Nat.leb_spec 2 (length (unique_sorted (t ++ p)))) as [Hge|_].
  - destruct (Hone Hge) as (x & Hx & Hx1).
    assert (Hex : existsb (fun v => Qeq_bool v 1) (unique_sorted (t ++ p)) = true).
    { apply existsb_exists. exists x. split; [exact Hx | now apply Qeq_bool_iff]. }
    rewrite Hex. cbn [negb andb]. now destruct (count_eq p 1 =? 0)%Z.
  - rewrite andb_false_r. now destruct (count_eq p 1 =? 0)%Z.
Qed.

Lemma subgroup_labels_functional labels sens_df w i name name' t t' p p' :
  subgroup_labels labels sens_df w i name t p ->
  subgroup_labels labels sens_df w i name' t' p' ->
  name = name' /\ t = t' /\ p = p'.
Proof.
  intros (l & d & Hn & Hl & Hd & Ht & Hp) (l' & d' & Hn' & Hl' & Hd' & Ht' & Hp').
  assert (name = name') as <- by congruence.
  assert (l = l') as <- by congruence.
  assert (d = d') as <- by congruence.
  repeat split; congruence.
Qed.

(** C5, as the code has it.  When every subgroup of the label map has at
    least one record and binary labels, [predictive] returns normally and
    leaves the world as it found it; a subgroup without predicted positives
    has precision [0.0], a number, not an undefined value; and the p-value is
    still computed from all the precisions. *)
Theorem zero_predicted_positive_precision_is_zero (labels : dict Z string)
    (sens_df : dict string loc) (w : world) :
  (forall i, In i (dict_keys labels) ->
     exists name t p,
       subgroup_labels labels sens_df w i name t p
       /\ binary t /\ binary p /\ length t = length p /\ t <> []) ->
  exists precision_dic fig,
    predictive labels sens_df w =
      (inr (precision_dic, fig,
            snd (chisquare (map (fun x => fmul x (Fin 100))
                                (dict_values precision_dic)) None)), w)
    /\ forall i name t p,
         In i (dict_keys labels) ->
         subgroup_labels labels sens_df w i name t p ->
         count_eq p 1 = 0%Z ->
         dict_get precision_dic name = Some (Fin 0).
Proof.
  intros Hall.
  assert (Hall' : forall i, In i (dict_keys labels) ->
            exists name p score, subgroup_precision labels sens_df w i name p score).
  { intros i Hi.
    destruct (Hall i Hi)
      as (name & t & p & (l & d & Hn & Hl & Hd & Ht & Hp) & Bt & Bp & Hlen & Hne).
    exists name, p. eexists. exists l, d, t.
    repeat split; try eassumption. now apply precision_score_binary. }
  pose proof (predictive_loop labels sens_df w Hall') as Hloop.
  unfold wp in Hloop. destruct Hloop as (dic & Hr & Hw & Hinv).
  exists dic, [mkBar (dict_values labels) (dict_values dic) None None].
  split.
  - unfold predictive. unfold bind at 1.
    destruct (for_each _ _ _ w) as [r w']. simpl in Hr, Hw. subst r w'.
    unfold ret, times_100. rewrite float_of_Z_100. reflexivity.
  - intros i name t p Hi Hsub Hzero.
    destruct (Hall i Hi) as (name' & t' & p' & Hsub' & Bt & Bp & Hlen & Hne).
    destruct (subgroup_labels_functional _ _ _ _ _ _ _ _ _ _ Hsub Hsub')
      as (<- & <- & <-).
    pose proof (precision_score_binary t p Bt Bp Hlen Hne) as Hscore.
    rewrite Hzero in Hscore. simpl in Hscore.
    apply (Hinv i name p (Fin 0) Hi).
    destruct Hsub as (l & d & Hn & Hl & Hd & Ht & Hp).
    exists l, d, t. repeat split; assumption.
Qed.

(** * The representation analysis on a label map that names its keys only *)

Lemma dict_get_keys {K V} `{EqDecision K} (l : dict K V) (k : K) :
  In k (dict_keys l) -> exists v, dict_get l k = Some v.
Proof.
  induction l as [|[k' v'] l IH]; simpl; [tauto|].
  intros Hin. destruct (decide (k' = k)); [eauto|].
  destruct Hin as [Heq|Hin]; [congruence | now apply IH].
Qed.

Lemma dict_get_set_is_Some {K V} `{EqDecision K} (l : dict K V) (k k' : K) (v : V) :
  is_Some (dict_get l k') -> is_Some (dict_get (dict_set l k v) k').
Proof.
  intros Hs. destruct (decide (k = k')) as [<-|Hne].
  - rewrite dict_get_set_same. eauto.
  - now rewrite dict_get_set_other.
Qed.


Lemma df_set_length (d : DataFrame) (c : string) (v : Series) :
  length v = df_len d -> exists d', df_set d c v = inr d' /\ df_len d' = df_len d.
Proof.
  intros Hv. unfold df_set. rewrite decide_True by exact Hv. eauto.
Qed.


(** * Rules for two runs side by side *)

Section Relational.
Variables B1 B2 : world.

Lemma sim_start : sim B1 B2 B1 B2.
Proof. split; exists []; now rewrite !app_nil_r. Qed.

Lemma fresh_loc_rel l1 l2 : fresh_rel B1 B2 l1 l2 -> loc_rel B1 B2 l1 l2.
Proof. now right. Qed.

Lemma sim_lookup w1 w2 l1 l2 :
  sim B1 B2 w1 w2 -> loc_rel B1 B2 l1 l2 -> heap w1 !! l1 = heap w2 !! l2.
Proof.
  intros [(ext & Hh1 & Hh2) _] [(o & Ho1 & Ho2)|(k & -> & ->)]; rewrite Hh1, Hh2.
  - rewrite (lookup_app_l_Some _ _ _ _ Ho1), (lookup_app_l_Some _ _ _ _ Ho2).
    reflexivity.
  - rewrite !lookup_app_r by lia.
    replace (length (heap B1) + k - length (heap B1))%nat with k by lia.
    replace (length (heap B2) + k - length (heap B2))%nat with k by lia.
    reflexivity.
Qed.

Lemma related_ret {A} (R : A -> A -> Prop) a1 a2 :
  R a1 a2 -> related B1 B2 R (ret a1) (ret a2).
Proof. intros HR w1 w2 Hsim. now split. Qed.

Lemma related_lift {A} (R : A -> A -> Prop) (r1 r2 : result A) :
  outcome_rel R r1 r2 -> related B1 B2 R (lift r1) (lift r2).
Proof. intros HR w1 w2 Hsim. now split. Qed.

Lemma outcome_rel_eq {A} (r : result A) : outcome_rel eq r r.
Proof. destruct r; reflexivity. Qed.

Lemma related_lift_eq {A} (r : result A) : related B1 B2 eq (lift r) (lift r).
Proof. apply related_lift, outcome_rel_eq. Qed.

Lemma related_bind {A B} (R : A -> A -> Prop) (R' : B -> B -> Prop)
    (c1 c2 : M A) (k1 k2 : A -> M B) :
  related B1 B2 R c1 c2 ->
  (forall a1 a2, R a1 a2 -> related B1 B2 R' (k1 a1) (k2 a2)) ->
  related B1 B2 R' (bind c1 k1) (bind c2 k2).
Proof.
  intros Hc Hk w1 w2 Hsim. unfold bind.
  destruct (Hc w1 w2 Hsim) as [Hsim' Hout].
  destruct (c1 w1) as [[e1|a1] w1'], (c2 w2) as [[e2|a2] w2']; simpl in *;
    try contradiction.
  - now split.
  - now apply Hk.
Qed.

Lemma related_read_frame l1 l2 :
  loc_rel B1 B2 l1 l2 -> related B1 B2 eq (read_frame l1) (read_frame l2).
Proof.
  intros Hl w1 w2 Hsim. unfold read_frame.
  rewrite (sim_lookup w1 w2 l1 l2 Hsim Hl).
  destruct (heap w2 !! l2) as [[d|s]|]; now split.
Qed.

Lemma related_read_array l1 l2 :
  loc_rel B1 B2 l1 l2 -> related B1 B2 eq (read_array l1) (read_array l2).
Proof.
  intros Hl w1 w2 Hsim. unfold read_array.
  rewrite (sim_lookup w1 w2 l1 l2 Hsim Hl).
  destruct (heap w2 !! l2) as [[d|s]|]; now split.
Qed.

Lemma related_alloc o : related B1 B2 (fresh_rel B1 B2) (alloc o) (alloc o).
Proof.
  intros w1 w2 [(ext & Hh1 & Hh2) Hout]. unfold alloc. simpl. split.
  - split; [|exact Hout]. exists (ext ++ [o]).
    now rewrite Hh1, Hh2, <- !app_assoc.
  - exists (length ext). rewrite Hh1, Hh2, !length_app. now split.
Qed.

Lemma related_write_frame l1 l2 d :
  fresh_rel B1 B2 l1 l2 ->
  related B1 B2 eq (write_frame l1 d) (write_frame l2 d).
Proof.
  intros (k & -> & ->) w1 w2 [(ext & Hh1 & Hh2) Hout]. unfold write_frame. simpl.
  split; [|reflexivity]. split; [|exact Hout].
  exists (<[k := ODataFrame d]> ext). rewrite Hh1, Hh2.
  rewrite !insert_app_r_alt by lia.
  replace (length (heap B1) + k - length (heap B1))%nat with k by lia.
  replace (length (heap B2) + k - length (heap B2))%nat with k by lia.
  now split.
Qed.

Lemma related_emit e : related B1 B2 eq (emit e) (emit e).
Proof.
  intros w1 w2 [Hheap (evs & Ho1 & Ho2)]. unfold emit. simpl.
  split; [|reflexivity]. split; [exact Hheap|].
  exists (evs ++ [e]). now rewrite Ho1, Ho2, <- !app_assoc.
Qed.

Lemma related_for_each {A S} (R : S -> S -> Prop) (l : list A)
    (s1 s2 : S) (body1 body2 : S -> A -> M S) :
  (forall a s1 s2, R s1 s2 -> related B1 B2 R (body1 s1 a) (body2 s2 a)) ->
  R s1 s2 ->
  related B1 B2 R (for_each l s1 body1) (for_each l s2 body2).
Proof.
  intros Hbody. revert s1 s2. induction l as [|a l IH]; intros s1 s2 HR; simpl.
  - now apply related_ret.
  - eapply related_bind; [now apply Hbody | intros; now apply IH].
Qed.

Lemma related_df_copy l1 l2 :
  loc_rel B1 B2 l1 l2 ->
  related B1 B2 (fresh_rel B1 B2) (df_copy l1) (df_copy l2).
Proof.
  intros Hl. unfold df_copy.
  eapply related_bind; [now apply related_read_frame|].
  intros d ? <-. apply related_alloc.
Qed.

Lemma related_df_getitem l1 l2 c :
  loc_rel B1 B2 l1 l2 ->
  related B1 B2 eq (df_getitem l1 c) (df_getitem l2 c).
Proof.
  intros Hl. unfold df_getitem.
  eapply related_bind; [now apply related_read_frame|].
  intros d ? <-. apply related_lift_eq.
Qed.

Lemma related_df_select l1 l2 m :
  loc_rel B1 B2 l1 l2 ->
  related B1 B2 (fresh_rel B1 B2) (df_select l1 m) (df_select l2 m).
Proof.
  intros Hl. unfold df_select.
  eapply related_bind; [now apply related_read_frame|].
  intros d ? <-. apply related_alloc.
Qed.

Lemma related_df_setitem l1 l2 c v :
  fresh_rel B1 B2 l1 l2 ->
  related B1 B2 eq (df_setitem l1 c v) (df_setitem l2 c v).
Proof.
  intros Hl. unfold df_setitem.
  eapply related_bind; [apply related_read_frame; now right|].
  intros d ? <-.
  eapply related_bind; [apply related_lift_eq|].
  intros d' ? <-. now apply related_write_frame.
Qed.

Lemma partition_rel_set (rel : loc -> loc -> Prop) sd1 sd2 name l1 l2 :
  partition_rel rel sd1 sd2 -> rel l1 l2 ->
  partition_rel rel (dict_set sd1 name l1) (dict_set sd2 name l2).
Proof.
  intros Hsd Hl. induction Hsd as [|[n1 x1] [n2 x2] sd1 sd2 [Hn Hx] Hsd IH]; simpl.
  - repeat constructor. exact Hl.
  - simpl in Hn. subst n2. destruct (decide (n1 = name)).
    + constructor; [now split | exact Hsd].
    + constructor; [now split | exact IH].
Qed.

Lemma partition_rel_getitem (rel : loc -> loc -> Prop) sd1 sd2 name :
  partition_rel rel sd1 sd2 ->
  outcome_rel rel (dict_getitem sd1 name) (dict_getitem sd2 name).
Proof.
  unfold dict_getitem.
  induction 1 as [|[n1 x1] [n2 x2] sd1 sd2 [Hn Hx] Hsd IH]; simpl; [reflexivity|].
  simpl in Hn. subst n2. destruct (decide (n1 = name)); [exact Hx | exact IH].
Qed.

Lemma partition_rel_weaken (rel rel' : loc -> loc -> Prop) sd1 sd2 :
  (forall l1 l2, rel l1 l2 -> rel' l1 l2) ->
  partition_rel rel sd1 sd2 -> partition_rel rel' sd1 sd2.
Proof.
  intros Hw Hsd. eapply Forall2_impl; [exact Hsd|].
  intros a b [Hn Hl]. split; [exact Hn | now apply Hw].
Qed.

End Relational.

Section RelationalRuns.
Variables B1 B2 : world.

Ltac rel_read :=
  first [ apply related_read_array; eassumption
        | apply related_read_frame; eassumption
        | apply related_df_getitem; eassumption
        | apply related_df_getitem; apply fresh_loc_rel; eassumption
        | apply related_df_setitem; eassumption
        | apply related_lift_eq
        | apply related_emit ].

Ltac rel_step :=
  eapply related_bind; [rel_read | intros ? ? <-].

Lemma related_representation (X1 X2 y1 y2 p1 p2 : loc) (sensitive : string)
    (labels : dict Z string) :
  loc_rel B1 B2 X1 X2 -> loc_rel B1 B2 y1 y2 -> loc_rel B1 B2 p1 p2 ->
  related B1 B2 (representation_rel (fresh_rel B1 B2))
    (representation X1 y1 sensitive labels p1)
    (representation X2 y2 sensitive labels p2).
Proof.
  intros HX Hy Hp. unfold representation.
  eapply related_bind; [apply related_df_copy; exact HX|].
  intros ft1 ft2 Hft.
  eapply related_bind.
  { apply (related_for_each B1 B2 (partition_rel (fresh_rel B1 B2)));
      [|constructor].
    intros i sd1 sd2 Hsd.
    do 5 rel_step.
    eapply related_bind;
      [apply related_df_select; apply fresh_loc_rel; exact Hft|].
    intros part1 part2 Hpart.
    rel_step. apply related_ret. now apply partition_rel_set. }
  intros sd1 sd2 Hsd.
  do 5 rel_step.
  eapply related_bind.
  { apply (related_for_each B1 B2 eq); [|reflexivity].
    intros i reps ? <-. do 5 rel_step. now apply related_ret. }
  intros reps ? <-.
  eapply related_bind.
  { apply (related_for_each B1 B2 eq); [|reflexivity].
    intros i fig ? <-. do 4 rel_step. now apply related_ret. }
  intros fig ? <-.
  eapply related_bind; [apply related_lift_eq|].
  intros [[[c p] dof] expected] ? <-.
  apply related_ret. repeat split; assumption.
Qed.

Lemma related_predictive (labels : dict Z string) (sd1 sd2 : dict string loc) :
  partition_rel (loc_rel B1 B2) sd1 sd2 ->
  related B1 B2 eq (predictive labels sd1) (predictive labels sd2).
Proof.
  intros Hsd. unfold predictive.
  eapply related_bind.
  { apply (related_for_each B1 B2 eq); [|reflexivity].
    intros i dic ? <-. rel_step.
    eapply related_bind;
      [apply related_lift, partition_rel_getitem; exact Hsd|].
    intros part1 part2 Hpart.
    do 3 rel_step. now apply related_ret. }
  intros dic ? <-. now apply related_ret.
Qed.

Lemma related_ability (self1 self2 : FairDetect) (p1 p2 s1 s2 : loc) :
  loc_rel B1 B2 (y_test self1) (y_test self2) ->
  loc_rel B1 B2 p1 p2 -> loc_rel B1 B2 s1 s2 ->
  related B1 B2 eq (ability self1 p1 s1) (ability self2 p2 s2).
Proof.
  intros Hy Hp Hs. unfold ability. do 3 rel_step. apply related_lift_eq.
Qed.

Lemma related_ability_metrics (mf : MetricFrame) :
  related B1 B2 eq (ability_metrics mf) (ability_metrics mf).
Proof.
  unfold ability_metrics.
  apply (related_for_each B1 B2 eq); [|reflexivity].
  intros kv [] ? <-. apply related_emit.
Qed.

End RelationalRuns.

(** * Caller data is left alone *)

Lemma grows_refl w : grows w w.
Proof. exists []. now rewrite app_nil_r. Qed.

Lemma grows_trans w1 w2 w3 : grows w1 w2 -> grows w2 w3 -> grows w1 w3.
Proof.
  intros [x1 H1] [x2 H2]. exists (x1 ++ x2). now rewrite H2, H1, app_assoc.
Qed.

Lemma grows_lookup w w' l o :
  grows w w' -> heap w !! l = Some o -> heap w' !! l = Some o.
Proof. intros [ext ->]. apply lookup_app_l_Some. Qed.

Lemma extends_grows w w' : extends w w' -> grows w w'.
Proof. intros [Hh _]. exact Hh. Qed.

Lemma append_only_heap {A} (c : M A) : append_only c -> heap_append_only c.
Proof. intros Hc w. apply extends_grows, Hc. Qed.

Lemma heap_append_only_bind {A B} (c : M A) (k : A -> M B) :
  heap_append_only c -> (forall a, heap_append_only (k a)) ->
  heap_append_only (bind c k).
Proof.
  intros Hc Hk w. unfold bind. specialize (Hc w).
  destruct (c w) as [[e|a] w']; simpl in *; [exact Hc|].
  eapply grows_trans; [exact Hc | apply Hk].
Qed.

Lemma heap_append_only_randrange0 n : heap_append_only (randrange0 n).
Proof.
  intros w. unfold randrange0, grows.
  destruct n; simpl; exists []; now rewrite app_nil_r.
Qed.

Lemma heap_append_only_random_decision_process ac :
  heap_append_only (random_decision_process ac).
Proof.
  unfold random_decision_process.
  repeat first
    [ apply heap_append_only_bind; [|intros]
    | apply heap_append_only_randrange0
    | apply append_only_heap; solve [auto with append_only] ].
Qed.

Lemma append_only_ability self p s : append_only (ability self p s).
Proof. unfold ability. append_only_tac. Qed.

Lemma append_only_predictive labels sd : append_only (predictive labels sd).
Proof. unfold predictive. append_only_tac. Qed.

Lemma append_only_ability_metrics mf : append_only (ability_metrics mf).
Proof. unfold ability_metrics. append_only_tac. Qed.

(** The part of [understand_shap] after the second assignment of the labels
    only adds objects. *)
Lemma understand_shap_tail_grows (ft : loc) (sensitive : string) (g tg : Z) :
  heap_append_only
    (let* (x_axis, affect_character) := compare_to_true_class ft sensitive g tg in
     let fig := [mkBar x_axis affect_character None None] in
     let* _ := emit (Print [PStr "Affected Attribute Comparison"]) in
     let* _ := emit (Print [PStr "Average Comparison to True Class Members"]) in
     let* _ := emit (FigShow fig) in
     let* (affected_class, x_axis, affect_character) :=
       compare_to_all ft sensitive g tg in
     let fig := [mkBar x_axis affect_character None None] in
     let* _ := emit (Print [PStr "Average Comparison to All Members"]) in
     let* _ := emit (FigShow fig) in
     random_decision_process affected_class).
Proof.
  apply heap_append_only_bind; [apply append_only_heap; auto with append_only|].
  intros [xs cs].
  do 3 (apply heap_append_only_bind; [apply append_only_heap; auto with append_only|intros _]).
  apply heap_append_only_bind; [apply append_only_heap; auto with append_only|].
  intros [[ac xs'] cs'].
  do 2 (apply heap_append_only_bind; [apply append_only_heap; auto with append_only|intros _]).
  apply heap_append_only_random_decision_process.
Qed.

Lemma understand_shap_grows (self : FairDetect) (labels : dict Z string)
    (sensitive : string) (g tg : Z) :
  heap_append_only (understand_shap self labels sensitive g tg).
Proof.
  intros w. change (wp (understand_shap self labels sensitive g tg)
                       (fun _ w' => grows w w') w).
  unfold understand_shap. apply wp_bind.
  eapply wp_conseq; [apply shap_setup_spec|].
  intros [e|[ft sv]] w1 [_ [_ Hres]]; [exact Hres|].
  destruct Hres as (dX & ys & d1 & d2 & HX & Hy & _ & _ & _ & -> & Hh1).
  apply wp_bind. apply wp_append_only; [apply append_only_importance_comparison|].
  intros r w2 [[ext2 Hh2] _].
  assert (Hh2' : heap w2 = heap w ++ ODataFrame d2 :: ext2)
    by (rewrite Hh2, Hh1, <- app_assoc; reflexivity).
  destruct r as [e|[]]; [now exists (ODataFrame d2 :: ext2)|].
  apply wp_bind.
  eapply wp_relabel; [exact Hh2' | reflexivity | exact HX | exact Hy |].
  destruct (df_set d2 "t" ys) as [e|d3]; [now exists (ODataFrame d2 :: ext2)|].
  destruct (df_set d3 "p" (predict dX)) as [e|d4];
    intros w3 Hh3 _ _; [now exists (ODataFrame d3 :: ext2)|].
  assert (Hg3 : grows w w3) by now exists (ODataFrame d4 :: ext2).
  pose proof (understand_shap_tail_grows (length (heap w)) sensitive g tg w3) as Htail.
  unfold wp. eapply grows_trans; [exact Hg3 | exact Htail].
Qed.

Lemma partition_rel_fresh B (sd : dict string loc) :
  partition_rel (fresh_rel B B) sd sd ->
  Forall (fun kv => (length (heap B) <= snd kv)%nat) sd.
Proof.
  intros Hsd. apply List.Forall_forall. intros kv Hin.
  unfold partition_rel in Hsd.
  apply Forall2_same_length_lookup in Hsd as [_ Hsd].
  apply list_elem_of_In, list_elem_of_lookup in Hin as [i Hi].
  destruct (Hsd i kv kv Hi Hi) as [_ (k & Hk & _)].
  destruct kv as [name l]. simpl in *. unfold loc in *. lia.
Qed.

(** C8.  No analysis changes an object the caller owns.  After
    [representation], [ability], [predictive] or [understand_shap], whether
    the call returned or raised, the heap is the heap before the call, every
    object unchanged and at its location ([X_test], [y_test] and the
    predictions among them), followed by the objects the call created; and
    the frames of the partition [representation] returns are among the
    created ones. *)
Theorem analyses_leave_caller_data_unchanged (w : world) :
  (forall (X y predictions : loc) (sensitive : string) (labels : dict Z string),
     is_Some (heap w !! X) -> is_Some (heap w !! y) ->
     is_Some (heap w !! predictions) ->
     let run := representation X y sensitive labels predictions w in
     grows w (snd run)
     /\ forall table sens_df fig p,
          fst run = inr (table, sens_df, fig, p) ->
          Forall (fun kv => (length (heap w) <= snd kv)%nat) sens_df)
  /\ (forall (self : FairDetect) (predictions sen_feat_test : loc),
        grows w (snd (ability self predictions sen_feat_test w)))
  /\ (forall (labels : dict Z string) (sens_df : dict string loc),
        grows w (snd (predictive labels sens_df w)))
  /\ (forall (self : FairDetect) (labels : dict Z string) (sensitive : string)
             (affected_group affected_target : Z),
        grows w (snd (understand_shap self labels sensitive
                        affected_group affected_target w))).
Proof.
  split; [|split; [|split]].
  - intros X y predictions sensitive labels [oX HX] [oy Hy] [op Hp] run.
    assert (HrX : loc_rel w w X X) by (left; now exists oX).
    assert (Hry : loc_rel w w y y) by (left; now exists oy).
    assert (Hrp : loc_rel w w predictions predictions) by (left; now exists op).
    destruct (related_representation w w X X y y predictions predictions
                sensitive labels HrX Hry Hrp w w (sim_start w w))
      as [[(ext & Hh & _) _] Hout].
    fold run in Hh, Hout. split; [now exists ext|].
    intros table sens_df fig p Hrun. rewrite Hrun in Hout. simpl in Hout.
    destruct Hout as (_ & Hsd & _). simpl in Hsd.
    now apply partition_rel_fresh.
  - intros self predictions sen_feat_test.
    apply extends_grows, append_only_ability.
  - intros labels sens_df. apply extends_grows, append_only_predictive.
  - intros self labels sensitive g tg. apply understand_shap_grows.
Qed.

(** * Loops that may fail *)

(** A loop whose body keeps an invariant when it succeeds and establishes
    [F] when it raises. *)
Lemma wp_for_each_post {A S} (l : list A) (body : S -> A -> M S)
    (I : list A -> S -> world -> Prop) (F : exn -> world -> Prop)
    (s : S) (w : world) :
  I [] s w ->
  (forall done a s w, I done s w -> In a l ->
     wp (body s a) (fun r w' => match r with
                                | inl e => F e w'
                                | inr s' => I (done ++ [a]) s' w'
                                end) w) ->
  wp (for_each l s body) (fun r w' => match r with
                                      | inl e => F e w'
                                      | inr s' => I l s' w'
                                      end) w.
Proof.
  intros HI Hbody.
  enough (Hgen : forall done, I done s w ->
            wp (for_each l s body)
               (fun r w' => match r with
                            | inl e => F e w'
                            | inr s' => I (done ++ l) s' w'
                            end) w)
    by (exact (Hgen [] HI)).
  clear HI. revert s w Hbody.
  induction l as [|a l IH]; intros s w Hbody done HI.
  - simpl. apply wp_ret. now rewrite app_nil_r.
  - simpl. apply wp_bind.
    eapply wp_conseq; [apply (Hbody done a s w HI); now left|].
    intros [e|s'] w' HI'; [exact HI'|].
    replace (done ++ a :: l) with ((done ++ [a]) ++ l)
      by (now rewrite <- app_assoc).
    apply IH; [|exact HI'].
    intros done' a' s'' w'' HI'' Ha'. apply Hbody; [exact HI''|now right].
Qed.

Lemma list_getitem_pair {A} (a b : A) (i : Z) :
  match list_getitem [a; b] i with
  | inl e => e = IndexError /\ ~ (-2 <= i <= 1)%Z
  | inr _ => (-2 <= i <= 1)%Z
  end.
Proof.
  unfold list_getitem. cbn [length].
  destruct (Z.ltb_spec i 0) as [Hneg|Hpos].
  - destruct (Z.ltb_spec (Z.of_nat 2 + i) 0) as [Hlow|Hlow]; cbn [orb].
    + split; [reflexivity | lia].
    + destruct (Z.leb_spec (Z.of_nat 2) (Z.of_nat 2 + i)) as [Hhigh|Hhigh]; [lia|].
      assert (Hi : i = (-2)%Z \/ i = (-1)%Z) by lia.
      destruct Hi as [-> | ->]; simpl; lia.
  - destruct (Z.ltb_spec i 0) as [Hlow|Hlow]; [lia|]. cbn [orb].
    destruct (Z.leb_spec (Z.of_nat 2) i) as [Hhigh|Hhigh].
    + split; [reflexivity | lia].
    + assert (Hi : i = 0%Z \/ i = 1%Z) by lia.
      destruct Hi as [-> | ->]; simpl; lia.
Qed.

(** * What [representation] returns and when it raises *)

Lemma representation_table_inv (X d2 : DataFrame) (y p : Series) :
  representation_table X y p = inr d2 ->
  df_len d2 = df_len X
  /\ length y = df_len X /\ length p = df_len X
  /\ df_get d2 "t" = inr y /\ df_get d2 "p" = inr p
  /\ df_set d2 "p" p = inr d2 /\ df_set d2 "t" y = inr d2
  /\ forall c, c <> "p"%string -> c <> "t"%string -> df_get d2 c = df_get X c.
Proof.
  unfold representation_table.
  destruct (df_set X "p" p) as [e|d1] eqn:H1; [discriminate|]. intros H2.
  pose proof (df_set_inv _ _ _ _ H1) as [Lp E1].
  pose proof (df_set_inv _ _ _ _ H2) as [Ly E2].
  assert (Ld1 : df_len d1 = df_len X) by (subst d1; reflexivity).
  assert (Ld : df_len d2 = df_len X) by (subst d2; simpl; exact Ld1).
  assert (Gt : df_get d2 "t" = inr y) by exact (df_get_set_same _ _ _ _ H2).
  assert (Gp : df_get d2 "p" = inr p).
  { rewrite (df_get_set_other _ _ "t" "p" _ ltac:(discriminate) H2).
    exact (df_get_set_same _ _ _ _ H1). }
  split; [exact Ld|]. split; [congruence|]. split; [exact Lp|].
  split; [exact Gt|]. split; [exact Gp|].
  split; [apply df_set_idem; congruence|].
  split; [apply df_set_idem; congruence|].
  intros c Hp Ht.
  rewrite (df_get_set_other _ _ "t" c _ ltac:(congruence) H2).
  exact (df_get_set_other _ _ "p" c _ ltac:(congruence) H1).
Qed.

Lemma partition_of_step (labels : dict Z string) (base : nat)
    (sens_df : dict string loc) (done : list Z) (i : Z) (name : string) :
  partition_of labels base sens_df done ->
  dict_get labels i = Some name ->
  partition_of labels base (dict_set sens_df name (base + length done)%nat)
    (done ++ [i]).
Proof.
  intros [Hfrom Hto] Hname. split.
  - intros name' l Hl. destruct (decide (name = name')) as [<-|Hne].
    + rewrite dict_get_set_same in Hl. injection Hl as <-.
      exists (length done), i. split; [reflexivity|]. split; [|exact Hname].
      apply list_lookup_middle. reflexivity.
    + rewrite dict_get_set_other in Hl by exact Hne.
      destruct (Hfrom name' l Hl) as (k & j & -> & Hk & Hj).
      exists k, j. split; [reflexivity|]. split; [|exact Hj].
      now apply lookup_app_l_Some.
  - intros j name' Hj Hname'.
    apply in_app_or in Hj as [Hj|[<-|[]]].
    + apply dict_get_set_is_Some. eapply Hto; eassumption.
    + assert (name' = name) as -> by congruence.
      rewrite dict_get_set_same. eauto.
Qed.

Lemma representation_outcome (X y predictions : loc) (sensitive : string)
    (labels : dict Z string) (w : world) (dX d2 : DataFrame) (ys ps s : Series) :
  heap w !! X = Some (ODataFrame dX) ->
  heap w !! y = Some (OArray ys) ->
  heap w !! predictions = Some (OArray ps) ->
  representation_table dX ys ps = inr d2 ->
  df_get dX sensitive = inr s ->
  sensitive <> "p"%string -> sensitive <> "t"%string ->
  labels <> [] ->
  wp (representation X y sensitive labels predictions)
     (fun r w' =>
        heap w' = heap w ++ ODataFrame d2 :: subgroup_frames d2 s (dict_keys labels)
        /\ rng w' = rng w /\ stdout w' = stdout w
        /\ match r with
           | inl e => representation_failure labels s ys e
           | inr (table, sens_df, fig, p) =>
               table = tabulate_T (crosstab_normalize_index s ys) (dict_values labels)
               /\ (exists c dof expected,
                     chi2_contingency (ct_values (crosstab s ys))
                     = inr (c, p, dof, expected))
               /\ (forall i, In i (dict_keys labels) -> key_usable s ys i)
               /\ partition_of labels (S (length (heap w))) sens_df (dict_keys labels)
               /\ (one_key_per_name labels -> fig = representation_fig labels s ys)
           end) w.
Proof.
  intros HX Hy Hp Htab Hs Hnp Hnt Hne.
  pose proof Htab as Htab'. unfold representation_table in Htab'.
  destruct (df_set dX "p" ps) as [e|d1] eqn:Hd1; [discriminate|].
  rename Htab' into Hd2.
  destruct (representation_table_inv _ _ _ _ Htab)
    as (Ld2 & Lys & Lps & G2t & G2p & I2p & I2t & Hcols).
  assert (G2s : df_get d2 sensitive = inr s) by (rewrite Hcols; assumption).
  unfold representation.
  apply wp_bind. eapply wp_df_copy; [exact HX|]. intros w1 Hh1 Hr1 Ho1.
  (* the partition loop *)
  apply wp_bind. eapply wp_conseq.
  { apply (wp_for_each (dict_keys labels) _
             (fun done (sens_df : dict string loc) w' =>
                exists dft,
                  heap w' = heap w ++ ODataFrame dft :: subgroup_frames d2 s done
                  /\ rng w' = rng w /\ stdout w' = stdout w
                  /\ ((done = [] /\ dft = dX) \/ dft = d2)
                  /\ partition_of labels (S (length (heap w))) sens_df done)).
    - exists dX. split; [exact Hh1|]. split; [exact Hr1|]. split; [exact Ho1|].
      split; [left; now split|]. split; [intros name l; discriminate | intros i name []].
    - intros done i sens_df w' (dft & Hh & Hr & Ho & Hdft & Hpart) Hi.
      apply wp_bind, wp_read_array. rewrite Hh, (lookup_old_heap _ _ _ _ Hp).
      apply wp_bind. eapply wp_df_setitem; [rewrite Hh; apply lookup_middle_heap|].
      assert (Hset : exists d1', df_set dft "p" ps = inr d1'
                                 /\ df_set d1' "t" ys = inr d2).
      { destruct Hdft as [[_ ->]| ->]; [exists d1 | exists d2]; now split. }
      destruct Hset as (d1' & Hd1' & Hd2'). rewrite Hd1'.
      intros w2 Hh2 Hr2 Ho2. rewrite Hh, insert_middle_heap in Hh2.
      apply wp_bind, wp_read_array. rewrite Hh2, (lookup_old_heap _ _ _ _ Hy).
      apply wp_bind. eapply wp_df_setitem; [rewrite Hh2; apply lookup_middle_heap|].
      rewrite Hd2'. intros w3 Hh3 Hr3 Ho3. rewrite Hh2, insert_middle_heap in Hh3.
      apply wp_bind. eapply wp_df_getitem; [rewrite Hh3; apply lookup_middle_heap|].
      rewrite G2s.
      apply wp_bind. eapply wp_df_select; [rewrite Hh3; apply lookup_middle_heap|].
      intros w4 Hh4 Hr4 Ho4.
      destruct (dict_get_keys labels i Hi) as [name Hname].
      apply wp_bind, wp_lift. unfold dict_getitem. rewrite Hname.
      apply wp_ret. eexists. split; [reflexivity|].
      exists d2. split; [|split; [congruence | split; [congruence | split; [now right|]]]].
      + rewrite Hh4, Hh3. unfold subgroup_frames. rewrite map_app, <- app_assoc.
        reflexivity.
      + replace (length (heap w3))
          with (S (length (heap w)) + length done)%nat.
        * now apply partition_of_step.
        * rewrite Hh3, length_app. simpl. unfold subgroup_frames.
          rewrite length_map. lia. }
  intros r w2 (sens_df & -> & dft & Hh2 & Hr2 & Ho2 & Hdft & Hpart).
  assert (Hdft' : dft = d2).
  { destruct Hdft as [[Hnil _]| ->]; [|reflexivity].
    destruct labels; [contradiction | discriminate]. }
  subst dft.
  assert (Hft : heap w2 !! length (heap w) = Some (ODataFrame d2))
    by (rewrite Hh2; apply lookup_middle_heap).
  assert (HX2 : heap w2 !! X = Some (ODataFrame dX))
    by (rewrite Hh2; now apply lookup_old_heap).
  assert (Hy2 : heap w2 !! y = Some (OArray ys))
    by (rewrite Hh2; now apply lookup_old_heap).
  (* contingency tables and the chi-square test *)
  apply wp_bind. eapply wp_df_getitem; [exact Hft|]. rewrite G2s.
  apply wp_bind. eapply wp_df_getitem; [exact Hft|]. rewrite G2t.
  apply wp_bind, wp_lift.
  destruct (chi2_contingency (ct_values (crosstab s ys)))
    as [e|[[[c p] dof] expected]] eqn:Hchi.
  { repeat (split; [assumption|]). now left. }
  assert (Hacc : exists v, chi2_contingency (ct_values (crosstab s ys)) = inr v)
    by (rewrite Hchi; eauto).
  apply wp_bind. eapply wp_df_getitem; [exact Hft|]. rewrite G2s.
  apply wp_bind. eapply wp_df_getitem; [exact Hft|]. rewrite G2t.
  (* the shares of the groups and of the labels *)
  apply wp_bind. eapply wp_conseq.
  { apply (wp_for_each_post (dict_keys labels) _
             (fun done (reps : dict string float * dict string float) w' =>
                w' = w2
                /\ (forall i, In i done ->
                      count_eq s (inject_Z i) <> 0%Z /\ count_eq ys (inject_Z i) <> 0%Z)
                /\ (forall i name, In i done -> dict_get labels i = Some name ->
                      is_Some (dict_get (fst reps) name)
                      /\ is_Some (dict_get (snd reps) (pretty i)))
                /\ (forall i, In i done -> In i (dict_keys labels))
                /\ (one_key_per_name labels ->
                    forall i name, In i done -> dict_get labels i = Some name ->
                      dict_get (fst reps) name = Some (share s i)
                      /\ dict_get (snd reps) (pretty i) = Some (share ys i)))
             (fun e w' =>
                w' = w2 /\ e = KeyError
                /\ exists i, In i (dict_keys labels)
                             /\ (count_eq s (inject_Z i) = 0%Z
                                 \/ count_eq ys (inject_Z i) = 0%Z))).
    - split; [reflexivity|]. split; [intros i []|]. split; [intros i name []|].
      split; [intros i [] | intros _ i name []].
    - intros done i reps w' (-> & Hcnt & Hinv & Hsub & Hval) Hi.
      destruct (dict_get_keys labels i Hi) as [name Hname].
      apply wp_bind. eapply wp_df_getitem; [exact HX2|]. rewrite Hs.
      apply wp_bind, wp_lift. unfold value_share at 1.
      destruct (Z.eqb_spec (count_eq s (inject_Z i)) 0) as [Hzs|Hzs].
      { split; [reflexivity|]. split; [reflexivity|]. exists i. auto. }
      apply wp_bind, wp_lift. unfold dict_getitem. rewrite Hname.
      apply wp_bind, wp_read_array. rewrite Hy2.
      apply wp_bind, wp_lift. unfold value_share at 1.
      destruct (Z.eqb_spec (count_eq ys (inject_Z i)) 0) as [Hzy|Hzy].
      { split; [reflexivity|]. split; [reflexivity|]. exists i. auto. }
      apply wp_ret. split; [reflexivity|]. split; [|split; [|split]].
      + intros j Hj. apply in_app_or in Hj as [Hj|[<-|[]]]; [now apply Hcnt | now split].
      + intros i' name' Hi' Hname'. cbn [fst snd].
        apply in_app_or in Hi' as [Hi'|[<-|[]]].
        * destruct (Hinv i' name' Hi' Hname') as [H1 H2].
          split; now apply dict_get_set_is_Some.
        * assert (name' = name) as -> by congruence.
          rewrite !dict_get_set_same. split; eauto.
      + intros j Hj. apply in_app_or in Hj as [Hj|[<-|[]]]; [now apply Hsub | exact Hi].
      + intros Hinj i' name' Hi' Hname'. cbn [fst snd].
        assert (Hi'k : In i' (dict_keys labels)).
        { apply in_app_or in Hi' as [Hi'|[<-|[]]]; [now apply Hsub | exact Hi]. }
        split.
        * destruct (decide (name = name')) as [<-|Hnn].
          -- rewrite dict_get_set_same.
             now rewrite (Hinj i i' name Hi Hi'k Hname Hname').
          -- rewrite dict_get_set_other by exact Hnn.
             apply in_app_or in Hi' as [Hi'|[<-|[]]]; [|congruence].
             exact (proj1 (Hval Hinj i' name' Hi' Hname')).
        * destruct (decide (pretty i = pretty i')) as [Hpp|Hpp].
          -- apply (inj pretty) in Hpp. subst i'. now rewrite dict_get_set_same.
          -- rewrite dict_get_set_other by exact Hpp.
             apply in_app_or in Hi' as [Hi'|[<-|[]]]; [|congruence].
             exact (proj2 (Hval Hinj i' name' Hi' Hname')). }
  intros [e|reps] w3.
  { intros (-> & -> & Hbad). repeat (split; [assumption|]).
    right. left. auto. }
  intros (-> & Hcnt & Hreps & _ & Hval).
  (* the two bar charts *)
  apply wp_bind. eapply wp_conseq.
  { apply (wp_for_each_post (dict_keys labels) _
             (fun done (fig : figure) w' =>
                w' = w2 /\ (forall i, In i done -> (-2 <= i <= 1)%Z)
                /\ (one_key_per_name labels ->
                    fig = flat_map (representation_bars labels s ys) done))
             (fun e w' =>
                w' = w2 /\ e = IndexError
                /\ exists i, In i (dict_keys labels) /\ ~ (-2 <= i <= 1)%Z)).
    - split; [reflexivity|]. split; [intros i [] | reflexivity].
    - intros done i fig w' (-> & Hrange & Hfig) Hi.
      destruct (dict_get_keys labels i Hi) as [name Hname].
      destruct (Hreps i name Hi Hname) as [[ys1 Hy1] [ys2 Hy2']].
      apply wp_bind, wp_lift. unfold dict_getitem at 1. rewrite Hname.
      apply wp_bind, wp_lift. unfold dict_getitem at 1. rewrite Hy1.
      apply wp_bind, wp_lift. unfold dict_getitem at 1. rewrite Hy2'.
      apply wp_bind, wp_lift.
      pose proof (list_getitem_pair "orange"%string "blue"%string i) as Hcol.
      destruct (list_getitem ["orange"; "blue"]%string i) as [e|color] eqn:Hcolor.
      { destruct Hcol as [-> Hout]. split; [reflexivity|]. split; [reflexivity|].
        exists i. auto. }
      apply wp_ret. split; [reflexivity|]. split.
      + intros j Hj. apply in_app_or in Hj as [Hj|[<-|[]]]; [now apply Hrange | exact Hcol].
      + intros Hinj. rewrite flat_map_app. cbn [flat_map]. rewrite app_nil_r.
        rewrite (Hfig Hinj), <- app_assoc. f_equal.
        unfold representation_bars. rewrite Hname, Hcolor.
        destruct (Hval Hinj i name Hi Hname) as [Hv1 Hv2].
        assert (ys1 = share s i) as -> by congruence.
        assert (ys2 = share ys i) as -> by congruence.
        reflexivity. }
  intros [e|fig] w4.
  { intros (-> & -> & Hbad). repeat (split; [assumption|]).
    right. right. auto. }
  intros (-> & Hrange & Hfig).
  apply wp_bind, wp_lift.
  apply wp_ret. repeat (split; [assumption|]).
  split; [reflexivity|]. split; [eauto|]. split; [|split; [exact Hpart | exact Hfig]].
  intros i Hi. destruct (Hcnt i Hi). repeat split; try assumption; now apply Hrange.
Qed.

Lemma representation_table_total (X : DataFrame) (y p : Series) :
  length y = df_len X -> length p = df_len X ->
  exists d, representation_table X y p = inr d.
Proof.
  intros Ly Lp. unfold representation_table.
  destruct (df_set_length X "p" p Lp) as (d1 & -> & L1).
  destruct (df_set_length d1 "t" y ltac:(congruence)) as (d2 & -> & _).
  now exists d2.
Qed.

(** X1.  On well-formed inputs (a frame with the sensitive column, true
    labels and predictions of its length, a non-empty label map),
    [representation] returns normally exactly when the chi-square test
    accepts the contingency table of the sensitive column and the true labels
    and every key of the label map occurs in the sensitive column, occurs
    among the true labels, and lies between -2 and 1. *)
Theorem representation_returns_iff (X y predictions : loc) (sensitive : string)
    (labels : dict Z string) (w : world) (dX : DataFrame) (ys ps s : Series) :
  heap w !! X = Some (ODataFrame dX) ->
  heap w !! y = Some (OArray ys) ->
  heap w !! predictions = Some (OArray ps) ->
  length ys = df_len dX -> length ps = df_len dX ->
  df_get dX sensitive = inr s ->
  sensitive <> "p"%string -> sensitive <> "t"%string ->
  labels <> [] ->
  (exists r w', representation X y sensitive labels predictions w = (inr r, w'))
  <-> ((exists v, chi2_contingency (ct_values (crosstab s ys)) = inr v)
       /\ forall i, In i (dict_keys labels) -> key_usable s ys i).
Proof.
  intros HX Hy Hp Lys Lps Hs Hnp Hnt Hne.
  destruct (representation_table_total dX ys ps Lys Lps) as [d2 Htab].
  pose proof (representation_outcome X y predictions sensitive labels w dX d2
                ys ps s HX Hy Hp Htab Hs Hnp Hnt Hne) as Hwp.
  unfold wp in Hwp.
  destruct (representation X y sensitive labels predictions w) as [r w'].
  cbn [fst snd] in Hwp. destruct Hwp as (_ & _ & _ & Hres).
  split.
  - intros (r' & w'' & [= -> <-]).
    destruct r' as [[[table sens_df] fig] p].
    destruct Hres as (_ & (c & dof & ex & Hchi) & Hkeys & _ & _).
    split; [rewrite Hchi; eauto | exact Hkeys].
  - intros [[v Hchi] Hkeys]. destruct r as [e|r]; [|eauto].
    exfalso. destruct Hres as [Hbad|[(_ & _ & i & Hi & Hz)|(_ & _ & _ & i & Hi & Hout)]].
    + congruence.
    + destruct (Hkeys i Hi) as (Hcs & Hcy & _). tauto.
    + destruct (Hkeys i Hi) as (_ & _ & Hin). tauto.
Qed.

(** X2.  When [representation] raises on well-formed inputs, nothing has been
    printed and no random number drawn, and the exception is one of three:
    the one with which the chi-square test refused the table; [KeyError],
    when a key of the label map is missing from the sensitive column or from
    the true labels; [IndexError], when all keys are there and one lies
    outside -2..1. *)
Theorem representation_raises_classified (X y predictions : loc)
    (sensitive : string) (labels : dict Z string) (w w' : world)
    (dX : DataFrame) (ys ps s : Series) (e : exn) :
  heap w !! X = Some (ODataFrame dX) ->
  heap w !! y = Some (OArray ys) ->
  heap w !! predictions = Some (OArray ps) ->
  length ys = df_len dX -> length ps = df_len dX ->
  df_get dX sensitive = inr s ->
  sensitive <> "p"%string -> sensitive <> "t"%string ->
  labels <> [] ->
  representation X y sensitive labels predictions w = (inl e, w') ->
  representation_failure labels s ys e
  /\ stdout w' = stdout w /\ rng w' = rng w.
Proof.
  intros HX Hy Hp Lys Lps Hs Hnp Hnt Hne Hrun.
  destruct (representation_table_total dX ys ps Lys Lps) as [d2 Htab].
  pose proof (representation_outcome X y predictions sensitive labels w dX d2
                ys ps s HX Hy Hp Htab Hs Hnp Hnt Hne) as Hwp.
  unfold wp in Hwp. rewrite Hrun in Hwp. cbn [fst snd] in Hwp.
  destruct Hwp as (_ & Hr & Ho & Hres). auto.
Qed.

(** X3.  The partition [representation] returns: for a key whose label name
    no other key bears, [sens_df] maps the name to a new frame that holds
    the records of that sensitive group and no others, with every column of
    [X_test] and, in the columns [t] and [p], the true labels and the
    predictions of those records. *)
Theorem representation_partition (X y predictions : loc) (sensitive : string)
    (labels : dict Z string) (w w' : world) (dX : DataFrame) (ys ps s : Series)
    (table : Table) (sens_df : dict string loc) (fig : figure) (p : float) :
  heap w !! X = Some (ODataFrame dX) ->
  heap w !! y = Some (OArray ys) ->
  heap w !! predictions = Some (OArray ps) ->
  length ys = df_len dX -> length ps = df_len dX ->
  df_get dX sensitive = inr s ->
  sensitive <> "p"%string -> sensitive <> "t"%string ->
  labels <> [] ->
  representation X y sensitive labels predictions w
  = (inr (table, sens_df, fig, p), w') ->
  forall i name,
    In i (dict_keys labels) -> dict_get labels i = Some name ->
    (forall j, In j (dict_keys labels) -> dict_get labels j = Some name -> j = i) ->
    exists l d,
      dict_get sens_df name = Some l
      /\ (length (heap w) < l)%nat
      /\ heap w' !! l = Some (ODataFrame d)
      /\ df_len d = count_true (group_mask s i)
      /\ df_get d "t" = inr (select (group_mask s i) ys)
      /\ df_get d "p" = inr (select (group_mask s i) ps)
      /\ forall c v, df_get dX c = inr v -> c <> "p"%string -> c <> "t"%string ->
           df_get d c = inr (select (group_mask s i) v).
Proof.
  intros HX Hy Hp Lys Lps Hs Hnp Hnt Hne Hrun i name Hi Hname Huniq.
  destruct (representation_table_total dX ys ps Lys Lps) as [d2 Htab].
  pose proof (representation_outcome X y predictions sensitive labels w dX d2
                ys ps s HX Hy Hp Htab Hs Hnp Hnt Hne) as Hwp.
  unfold wp in Hwp. rewrite Hrun in Hwp. cbn [fst snd] in Hwp.
  destruct Hwp as (Hh & _ & _ & _ & _ & _ & (Hfrom & Hto) & _).
  destruct (representation_table_inv _ _ _ _ Htab)
    as (_ & _ & _ & G2t & G2p & _ & _ & Hcols).
  destruct (Hto i name Hi Hname) as [l Hl].
  destruct (Hfrom name l Hl) as (k & j & -> & Hk & Hj).
  assert (j = i) as ->.
  { apply Huniq; [|exact Hj]. apply list_elem_of_In. eapply list_elem_of_lookup_2.
    exact Hk. }
  exists (S (length (heap w)) + k)%nat, (df_filter d2 (group_mask s i)).
  split; [exact Hl|]. split; [lia|]. split.
  - rewrite Hh. rewrite lookup_app_r by lia.
    replace (S (length (heap w)) + k - length (heap w))%nat with (S k) by lia.
    simpl. unfold subgroup_frames. rewrite list_lookup_fmap, Hk. reflexivity.
  - split; [reflexivity|].
    split; [rewrite df_get_filter, G2t; reflexivity|].
    split; [rewrite df_get_filter, G2p; reflexivity|].
    intros c v Hc Hcp Hct. rewrite df_get_filter, Hcols, Hc by assumption.
    reflexivity.
Qed.

(** * From the partition to the precision test *)

Lemma binary_select (m : list bool) (v : Series) : binary v -> binary (select m v).
Proof.
  intros Hv. revert m. induction Hv as [|x v Hx Hv IH]; intros [|b m]; simpl;
    try constructor.
  destruct b; [constructor; [exact Hx | apply IH] | apply IH].
Qed.

Lemma select_same_length {A B} (m : list bool) (a : list A) (b : list B) :
  length a = length b -> length (select m a) = length (select m b).
Proof.
  revert a b. induction m as [|c m IH]; intros [|x a] [|z b]; simpl;
    try discriminate; try reflexivity.
  intros [= Hlen]. destruct c; simpl; now rewrite (IH a b Hlen).
Qed.

(** The members of a group that occurs in the sensitive column. *)
Lemma select_group_nonempty {A} (s : Series) (v : list A) (i : Z) :
  length v = length s -> count_eq s (inject_Z i) <> 0%Z ->
  select (group_mask s i) v <> [].
Proof.
  unfold group_mask, series_eq_scalar, count_eq.
  revert v. induction s as [|a s IH]; intros [|x v]; simpl; try discriminate;
    [intros _ Hc; now contradict Hc|].
  intros [= Hlen] Hc. destruct (Qeq_bool a (inject_Z i)); [discriminate|].
  now apply IH.
Qed.

Lemma predictive_run (labels : dict Z string) (sens_df : dict string loc)
    (w : world) :
  (forall i, In i (dict_keys labels) ->
     exists name p score, subgroup_precision labels sens_df w i name p score) ->
  exists precision_dic,
    predictive labels sens_df w
    = (inr (precision_dic,
            [mkBar (dict_values labels) (dict_values precision_dic) None None],
            snd (chisquare (times_100 (dict_values precision_dic)) None)), w)
    /\ forall i name p score,
         In i (dict_keys labels) ->
         subgroup_precision labels sens_df w i name p score ->
         dict_get precision_dic name = Some score.
Proof.
  intros Hall.
  pose proof (predictive_loop labels sens_df w Hall) as Hloop.
  unfold wp in Hloop. destruct Hloop as (dic & Hr & Hw & Hinv).
  exists dic. split; [|exact Hinv].
  unfold predictive. unfold bind at 1.
  destruct (for_each _ _ _ w) as [r w']. simpl in Hr, Hw. subst r w'.
  reflexivity.
Qed.

(** X4.  [predictive] composes with [representation]: on well-formed inputs
    with binary true labels and binary predictions, the partition that
    [representation] returns is one on which [predictive] returns normally,
    changing nothing; and for a key whose label name no other key bears,
    the precision reported under that name is the precision of the
    predictions on the records of that sensitive group. *)
Theorem predictive_after_representation (X y predictions : loc)
    (sensitive : string) (labels : dict Z string) (w w' : world)
    (dX : DataFrame) (ys ps s : Series)
    (table : Table) (sens_df : dict string loc) (fig : figure) (p : float) :
  heap w !! X = Some (ODataFrame dX) ->
  heap w !! y = Some (OArray ys) ->
  heap w !! predictions = Some (OArray ps) ->
  df_wf dX ->
  length ys = df_len dX -> length ps = df_len dX ->
  df_get dX sensitive = inr s ->
  sensitive <> "p"%string -> sensitive <> "t"%string ->
  labels <> [] ->
  binary ys -> binary ps ->
  representation X y sensitive labels predictions w
  = (inr (table, sens_df, fig, p), w') ->
  exists precision_dic pred_fig,
    predictive labels sens_df w'
    = (inr (precision_dic, pred_fig,
            snd (chisquare (times_100 (dict_values precision_dic)) None)), w')
    /\ forall i name,
         In i (dict_keys labels) -> dict_get labels i = Some name ->
         (forall j, In j (dict_keys labels) -> dict_get labels j = Some name -> j = i) ->
         exists score,
           precision_score (select (group_mask s i) ys) (select (group_mask s i) ps)
           = inr score
           /\ dict_get precision_dic name = Some score.
Proof.
  intros HX Hy Hp Hwf Lys Lps Hs Hnp Hnt Hne Bys Bps Hrun.
  pose proof (df_wf_get _ _ _ Hwf Hs) as Ls.
  destruct (representation_table_total dX ys ps Lys Lps) as [d2 Htab].
  pose proof (representation_outcome X y predictions sensitive labels w dX d2
                ys ps s HX Hy Hp Htab Hs Hnp Hnt Hne) as Hwp.
  unfold wp in Hwp. rewrite Hrun in Hwp. cbn [fst snd] in Hwp.
  destruct Hwp as (Hh & _ & _ & _ & _ & Hkeys & (Hfrom & Hto) & _).
  destruct (representation_table_inv _ _ _ _ Htab)
    as (_ & _ & _ & G2t & G2p & _ & _ & _).
  assert (Hframe : forall k j, dict_keys labels !! k = Some j ->
            heap w' !! (S (length (heap w)) + k)%nat
            = Some (ODataFrame (df_filter d2 (group_mask s j)))).
  { intros k j Hk. rewrite Hh. rewrite lookup_app_r by lia.
    replace (S (length (heap w)) + k - length (heap w))%nat with (S k) by lia.
    simpl. unfold subgroup_frames. rewrite list_lookup_fmap, Hk. reflexivity. }
  assert (Hscore : forall j, In j (dict_keys labels) ->
            precision_score (select (group_mask s j) ys) (select (group_mask s j) ps)
            = inr (if (count_eq (select (group_mask s j) ps) 1 =? 0)%Z then Fin 0
                   else int_truediv
                          (count_pairs (zip (select (group_mask s j) ys)
                                            (select (group_mask s j) ps)) 1 1)
                          (count_eq (select (group_mask s j) ps) 1))).
  { intros j Hj. apply precision_score_binary; try now apply binary_select.
    - apply select_same_length. congruence.
    - destruct (Hkeys j Hj) as (Hcount & _).
      apply select_group_nonempty; [|exact Hcount].
      congruence. }
  assert (Hsub : forall i name, In i (dict_keys labels) ->
            dict_get labels i = Some name ->
            exists j, In j (dict_keys labels) /\ dict_get labels j = Some name
              /\ forall score,
                   precision_score (select (group_mask s j) ys)
                                   (select (group_mask s j) ps) = inr score ->
                   subgroup_precision labels sens_df w' i name
                     (select (group_mask s j) ps) score).
  { intros i name Hi Hname.
    destruct (Hto i name Hi Hname) as [l Hl].
    destruct (Hfrom name l Hl) as (k & j & -> & Hk & Hj).
    exists j. split; [apply list_elem_of_In; eapply list_elem_of_lookup_2; exact Hk|].
    split; [exact Hj|]. intros score Hsc.
    exists (S (length (heap w)) + k)%nat, (df_filter d2 (group_mask s j)),
           (select (group_mask s j) ys).
    split; [exact Hname|]. split; [exact Hl|]. split; [now apply Hframe|].
    split; [rewrite df_get_filter, G2t; reflexivity|].
    split; [rewrite df_get_filter, G2p; reflexivity | exact Hsc]. }
  destruct (predictive_run labels sens_df w') as (dic & Hpred & Hdic).
  { intros i Hi. destruct (dict_get_keys labels i Hi) as [name Hname].
    destruct (Hsub i name Hi Hname) as (j & Hjin & _ & Hj).
    exists name. eexists. eexists. apply Hj, Hscore, Hjin. }
  exists dic. eexists. split; [exact Hpred|].
  intros i name Hi Hname Huniq.
  destruct (Hsub i name Hi Hname) as (j & Hj & Hjname & Hprec).
  assert (j = i) as -> by now apply Huniq.
  eexists. split; [apply Hscore, Hi|].
  eapply Hdic; [exact Hi|]. apply Hprec, Hscore, Hi.
Qed.

(** * Computations that print nothing *)

Lemma quiet_ret {A} (a : A) : quiet (ret a).
Proof. intros w. now split. Qed.

Lemma quiet_lift {A} (r : result A) : quiet (lift r).
Proof. intros w. now split. Qed.

Lemma quiet_bind {A B} (c : M A) (k : A -> M B) :
  quiet c -> (forall a, quiet (k a)) -> quiet (bind c k).
Proof.
  intros Hc Hk w. unfold bind. specialize (Hc w).
  destruct (c w) as [[e|a] w']; simpl in *; [exact Hc|].
  destruct Hc as [Ho Hr]. destruct (Hk a w') as [Ho' Hr'].
  split; congruence.
Qed.

Lemma quiet_read_frame l : quiet (read_frame l).
Proof. intros w. unfold read_frame. destruct (heap w !! l) as [[d|s]|]; now split. Qed.

Lemma quiet_read_array l : quiet (read_array l).
Proof. intros w. unfold read_array. destruct (heap w !! l) as [[d|s]|]; now split. Qed.

Lemma quiet_alloc o : quiet (alloc o).
Proof. intros w. now split. Qed.

Lemma quiet_write_frame l d : quiet (write_frame l d).
Proof. intros w. now split. Qed.

Lemma quiet_for_each {A S} (l : list A) (s : S) (body : S -> A -> M S) :
  (forall s a, quiet (body s a)) -> quiet (for_each l s body).
Proof.
  intros Hbody. revert s. induction l as [|a l IH]; intros s; simpl.
  - apply quiet_ret.
  - apply quiet_bind; [apply Hbody | intros s'; apply IH].
Qed.

Create HintDb quiet.

#[local] Hint Resolve quiet_ret quiet_lift quiet_read_frame quiet_read_array
  quiet_alloc quiet_write_frame : quiet.

Ltac quiet_tac :=
  repeat first
    [ apply quiet_bind
    | apply quiet_for_each
    | progress intros
    | match goal with |- quiet (let (_, _) := ?p in _) => destruct p end
    | solve [auto with quiet] ].

Lemma quiet_df_copy l : quiet (df_copy l).
Proof. unfold df_copy. quiet_tac. Qed.

Lemma quiet_df_setitem l c v : quiet (df_setitem l c v).
Proof. unfold df_setitem. quiet_tac. Qed.

Lemma quiet_df_getitem l c : quiet (df_getitem l c).
Proof. unfold df_getitem. quiet_tac. Qed.

Lemma quiet_df_select l m : quiet (df_select l m).
Proof. unfold df_select. quiet_tac. Qed.

#[local] Hint Resolve quiet_df_copy quiet_df_setitem quiet_df_getitem
  quiet_df_select : quiet.

Lemma quiet_select_misclassified tab : quiet (select_misclassified tab).
Proof. unfold select_misclassified. quiet_tac. Qed.

Lemma quiet_select_correct tab : quiet (select_correct tab).
Proof. unfold select_correct. quiet_tac. Qed.

Lemma quiet_select_group_label tab s c g t : quiet (select_group_label tab s c g t).
Proof. unfold select_group_label. quiet_tac. Qed.

Lemma quiet_feature_means tab s : quiet (feature_means tab s).
Proof. unfold feature_means. quiet_tac. Qed.

Lemma quiet_feature_names tab s : quiet (feature_names tab s).
Proof. unfold feature_names. quiet_tac. Qed.

#[local] Hint Resolve quiet_select_misclassified quiet_select_correct
  quiet_select_group_label quiet_feature_means quiet_feature_names : quiet.

Lemma quiet_compare_to_true_class ft s g t : quiet (compare_to_true_class ft s g t).
Proof. unfold compare_to_true_class. quiet_tac. Qed.

Lemma quiet_compare_to_all ft s g t : quiet (compare_to_all ft s g t).
Proof. unfold compare_to_all. quiet_tac. Qed.

Lemma quiet_representation X y sensitive labels predictions :
  quiet (representation X y sensitive labels predictions).
Proof. unfold representation. quiet_tac. Qed.

Lemma read_only_ret {A} (a : A) : read_only (ret a).
Proof. intros w. reflexivity. Qed.

Lemma read_only_lift {A} (r : result A) : read_only (lift r).
Proof. intros w. reflexivity. Qed.

Lemma read_only_bind {A B} (c : M A) (k : A -> M B) :
  read_only c -> (forall a, read_only (k a)) -> read_only (bind c k).
Proof.
  intros Hc Hk w. unfold bind. specialize (Hc w).
  destruct (c w) as [[e|a] w']; simpl in *; [exact Hc|].
  subst w'. apply Hk.
Qed.

Lemma read_only_read_frame l : read_only (read_frame l).
Proof. intros w. unfold read_frame. now destruct (heap w !! l) as [[d|s]|]. Qed.

Lemma read_only_read_array l : read_only (read_array l).
Proof. intros w. unfold read_array. now destruct (heap w !! l) as [[d|s]|]. Qed.

Lemma read_only_for_each {A S} (l : list A) (s : S) (body : S -> A -> M S) :
  (forall s a, read_only (body s a)) -> read_only (for_each l s body).
Proof.
  intros Hbody. revert s. induction l as [|a l IH]; intros s; simpl.
  - apply read_only_ret.
  - apply read_only_bind; [apply Hbody | intros s'; apply IH].
Qed.

Create HintDb read_only.

#[local] Hint Resolve read_only_ret read_only_lift read_only_read_frame
  read_only_read_array : read_only.

Ltac read_only_tac :=
  repeat first
    [ apply read_only_bind
    | apply read_only_for_each
    | progress intros
    | solve [auto with read_only] ].

Lemma read_only_df_getitem l c : read_only (df_getitem l c).
Proof. unfold df_getitem. read_only_tac. Qed.

#[local] Hint Resolve read_only_df_getitem : read_only.

Lemma read_only_ability self predictions sen_feat_test :
  read_only (ability self predictions sen_feat_test).
Proof. unfold ability. read_only_tac. Qed.

Lemma read_only_predictive labels sens_df : read_only (predictive labels sens_df).
Proof. unfold predictive. read_only_tac. Qed.

Lemma wp_quiet {A} (c : M A) (Q : result A -> world -> Prop) w :
  quiet c ->
  (forall r w', stdout w' = stdout w -> rng w' = rng w -> Q r w') ->
  wp c Q w.
Proof. intros Hc HQ. unfold wp. destruct (Hc w). now apply HQ. Qed.

Lemma wp_read_only {A} (c : M A) (Q : result A -> world -> Prop) w :
  read_only c -> (forall r, Q r w) -> wp c Q w.
Proof. intros Hc HQ. unfold wp. rewrite (Hc w). apply HQ. Qed.

(** X5.  The three statistical analyses are silent.  Whether they return or
    raise, [representation] prints nothing, shows no chart and draws no
    random number, and [ability] and [predictive] leave the whole world,
    heap included, exactly as they found it: everything the audit prints
    comes from [identify_bias], [ability_metrics] and [ability_plots]. *)
Theorem analyses_are_silent :
  (forall X y sensitive labels predictions,
     quiet (representation X y sensitive labels predictions))
  /\ (forall self predictions sen_feat_test,
        read_only (ability self predictions sen_feat_test))
  /\ (forall labels sens_df, read_only (predictive labels sens_df)).
Proof.
  split; [|split].
  - apply quiet_representation.
  - apply read_only_ability.
  - apply read_only_predictive.
Qed.

(** * The audit as a whole *)

Lemma count_eq_nonzero (v : Series) (x : Q) :
  count_eq v x <> 0%Z -> exists a, In a v /\ a == x.
Proof.
  unfold count_eq. intros Hc.
  destruct (List.filter (fun a => Qeq_bool a x) v) as [|a l] eqn:Hf;
    [now simpl in Hc|].
  assert (Hin : In a (List.filter (fun a => Qeq_bool a x) v))
    by (rewrite Hf; now left).
  apply filter_In in Hin as [Hin Ha]. exists a. split; [exact Hin|].
  now apply Qeq_bool_iff.
Qed.

(** A key that occurs among binary labels is 0 or 1. *)
Lemma binary_key_range (ys : Series) (i : Z) :
  binary ys -> count_eq ys (inject_Z i) <> 0%Z -> (-2 <= i <= 1)%Z.
Proof.
  intros Hb Hc. destruct (count_eq_nonzero _ _ Hc) as (a & Ha & Heq).
  pose proof (proj1 (List.Forall_forall _ _) Hb a Ha) as H01.
  destruct H01 as [H|H]; rewrite Heq in H; unfold Qeq in H; simpl in H; lia.
Qed.

Lemma partition_subgroups (labels : dict Z string) (sens_df : dict string loc)
    (w0 w' : world) (d2 : DataFrame) (s ys ps : Series) :
  heap w' = heap w0 ++ ODataFrame d2 :: subgroup_frames d2 s (dict_keys labels) ->
  partition_of labels (S (length (heap w0))) sens_df (dict_keys labels) ->
  df_get d2 "t" = inr ys -> df_get d2 "p" = inr ps ->
  forall i name, In i (dict_keys labels) -> dict_get labels i = Some name ->
    exists j, In j (dict_keys labels) /\ dict_get labels j = Some name
      /\ forall score,
           precision_score (select (group_mask s j) ys)
                           (select (group_mask s j) ps) = inr score ->
           subgroup_precision labels sens_df w' i name
             (select (group_mask s j) ps) score.
Proof.
  intros Hh [Hfrom Hto] G2t G2p i name Hi Hname.
  destruct (Hto i name Hi Hname) as [l Hl].
  destruct (Hfrom name l Hl) as (k & j & -> & Hk & Hj).
  exists j. split; [apply list_elem_of_In; eapply list_elem_of_lookup_2; exact Hk|].
  split; [exact Hj|]. intros score Hsc.
  exists (S (length (heap w0)) + k)%nat, (df_filter d2 (group_mask s j)),
         (select (group_mask s j) ys).
  split; [exact Hname|]. split; [exact Hl|]. split.
  - rewrite Hh. rewrite lookup_app_r by lia.
    replace (S (length (heap w0)) + k - length (heap w0))%nat with (S k) by lia.
    simpl. unfold subgroup_frames. rewrite list_lookup_fmap, Hk. reflexivity.
  - split; [rewrite df_get_filter, G2t; reflexivity|].
    split; [rewrite df_get_filter, G2p; reflexivity | exact Hsc].
Qed.

Lemma subgroup_precision_heap labels sens_df w w' i name p score :
  heap w' = heap w ->
  subgroup_precision labels sens_df w i name p score ->
  subgroup_precision labels sens_df w' i name p score.
Proof.
  intros Hh (l & d & t & H1 & H2 & H3 & H4). exists l, d, t.
  rewrite Hh. auto.
Qed.

Lemma wp_ability_metrics (mf : MetricFrame) Q w :
  Q (inr tt)
    (mkWorld (heap w) (rng w)
       (stdout w ++ map (fun kv => ability_verdict (fst kv) (snd kv))
                        (ability_p_values (by_group mf)))) ->
  wp (ability_metrics mf) Q w.
Proof.
  intros HQ. unfold wp, ability_metrics. now rewrite for_each_emit.
Qed.

(** X6.  The whole audit on good inputs.  When the test frame is well formed
    and has the sensitive column, the true labels and the predictions of the
    model are binary and of its length, every key of the non-empty label map
    occurs in the sensitive column and among the true labels, and the
    chi-square test accepts the contingency table, [identify_bias] returns
    normally, draws no random number, and its output is, in this order: the
    representation header, chart, table and verdict; the predictive header,
    chart and verdict; the verdicts of the tested rates; the chart of all
    metrics. *)
Theorem identify_bias_returns (self : FairDetect) (sensitive : string)
    (labels : dict Z string) (w : world) (dX : DataFrame) (ys s : Series)
    (c p : float) (dof : Z) (expected : list (list float)) :
  heap w !! X_test self = Some (ODataFrame dX) ->
  heap w !! y_test self = Some (OArray ys) ->
  df_wf dX ->
  length ys = df_len dX -> length (predict dX) = df_len dX ->
  df_get dX sensitive = inr s ->
  sensitive <> "p"%string -> sensitive <> "t"%string ->
  labels <> [] ->
  binary ys -> binary (predict dX) ->
  (forall i, In i (dict_keys labels) ->
     count_eq s (inject_Z i) <> 0%Z /\ count_eq ys (inject_Z i) <> 0%Z) ->
  chi2_contingency (ct_values (crosstab s ys)) = inr (c, p, dof, expected) ->
  exists w' rep_fig (precision_dic : dict string float) pred_fig mf,
    identify_bias self sensitive labels w = (inr tt, w')
    /\ metric_frame_of audit_metrics ys (predict dX) s = inr mf
    /\ stdout w'
       = stdout w ++
         audit_output sensitive rep_fig
           (tabulate_T (crosstab_normalize_index s ys) (dict_values labels)) p
           pred_fig (snd (chisquare (times_100 (dict_values precision_dic)) None))
           mf
    /\ rng w' = rng w.
Proof.
  intros HX Hy Hwf Lys Lps Hs Hnp Hnt Hne Bys Bps Hkeys Hchi.
  enough (Hwp : wp (identify_bias self sensitive labels)
            (fun r w' =>
               r = inr tt
               /\ exists rep_fig (precision_dic : dict string float) pred_fig mf,
                    metric_frame_of audit_metrics ys (predict dX) s = inr mf
                    /\ stdout w'
                       = stdout w ++
                         audit_output sensitive rep_fig
                           (tabulate_T (crosstab_normalize_index s ys)
                              (dict_values labels)) p pred_fig
                           (snd (chisquare (times_100 (dict_values precision_dic))
                                   None)) mf
                    /\ rng w' = rng w) w).
  { unfold wp in Hwp. destruct (identify_bias self sensitive labels w) as [r w'].
    cbn [fst snd] in Hwp. destruct Hwp as (-> & f & dic & pf & mf & H1 & H2 & H3).
    exists w', f, dic, pf, mf. auto. }
  destruct (representation_table_total dX ys (predict dX) Lys Lps) as [d2 Htab].
  destruct (representation_table_inv _ _ _ _ Htab)
    as (_ & _ & _ & G2t & G2p & _ & _ & _).
  pose proof (df_wf_get _ _ _ Hwf Hs) as Ls.
  unfold identify_bias.
  apply wp_bind, wp_read_frame. rewrite HX.
  apply wp_bind, wp_alloc. intros w1 Hh1 Hr1 Ho1.
  assert (HX1 : heap w1 !! X_test self = Some (ODataFrame dX))
    by (rewrite Hh1; now apply lookup_old_heap).
  assert (Hy1 : heap w1 !! y_test self = Some (OArray ys))
    by (rewrite Hh1; now apply lookup_old_heap).
  assert (Hp1 : heap w1 !! length (heap w) = Some (OArray (predict dX)))
    by (rewrite Hh1; apply lookup_snoc_heap).
  apply wp_bind. eapply wp_conseq.
  { exact (representation_outcome (X_test self) (y_test self) (length (heap w))
             sensitive labels w1 dX d2 ys (predict dX) s
             HX1 Hy1 Hp1 Htab Hs Hnp Hnt Hne). }
  intros [e|[[[table sens_df] rep_fig] rep_p]] w2 (Hh2 & Hr2 & Ho2 & Hres).
  { exfalso.
    destruct Hres as [Hbad|[(_ & _ & i & Hi & Hz)|(_ & _ & _ & i & Hi & Hout)]].
    - congruence.
    - destruct (Hkeys i Hi). tauto.
    - destruct (Hkeys i Hi) as [_ Hcy]. apply Hout.
      exact (binary_key_range ys i Bys Hcy). }
  destruct Hres as (-> & (c' & dof' & ex' & Hchi') & _ & Hpart & _).
  assert (rep_p = p) as -> by congruence.
  apply wp_bind, wp_emit. intros w3 Hh3 Hr3 Ho3.
  apply wp_bind, wp_emit. intros w4 Hh4 Hr4 Ho4.
  apply wp_bind, wp_emit. intros w5 Hh5 Hr5 Ho5.
  apply wp_bind, wp_emit. intros w6 Hh6 Hr6 Ho6.
  assert (Hh6' : heap w6 = heap w2) by congruence.
  destruct (predictive_run labels sens_df w6) as (dic & Hpred & _).
  { intros i Hi. destruct (dict_get_keys labels i Hi) as [name Hname].
    destruct (partition_subgroups labels sens_df w1 w2 d2 s ys (predict dX)
                Hh2 Hpart G2t G2p i name Hi Hname) as (j & Hjin & _ & Hj).
    exists name. eexists. eexists.
    eapply subgroup_precision_heap; [exact Hh6'|]. apply Hj.
    apply precision_score_binary; try now apply binary_select.
    - apply select_same_length. congruence.
    - apply select_group_nonempty; [congruence|]. apply (Hkeys j Hjin). }
  apply wp_bind. unfold wp at 1. rewrite Hpred. cbn [fst snd].
  apply wp_bind, wp_emit. intros w7 Hh7 Hr7 Ho7.
  apply wp_bind, wp_emit. intros w8 Hh8 Hr8 Ho8.
  apply wp_bind, wp_emit. intros w9 Hh9 Hr9 Ho9.
  assert (Hh9' : heap w9 = (heap w ++ [OArray (predict dX)])
                           ++ ODataFrame d2 :: subgroup_frames d2 s (dict_keys labels))
    by congruence.
  apply wp_bind. eapply wp_df_getitem.
  { rewrite Hh9'. apply lookup_old_heap, lookup_old_heap. exact HX. }
  rewrite Hs.
  apply wp_bind, wp_alloc. intros w10 Hh10 Hr10 Ho10.
  apply wp_bind. unfold ability.
  apply wp_bind, wp_read_array. rewrite Hh10, lookup_snoc_heap.
  apply wp_bind, wp_read_array.
  rewrite Hh10, Hh9',
    (lookup_old_heap _ _ _ _ (lookup_old_heap _ _ _ _ (lookup_old_heap _ _ _ _ Hy))).
  apply wp_bind, wp_read_array.
  rewrite Hh10, Hh9',
    (lookup_old_heap _ _ _ _ (lookup_old_heap _ _ _ _ (lookup_snoc_heap _ _))).
  apply wp_lift. fold audit_metrics.
  assert (Hmf : exists mf, metric_frame_of audit_metrics ys (predict dX) s = inr mf).
  { unfold metric_frame_of. rewrite decide_True by (split; congruence). eauto. }
  destruct Hmf as [mf Hmf]. rewrite Hmf.
  apply wp_bind, wp_ability_metrics.
  unfold ability_plots. apply wp_emit. cbn [heap rng stdout].
  intros w11 Hh11 Hr11 Ho11.
  split; [reflexivity|].
  exists rep_fig, dic, [mkBar (dict_values labels) (dict_values dic) None None], mf.
  split; [reflexivity|]. split; [|congruence].
  rewrite Ho11, Ho10, Ho9, Ho8, Ho7, Ho6, Ho5, Ho4, Ho3, Ho2, Ho1.
  unfold audit_output. rewrite <- !app_assoc. reflexivity.
Qed.

Lemma ability_spec (self : FairDetect) (predictions sen_feat_test : loc) (w : world) :
  wp (ability self predictions sen_feat_test)
     (fun r w' =>
        w' = w
        /\ match r with
           | inl _ => True
           | inr mf =>
               exists t p sens,
                 heap w !! y_test self = Some (OArray t)
                 /\ heap w !! predictions = Some (OArray p)
                 /\ heap w !! sen_feat_test = Some (OArray sens)
                 /\ metric_frame_of audit_metrics t p sens = inr mf
                 /\ mf_groups mf = unique_sorted sens
                 /\ dict_keys (by_group mf) = dict_keys audit_metrics
           end) w.
Proof.
  unfold ability.
  apply wp_bind, wp_read_array.
  destruct (heap w !! sen_feat_test) as [[d|sens]|] eqn:Hsens; try now split.
  apply wp_bind, wp_read_array.
  destruct (heap w !! y_test self) as [[d|t]|] eqn:Ht; try now split.
  apply wp_bind, wp_read_array.
  destruct (heap w !! predictions) as [[d|p]|] eqn:Hp; try now split.
  apply wp_lift. fold audit_metrics. split; [reflexivity|].
  destruct (metric_frame_of audit_metrics t p sens) as [e|mf] eqn:Hmf; [exact I|].
  exists t, p, sens. do 3 (split; [reflexivity|]). split; [exact Hmf|].
  unfold metric_frame_of in Hmf. destruct (decide _); [|discriminate].
  injection Hmf as <-. split; reflexivity.
Qed.

(** X7.  Whenever [identify_bias] returns normally, whatever the inputs, it
    has drawn no random number and has printed and shown exactly this, in
    this order: the representation header, chart, table and verdict; the
    predictive header, chart and verdict; one verdict for each of the four
    tested rates; the chart of all six metrics. *)
Theorem identify_bias_output (self : FairDetect) (sensitive : string)
    (labels : dict Z string) (w w' : world) :
  identify_bias self sensitive labels w = (inr tt, w') ->
  exists rep_fig cont_table rep_p pred_fig pred_p mf,
    stdout w'
    = stdout w ++ audit_output sensitive rep_fig cont_table rep_p pred_fig pred_p mf
    /\ dict_keys (ability_p_values (by_group mf)) = list_test
    /\ dict_keys (by_group mf) = dict_keys audit_metrics
    /\ rng w' = rng w.
Proof.
  intros Hrun.
  enough (Hwp : wp (identify_bias self sensitive labels)
            (fun r w' =>
               match r with
               | inl _ => True
               | inr _ =>
                   exists rep_fig cont_table rep_p pred_fig pred_p mf,
                     stdout w'
                     = stdout w ++ audit_output sensitive rep_fig cont_table rep_p
                                     pred_fig pred_p mf
                     /\ dict_keys (ability_p_values (by_group mf)) = list_test
                     /\ dict_keys (by_group mf) = dict_keys audit_metrics
                     /\ rng w' = rng w
               end) w).
  { unfold wp in Hwp. rewrite Hrun in Hwp. exact Hwp. }
  clear Hrun w'. unfold identify_bias.
  apply wp_bind, wp_read_frame.
  destruct (heap w !! X_test self) as [[dX|?]|]; try exact I.
  apply wp_bind, wp_alloc. intros w1 _ Hr1 Ho1.
  apply wp_bind, wp_quiet; [apply quiet_representation|].
  intros [e|[[[table sens_df] rep_fig] rep_p]] w2 Ho2 Hr2; [exact I|].
  apply wp_bind, wp_emit. intros w3 _ Hr3 Ho3.
  apply wp_bind, wp_emit. intros w4 _ Hr4 Ho4.
  apply wp_bind, wp_emit. intros w5 _ Hr5 Ho5.
  apply wp_bind, wp_emit. intros w6 _ Hr6 Ho6.
  apply wp_bind, wp_read_only; [apply read_only_predictive|].
  intros [e|[[dic pred_fig] pred_p]]; [exact I|].
  apply wp_bind, wp_emit. intros w7 _ Hr7 Ho7.
  apply wp_bind, wp_emit. intros w8 _ Hr8 Ho8.
  apply wp_bind, wp_emit. intros w9 _ Hr9 Ho9.
  apply wp_bind, wp_read_only; [apply read_only_df_getitem|].
  intros [e|s]; [exact I|].
  apply wp_bind, wp_alloc. intros w10 _ Hr10 Ho10.
  apply wp_bind. eapply wp_conseq; [apply ability_spec|].
  intros [e|mf] w11 [-> Hmf]; [exact I|].
  destruct Hmf as (t & p & sens & _ & _ & _ & Hmf & _ & Hkeys).
  apply wp_bind, wp_ability_metrics.
  unfold ability_plots. apply wp_emit. cbn [heap rng stdout].
  intros w12 _ Hr12 Ho12.
  exists rep_fig, table, rep_p, pred_fig, pred_p, mf.
  split; [|split; [|split; [exact Hkeys | congruence]]].
  - rewrite Ho12, Ho10, Ho9, Ho8, Ho7, Ho6, Ho5, Ho4, Ho3, Ho2, Ho1.
    unfold audit_output. rewrite <- !app_assoc. reflexivity.
  - unfold metric_frame_of in Hmf. destruct (decide _); [|discriminate].
    injection Hmf as <-. reflexivity.
Qed.

(** * Unknown columns and empty label maps *)

Lemma df_get_unknown (d : DataFrame) (c : string) :
  ~ In c (dict_keys (df_cols d)) -> df_get d c = inl KeyError.
Proof.
  intros Hc. unfold df_get, dict_getitem.
  destruct (dict_get (df_cols d) c) as [v|] eqn:Hg; [|reflexivity].
  exfalso. apply Hc. eapply dict_get_In. exact Hg.
Qed.

Lemma representation_unknown_column (X y predictions : loc) (sensitive : string)
    (labels : dict Z string) (w : world) (dX : DataFrame) (ys ps : Series) :
  heap w !! X = Some (ODataFrame dX) ->
  heap w !! y = Some (OArray ys) ->
  heap w !! predictions = Some (OArray ps) ->
  length ys = df_len dX -> length ps = df_len dX ->
  ~ In sensitive (dict_keys (df_cols dX)) ->
  sensitive <> "p"%string -> sensitive <> "t"%string ->
  wp (representation X y sensitive labels predictions)
     (fun r w' => r = inl KeyError /\ stdout w' = stdout w /\ rng w' = rng w) w.
Proof.
  intros HX Hy Hp Lys Lps Hmiss Hnp Hnt.
  pose proof (df_get_unknown dX sensitive Hmiss) as Hs.
  unfold representation.
  apply wp_bind. eapply wp_df_copy; [exact HX|]. intros w1 Hh1 Hr1 Ho1.
  apply wp_bind. destruct labels as [|[k name] labels]; cbn [dict_keys map fst for_each].
  - apply wp_ret.
    apply wp_bind. eapply wp_df_getitem; [rewrite Hh1; apply lookup_snoc_heap|].
    rewrite Hs. auto.
  - destruct (representation_table_total dX ys ps Lys Lps) as [d2 Htab].
    pose proof Htab as Htab'. unfold representation_table in Htab'.
    destruct (df_set dX "p" ps) as [e|d1] eqn:Hd1; [discriminate|].
    destruct (representation_table_inv _ _ _ _ Htab)
      as (_ & _ & _ & _ & _ & _ & _ & Hcols).
    apply wp_bind.
    apply wp_bind, wp_read_array. rewrite Hh1, (lookup_old_heap _ _ _ _ Hp).
    apply wp_bind. eapply wp_df_setitem; [rewrite Hh1; apply lookup_snoc_heap|].
    rewrite Hd1. intros w2 Hh2 Hr2 Ho2.
    rewrite Hh1 in Hh2.
    change (heap w ++ [ODataFrame dX]) with (heap w ++ ODataFrame dX :: []) in Hh2.
    rewrite insert_middle_heap in Hh2.
    apply wp_bind, wp_read_array. rewrite Hh2, (lookup_old_heap _ _ _ _ Hy).
    apply wp_bind. eapply wp_df_setitem; [rewrite Hh2; apply lookup_middle_heap|].
    rewrite Htab'. intros w3 Hh3 Hr3 Ho3. rewrite Hh2, insert_middle_heap in Hh3.
    apply wp_bind. eapply wp_df_getitem; [rewrite Hh3; apply lookup_middle_heap|].
    rewrite Hcols, Hs by assumption.
    split; [reflexivity|]. split; congruence.
Qed.

(** X8.  The documented [KeyError]: when the name given as the sensitive
    feature is not a column of the test frame, [identify_bias] raises
    [KeyError] before anything is printed or shown. *)
Theorem identify_bias_unknown_column (self : FairDetect) (sensitive : string)
    (labels : dict Z string) (w : world) (dX : DataFrame) (ys : Series) :
  heap w !! X_test self = Some (ODataFrame dX) ->
  heap w !! y_test self = Some (OArray ys) ->
  length ys = df_len dX -> length (predict dX) = df_len dX ->
  ~ In sensitive (dict_keys (df_cols dX)) ->
  sensitive <> "p"%string -> sensitive <> "t"%string ->
  exists w',
    identify_bias self sensitive labels w = (inl KeyError, w')
    /\ stdout w' = stdout w.
Proof.
  intros HX Hy Lys Lps Hmiss Hnp Hnt.
  enough (Hwp : wp (identify_bias self sensitive labels)
                   (fun r w' => r = inl KeyError /\ stdout w' = stdout w) w).
  { unfold wp in Hwp. destruct (identify_bias self sensitive labels w) as [r w'].
    cbn [fst snd] in Hwp. destruct Hwp as [-> Ho]. now exists w'. }
  unfold identify_bias.
  apply wp_bind, wp_read_frame. rewrite HX.
  apply wp_bind, wp_alloc. intros w1 Hh1 Hr1 Ho1.
  apply wp_bind. eapply wp_conseq.
  { eapply (representation_unknown_column (X_test self) (y_test self)
              (length (heap w)) sensitive labels w1 dX ys (predict dX));
      try assumption; rewrite Hh1;
      [now apply lookup_old_heap | now apply lookup_old_heap | apply lookup_snoc_heap]. }
  intros r w2 (-> & Ho2 & _). split; [reflexivity | congruence].
Qed.

(** X9.  [representation] needs a non-empty label map: with an empty one the
    column [t] is never written, and unless the test frame brings a column
    [t] of its own the call raises [KeyError], having printed nothing. *)
Theorem representation_empty_labels (X y predictions : loc) (sensitive : string)
    (w : world) (dX : DataFrame) :
  heap w !! X = Some (ODataFrame dX) ->
  ~ In "t"%string (dict_keys (df_cols dX)) ->
  exists w',
    representation X y sensitive [] predictions w = (inl KeyError, w')
    /\ stdout w' = stdout w.
Proof.
  intros HX Hmiss.
  enough (Hwp : wp (representation X y sensitive [] predictions)
                   (fun r w' => r = inl KeyError /\ stdout w' = stdout w) w).
  { unfold wp in Hwp. destruct (representation X y sensitive [] predictions w) as [r w'].
    cbn [fst snd] in Hwp. destruct Hwp as [-> Ho]. now exists w'. }
  unfold representation.
  apply wp_bind. eapply wp_df_copy; [exact HX|]. intros w1 Hh1 Hr1 Ho1.
  apply wp_bind. cbn [dict_keys map for_each]. apply wp_ret.
  apply wp_bind. eapply wp_df_getitem; [rewrite Hh1; apply lookup_snoc_heap|].
  destruct (df_get dX sensitive) as [e|s] eqn:Hs.
  { unfold df_get, dict_getitem in Hs.
    destruct (dict_get (df_cols dX) sensitive); [discriminate|].
    injection Hs as <-. now split. }
  apply wp_bind. eapply wp_df_getitem; [rewrite Hh1; apply lookup_snoc_heap|].
  rewrite (df_get_unknown dX "t" Hmiss). now split.
Qed.

(** * The attribution analysis from start to end *)

Lemma shap_setup_run (self : FairDetect) (w : world) (dX d2 : DataFrame)
    (ys : Series) (sv : explanation) :
  heap w !! X_test self = Some (ODataFrame dX) ->
  heap w !! y_test self = Some (OArray ys) ->
  working_table dX ys (predict dX) = inr d2 ->
  explain dX = inr sv ->
  wp (shap_setup self)
     (fun r w1 =>
        r = inr (length (heap w), sv)
        /\ heap w1 = heap w ++ [ODataFrame d2]
        /\ rng w1 = rng w /\ stdout w1 = stdout w) w.
Proof.
  intros HX Hy Hwt Hsv. unfold working_table in Hwt.
  destruct (df_set dX "t" ys) as [e|d1] eqn:Hd1; [discriminate|].
  unfold shap_setup.
  apply wp_bind. eapply wp_df_copy; [exact HX|]. intros w1 Hh1 Hr1 Ho1.
  apply wp_bind.
  eapply wp_relabel with (parts := []); [exact Hh1 | reflexivity | exact HX | exact Hy |].
  rewrite Hd1, Hwt. intros w2 Hh2 Hr2 Ho2.
  apply wp_bind, wp_read_frame. rewrite Hh2, (lookup_old_heap _ _ _ _ HX).
  apply wp_bind, wp_lift. rewrite Hsv. apply wp_ret.
  split; [reflexivity|]. split; [exact Hh2|]. split; congruence.
Qed.

Lemma working_table_total (X : DataFrame) (y p : Series) :
  length y = df_len X -> length p = df_len X ->
  exists d, working_table X y p = inr d.
Proof.
  intros Ly Lp. unfold working_table.
  destruct (df_set_length X "t" y Ly) as (d1 & -> & L1).
  destruct (df_set_length d1 "p" p ltac:(congruence)) as (d2 & -> & _).
  now exists d2.
Qed.

(** X10.  The documented [KeyError] of the attribution analysis: when the
    name given as the sensitive feature is not a column of the test frame
    (and the explainer accepts the frame), [understand_shap] raises
    [KeyError] at line 543, before anything is printed or drawn. *)
Theorem understand_shap_unknown_column (self : FairDetect)
    (labels : dict Z string) (sensitive : string)
    (affected_group affected_target : Z) (w : world)
    (dX : DataFrame) (ys : Series) (sv : explanation) :
  heap w !! X_test self = Some (ODataFrame dX) ->
  heap w !! y_test self = Some (OArray ys) ->
  length ys = df_len dX -> length (predict dX) = df_len dX ->
  explain dX = inr sv ->
  ~ In sensitive (dict_keys (df_cols dX)) ->
  exists w',
    understand_shap self labels sensitive affected_group affected_target w
    = (inl KeyError, w')
    /\ stdout w' = stdout w /\ rng w' = rng w.
Proof.
  intros HX Hy Lys Lps Hsv Hmiss.
  enough (Hwp : wp (understand_shap self labels sensitive affected_group
                      affected_target)
                   (fun r w' => r = inl KeyError /\ stdout w' = stdout w
                                /\ rng w' = rng w) w).
  { unfold wp in Hwp.
    destruct (understand_shap _ _ _ _ _ w) as [r w'].
    cbn [fst snd] in Hwp. destruct Hwp as (-> & Ho & Hr). now exists w'. }
  destruct (working_table_total dX ys (predict dX) Lys Lps) as [d2 Hwt].
  unfold understand_shap. apply wp_bind.
  eapply wp_conseq; [exact (shap_setup_run self w dX d2 ys sv HX Hy Hwt Hsv)|].
  intros r w1 (-> & Hh1 & Hr1 & Ho1).
  apply wp_bind. unfold importance_comparison.
  apply wp_bind. unfold global_cohorts.
  apply wp_bind. eapply wp_df_getitem; [rewrite Hh1; apply lookup_old_heap; exact HX|].
  rewrite (df_get_unknown dX sensitive Hmiss). auto.
Qed.

Lemma df_drop_labels_filter2 (d : DataFrame) (m1 m2 : list bool) t p :
  df_get d "t" = inr t -> df_get d "p" = inr p ->
  df_drop (df_filter (df_filter d m1) m2) ["t"; "p"]%string
  = inr (mkDF (count_true m2)
           (map (fun kv => (fst kv, select m2 (select m1 (snd kv))))
                (List.filter (fun kv => not_label (fst kv)) (df_cols d)))).
Proof.
  unfold df_get, dict_getitem. intros Ht Hp.
  destruct (dict_get (df_cols d) "t") eqn:Et; [|discriminate].
  destruct (dict_get (df_cols d) "p") eqn:Ep; [|discriminate].
  apply dict_get_In in Et, Ep.
  unfold df_drop, df_filter. cbn [df_cols df_len].
  rewrite !(dict_keys_map_values (select _)).
  assert (Hall : forallb (fun n => bool_decide (n ∈ dict_keys (df_cols d)))
                   ["t"; "p"]%string = true).
  { simpl. rewrite !bool_decide_eq_true_2; [reflexivity|..];
      now apply list_elem_of_In. }
  rewrite Hall. apply f_equal. apply (f_equal2 mkDF); [reflexivity|].
  etransitivity;
    [exact (filter_map_values (select m2) not_label
              (map (fun kv => (fst kv, select m1 (snd kv))) (df_cols d)))|].
  rewrite (filter_map_values (select m1) not_label).
  rewrite map_map. reflexivity.
Qed.

(** The frame selected in two steps is the cohort of the specification. *)
Lemma cohort_table_selected (d : DataFrame) (s t p : Series) (g tg : Z) :
  df_wf d ->
  df_get d "t" = inr t -> df_get d "p" = inr p ->
  length s = df_len d ->
  df_drop (df_filter (df_filter d (series_ne t p))
             (mask_and (series_eq_scalar (select (series_ne t p) s) (inject_Z g))
                       (series_eq_scalar (select (series_ne t p) p) (inject_Z tg))))
          ["t"; "p"]%string
  = inr (cohort_table d s t p g tg).
Proof.
  intros Hwf Ht Hp Ls.
  pose proof (df_wf_get _ _ _ Hwf Ht) as Lt.
  pose proof (df_wf_get _ _ _ Hwf Hp) as Lp.
  rewrite (df_drop_labels_filter2 d _ _ t p Ht Hp).
  unfold cohort_table. f_equal. f_equal.
  - apply count_cohort; congruence.
  - apply map_ext_in. intros kv Hin. f_equal.
    apply filter_In in Hin as [Hin _]. destruct Hwf as [Hlen _].
    pose proof (proj1 (List.Forall_forall _ _) Hlen kv Hin) as Lv.
    apply select_cohort; congruence.
Qed.

Lemma list_getitem_nat {A} (l : list A) (k : nat) (a : A) :
  list_getitem l (Z.of_nat k) = inr a -> l !! k = Some a.
Proof.
  unfold list_getitem.
  destruct (Z.ltb_spec (Z.of_nat k) 0) as [Hneg|_]; [lia|].
  destruct (_ || _)%bool; [discriminate|].
  rewrite Nat2Z.id. destruct (l !! k); [now intros [= ->] | discriminate].
Qed.

Lemma list_getitem_nat_None {A} (l : list A) (k : nat) (e : exn) :
  list_getitem l (Z.of_nat k) = inl e -> l !! k = None.
Proof.
  intros H. unfold list_getitem in H. cbv zeta in H.
  destruct (Z.of_nat k <? 0)%Z eqn:E1; [apply Z.ltb_lt in E1; lia|].
  try rewrite E1 in H. cbn [orb] in H.
  destruct (Z.of_nat (length l) <=? Z.of_nat k)%Z eqn:E2.
  - apply Z.leb_le in E2. apply lookup_ge_None. lia.
  - rewrite Nat2Z.id in H. destruct (l !! k); [discriminate H | reflexivity].
Qed.

Lemma df_drop_features (d : DataFrame) (sensitive : string) s t p :
  df_get d sensitive = inr s -> df_get d "t" = inr t -> df_get d "p" = inr p ->
  df_drop d ["t"; "p"; sensitive]%string
  = inr (mkDF (df_len d) (features sensitive d)).
Proof.
  unfold df_get, dict_getitem. intros Hs Ht Hp.
  destruct (dict_get (df_cols d) sensitive) eqn:Es; [|discriminate].
  destruct (dict_get (df_cols d) "t") eqn:Et; [|discriminate].
  destruct (dict_get (df_cols d) "p") eqn:Ep; [|discriminate].
  apply dict_get_In in Es, Et, Ep.
  unfold df_drop.
  assert (Hall : forallb (fun n => bool_decide (n ∈ dict_keys (df_cols d)))
                   ["t"; "p"; sensitive]%string = true).
  { simpl. rewrite !bool_decide_eq_true_2; [reflexivity|..];
      now apply list_elem_of_In. }
  rewrite Hall. reflexivity.
Qed.

Lemma compare_to_all_run (full_table : loc) (sensitive : string)
    (affected_group affected_target : Z) (w : world) (d : DataFrame)
    (s t p : Series) :
  heap w !! full_table = Some (ODataFrame d) ->
  df_wf d ->
  df_get d sensitive = inr s -> df_get d "t" = inr t -> df_get d "p" = inr p ->
  wp (compare_to_all full_table sensitive affected_group affected_target)
     (fun r w' =>
        extends w w' /\ stdout w' = stdout w
        /\ exists affected_class,
             r = inr (affected_class,
                      dict_keys (spec_compare_to_all d s t p
                        sensitive affected_group affected_target),
                      dict_values (spec_compare_to_all d s t p
                        sensitive affected_group affected_target))
             /\ heap w' !! affected_class
                = Some (ODataFrame
                    (df_filter (df_filter d (series_ne t p))
                       (mask_and
                          (series_eq_scalar (select (series_ne t p) s)
                             (inject_Z affected_group))
                          (series_eq_scalar (select (series_ne t p) p)
                             (inject_Z affected_target)))))) w.
Proof.
  intros Hl Hwf Hs Ht Hp.
  pose proof (df_wf_get _ _ _ Hwf Hs) as Ls.
  pose proof (df_wf_get _ _ _ Hwf Ht) as Lt.
  pose proof (df_wf_get _ _ _ Hwf Hp) as Lp.
  enough (Hwp : wp (compare_to_all full_table sensitive
                      affected_group affected_target)
                   (fun r w' =>
                      exists affected_class,
                        r = inr (affected_class,
                                 dict_keys (spec_compare_to_all d s t p
                                   sensitive affected_group affected_target),
                                 dict_values (spec_compare_to_all d s t p
                                   sensitive affected_group affected_target))
                        /\ heap w' !! affected_class
                           = Some (ODataFrame
                               (df_filter (df_filter d (series_ne t p))
                                  (mask_and
                                     (series_eq_scalar (select (series_ne t p) s)
                                        (inject_Z affected_group))
                                     (series_eq_scalar (select (series_ne t p) p)
                                        (inject_Z affected_target)))))) w).
  { unfold wp in *. split; [apply append_only_compare_to_all|].
    split; [apply quiet_compare_to_all | exact Hwp]. }
  unfold compare_to_all.
  apply wp_bind.
  eapply (wp_select_rows full_table series_ne); [reflexivity | exact Hl | exact Ht | exact Hp |].
  intros w1 Hh1 _ _.
  apply wp_bind. eapply wp_select_group_label;
    [heap_lookup | rewrite df_get_filter, Hs; reflexivity
     | rewrite df_get_filter, Hp; reflexivity |].
  intros w2 Hh2 _ _.
  apply wp_bind. eapply wp_feature_names;
    [heap_lookup | eapply df_drop_filter2; eassumption |].
  apply wp_bind. eapply wp_feature_means;
    [heap_lookup | eapply df_drop_filter2; eassumption |].
  apply wp_bind. eapply wp_feature_means;
    [heap_lookup | eapply df_drop_features; eassumption |].
  apply wp_bind. eapply wp_feature_means;
    [heap_lookup | eapply df_drop_filter2; eassumption |].
  apply wp_ret. cbn [df_cols].
  destruct (features_wf d sensitive Hwf) as [Hnd Hlen].
  exists (length (heap w1)). split; [|heap_lookup].
  rewrite !(df_mean_map (fun v => select _ (select _ v))).
  f_equal. f_equal.
  - unfold spec_compare_to_all.
    rewrite (dict_keys_map_values (fun v => select _ (select _ v))).
    unfold dict_keys. rewrite map_map. reflexivity.
  - change (df_mean (mkDF (df_len d) (features sensitive d)))
      with (map (fun kv => (fst kv, series_mean (snd kv))) (features sensitive d)).
    rewrite (series_binop_same_columns fsub
               (fun v => series_mean (select _ (select _ v)))
               (fun v => series_mean v)) by exact Hnd.
    rewrite (series_binop_same_columns fdiv
               (fun v => fsub (series_mean (select _ (select _ v)))
                              (series_mean v))
               (fun v => series_mean (select _ (select _ v)))) by exact Hnd.
    unfold spec_compare_to_all, dict_values. rewrite !map_map. simpl.
    apply map_ext_in. intros kv Hin. unfold relative_difference.
    rewrite !series_mean_mean_of.
    pose proof (proj1 (List.Forall_forall _ _) Hlen kv Hin) as Lv.
    rewrite select_cohort by congruence.
    reflexivity.
Qed.

(** X11.  The comparison with the whole population (lines 574-578), on a
    well-formed working table: the chart has one bar for every column other
    than [t], [p] and the sensitive column, and its height is the mean of
    the feature over the misclassified cohort, minus its mean over all the
    records of the table, divided by the cohort mean.  The frame returned
    for sampling holds the cohort. *)
Theorem compare_to_all_formula (full_table : loc) (sensitive : string)
    (affected_group affected_target : Z) (w : world) (d : DataFrame)
    (s t p : Series) :
  heap w !! full_table = Some (ODataFrame d) ->
  df_wf d ->
  df_get d sensitive = inr s -> df_get d "t" = inr t -> df_get d "p" = inr p ->
  exists w' affected_class dac,
    compare_to_all full_table sensitive affected_group affected_target w
    = (inr (affected_class,
            dict_keys (spec_compare_to_all d s t p sensitive
                         affected_group affected_target),
            dict_values (spec_compare_to_all d s t p sensitive
                           affected_group affected_target)), w')
    /\ extends w w'
    /\ heap w' !! affected_class = Some (ODataFrame dac)
    /\ df_len dac = count_true (cohort_rows s t p affected_group affected_target).
Proof.
  intros Hl Hwf Hs Ht Hp.
  pose proof (compare_to_all_run full_table sensitive affected_group
                affected_target w d s t p Hl Hwf Hs Ht Hp) as Hwp.
  unfold wp in Hwp.
  destruct (compare_to_all _ _ _ _ w) as [r w'].
  cbn [fst snd] in Hwp. destruct Hwp as (Hext & _ & ac & -> & Hac).
  exists w', ac. eexists. split; [reflexivity|]. split; [exact Hext|].
  split; [exact Hac|].
  unfold df_filter at 1. cbn [df_len]. apply count_cohort.
  - rewrite (df_wf_get _ _ _ Hwf Ht). symmetry. exact (df_wf_get _ _ _ Hwf Hs).
  - rewrite (df_wf_get _ _ _ Hwf Hp). symmetry. exact (df_wf_get _ _ _ Hwf Hs).
Qed.

(** * The rate verdicts on an arbitrary metric frame *)

Lemma dict_set_fresh {V} (l : dict string V) (c : string) (v : V) :
  ~ In c (dict_keys l) -> dict_set l c v = l ++ [(c, v)].
Proof.
  induction l as [|[k x] l IH]; simpl; [reflexivity|].
  intros Hc. destruct (decide (k = c)) as [->|Hne]; [tauto|].
  rewrite IH by tauto. reflexivity.
Qed.

Lemma ability_p_values_filter (dic_met : dict string (list float)) :
  NoDup (dict_keys dic_met) ->
  ability_p_values dic_met
  = map (fun kv => (fst kv, snd (chisquare (times_100 (snd kv)) None)))
        (List.filter (fun kv => bool_decide (fst kv ∈ list_test)) dic_met).
Proof.
  intros Hnd. unfold ability_p_values.
  enough (Hgen : forall acc : dict string float,
            (forall k, In k (dict_keys acc) -> ~ In k (dict_keys dic_met)) ->
            foldl (fun dic_p_val kv =>
                     if bool_decide (fst kv ∈ list_test)
                     then dict_set dic_p_val (fst kv)
                            (snd (chisquare (times_100 (snd kv)) None))
                     else dic_p_val) acc dic_met
            = acc ++ map (fun kv => (fst kv, snd (chisquare (times_100 (snd kv)) None)))
                         (List.filter (fun kv => bool_decide (fst kv ∈ list_test))
                                      dic_met))
    by (apply (Hgen []); intros k []).
  induction dic_met as [|[k v] l IH]; intros acc Hacc; simpl.
  - now rewrite app_nil_r.
  - apply NoDup_cons in Hnd as [Hk Hnd].
    destruct (bool_decide (k ∈ list_test)); simpl.
    + rewrite IH; [|exact Hnd|].
      * rewrite dict_set_fresh, <- app_assoc; [reflexivity|].
        intros Hin. apply (Hacc k Hin). now left.
      * intros k' Hk'. rewrite dict_set_fresh in Hk'
          by (intros Hin; apply (Hacc k Hin); now left).
        unfold dict_keys in Hk'. rewrite map_app in Hk'.
        apply in_app_or in Hk' as [Hk'|[<-|[]]].
        -- intros Hin. apply (Hacc k' Hk'). now right.
        -- intros Hin. apply Hk. now apply list_elem_of_In.
    + apply IH; [exact Hnd|].
      intros k' Hk' Hin. apply (Hacc k' Hk'). now right.
Qed.

(** X12.  [ability_metrics] on any metric frame with distinct column names:
    it never raises, touches neither the heap nor the random generator, and
    prints exactly one verdict for each column named after one of the four
    tested rates, in the order of the frame, and nothing for any other
    column. *)
Theorem ability_metrics_any_frame (metric_frame : MetricFrame) (w : world) :
  NoDup (dict_keys (by_group metric_frame)) ->
  exists w',
    ability_metrics metric_frame w = (inr tt, w')
    /\ heap w' = heap w /\ rng w' = rng w
    /\ stdout w'
       = stdout w ++
         map (fun kv =>
                ability_verdict (fst kv) (snd (chisquare (times_100 (snd kv)) None)))
             (List.filter (fun kv => bool_decide (fst kv ∈ list_test))
                          (by_group metric_frame)).
Proof.
  intros Hnd. unfold ability_metrics. rewrite for_each_emit.
  eexists. split; [reflexivity|]. cbn [heap rng stdout].
  split; [reflexivity|]. split; [reflexivity|].
  rewrite (ability_p_values_filter _ Hnd), map_map. reflexivity.
Qed.

(** * What [predictive] needs *)

(** X13.  [predictive] returns normally only on a complete partition: for
    every key of the label map, [sens_df] has a frame under the key's label
    name, the frame has the columns [t] and [p], and sklearn's precision is
    defined on them; the precision recorded under that name is the one of
    such a frame.  The world is as before, the chart has one bar per label
    and the p-value is the one of the chi-square test of the recorded
    precisions times 100. *)
Theorem predictive_needs_complete_partition (labels : dict Z string)
    (sens_df : dict string loc) (w w' : world)
    (precision_dic : dict string float) (fig : figure) (pred_p : float) :
  predictive labels sens_df w = (inr (precision_dic, fig, pred_p), w') ->
  w' = w
  /\ fig = [mkBar (dict_values labels) (dict_values precision_dic) None None]
  /\ pred_p = snd (chisquare (times_100 (dict_values precision_dic)) None)
  /\ forall i, In i (dict_keys labels) ->
       exists name p score,
         subgroup_precision labels sens_df w i name p score
         /\ is_Some (dict_get precision_dic name).
Proof.
  intros Hrun.
  enough (Hwp : wp (predictive labels sens_df)
            (fun r w' =>
               match r with
               | inl _ => True
               | inr (dic, fig, pp) =>
                   w' = w
                   /\ fig = [mkBar (dict_values labels) (dict_values dic) None None]
                   /\ pp = snd (chisquare (times_100 (dict_values dic)) None)
                   /\ forall i, In i (dict_keys labels) ->
                        exists name p score,
                          subgroup_precision labels sens_df w i name p score
                          /\ is_Some (dict_get dic name)
               end) w).
  { unfold wp in Hwp. rewrite Hrun in Hwp. exact Hwp. }
  clear Hrun. unfold predictive.
  apply wp_bind. eapply wp_conseq.
  { apply (wp_for_each_post (dict_keys labels) _
             (fun done (dic : dict string float) w' =>
                w' = w
                /\ forall i, In i done ->
                     exists name p score,
                       subgroup_precision labels sens_df w i name p score
                       /\ is_Some (dict_get dic name))
             (fun _ _ => True)).
    - split; [reflexivity | intros i []].
    - intros done i dic w0 [-> Hinv] Hi.
      apply wp_bind, wp_lift. unfold dict_getitem at 1.
      destruct (dict_get labels i) as [name|] eqn:Hname; [|exact I].
      apply wp_bind, wp_lift. unfold dict_getitem at 1.
      destruct (dict_get sens_df name) as [l|] eqn:Hl; [|exact I].
      apply wp_bind. unfold df_getitem at 1.
      apply wp_bind, wp_read_frame.
      destruct (heap w !! l) as [[d|?]|] eqn:Hd; try exact I.
      apply wp_lift. destruct (df_get d "t") as [e|t] eqn:Ht; [exact I|].
      apply wp_bind. eapply wp_df_getitem; [exact Hd|].
      destruct (df_get d "p") as [e|p] eqn:Hp; [exact I|].
      apply wp_bind, wp_lift.
      destruct (precision_score t p) as [e|score] eqn:Hscore; [exact I|].
      apply wp_ret. split; [reflexivity|].
      intros j Hj. apply in_app_or in Hj as [Hj|[<-|[]]].
      + destruct (Hinv j Hj) as (name' & p' & score' & Hsub & Hsome).
        exists name', p', score'. split; [exact Hsub|].
        now apply dict_get_set_is_Some.
      + exists name, p, score. split; [exists l, d, t; repeat split; assumption|].
        exists score. apply dict_get_set_same. }
  intros [e|dic] w0; [exact id|]. intros [-> Hinv].
  apply wp_ret. auto.
Qed.

(** * The cells of the contingency table *)

Lemma sorted_no_later_copy (a y : Q) (U : list Q) :
  Sorted Qlt (a :: U) -> y == a ->
  List.filter (fun u => Qeq_bool y u) U = [].
Proof.
  intros Hs Hy. apply Sorted_StronglySorted in Hs; [|intros x1 x2 x3; apply Qlt_trans].
  apply StronglySorted_inv in Hs as [_ Hall].
  induction U as [|u U IH]; [reflexivity|].
  apply Forall_cons in Hall as [Hu Hall]. simpl.
  destruct (Qeq_bool y u) eqn:Heq; [|now apply IH].
  apply Qeq_bool_iff in Heq. rewrite Hy in Heq. rewrite Heq in Hu.
  exfalso. exact (Qlt_irrefl _ Hu).
Qed.

Lemma sorted_count_one (U : list Q) (y : Q) :
  Sorted Qlt U -> (exists u, In u U /\ y == u) ->
  length (List.filter (fun u => Qeq_bool y u) U) = 1%nat.
Proof.
  induction U as [|a U IH]; intros Hs (u & Hu & Hyu); [destruct Hu|].
  simpl. destruct (Qeq_bool y a) eqn:Heq.
  - apply Qeq_bool_iff in Heq.
    now rewrite (sorted_no_later_copy a y U Hs Heq).
  - apply IH.
    + now apply Sorted_inv in Hs as [Hs _].
    + destruct Hu as [<-|Hu]; [|now exists u].
      apply Qeq_bool_neq in Heq. contradiction.
Qed.

Lemma Zsum_map_add {A} (f g : A -> Z) (l : list A) :
  Zsum (map (fun a => (f a + g a)%Z) l) = (Zsum (map f l) + Zsum (map g l))%Z.
Proof. induction l as [|a l IH]; simpl; lia. Qed.

Lemma Zsum_indicator (P : Q -> bool) (U : list Q) :
  Zsum (map (fun u => if P u then 1%Z else 0%Z) U)
  = Z.of_nat (length (List.filter P U)).
Proof.
  induction U as [|u U IH]; [reflexivity|]. simpl.
  destruct (P u); simpl length; lia.
Qed.

(** The counts of a row of the cross tabulation add up to the number of
    records of the row's group. *)
Lemma Zsum_count_pairs (ps : list (Q * Q)) (v : Q) (U : list Q) :
  Sorted Qlt U ->
  (forall x y, In (x, y) ps -> exists u, In u U /\ y == u) ->
  Zsum (map (fun u => count_pairs ps v u) U) = count_eq (map fst ps) v.
Proof.
  intros HU. induction ps as [|[x y] ps IH]; intros Hcov.
  - unfold count_pairs, count_eq. simpl. clear.
    induction U as [|u U IHU]; simpl; [reflexivity | exact IHU].
  - assert (Hstep : forall u,
              count_pairs ((x, y) :: ps) v u
              = ((if Qeq_bool x v && Qeq_bool y u then 1 else 0)
                 + count_pairs ps v u)%Z).
    { intros u. unfold count_pairs. simpl.
      destruct (Qeq_bool x v && Qeq_bool y u)%bool; simpl length; lia. }
    rewrite (map_ext _ _ Hstep).
    rewrite (Zsum_map_add
               (fun u => if (Qeq_bool x v && Qeq_bool y u)%bool then 1%Z else 0%Z)
               (fun u => count_pairs ps v u)).
    rewrite IH by (intros x' y' Hin; apply (Hcov x' y'); now right).
    unfold count_eq. simpl.
    destruct (Qeq_bool x v); simpl.
    + rewrite (Zsum_indicator (fun u => Qeq_bool y u)).
      rewrite sorted_count_one; [lia | exact HU | apply (Hcov x y); now left].
    + rewrite (Zsum_indicator (fun _ => false)).
      replace (List.filter (fun _ : Q => false) U) with (@nil Q)
        by (clear; induction U; simpl; auto).
      simpl. lia.
Qed.

Lemma fst_zip_same_length {A B} (a : list A) (b : list B) :
  length a = length b -> map fst (zip a b) = a /\ map snd (zip a b) = b.
Proof.
  revert b. induction a as [|x a IH]; intros [|y b]; simpl; try discriminate;
    [now split|].
  intros [= Hlen]. destruct (IH b Hlen) as [-> ->]. now split.
Qed.

Lemma transpose_table {A B} (f : A -> B -> float) (idx : list A) (cols : list B) :
  transpose (length cols) (map (fun v => map (fun u => f v u) cols) idx)
  = map (fun u => map (fun v => f v u) idx) cols.
Proof.
  unfold transpose.
  assert (Hrow : forall j u, cols !! j = Some u ->
            omap (fun row : list float => row !! j)
                 (map (fun v => map (fun u => f v u) cols) idx)
            = map (fun v => f v u) idx).
  { intros j u Hj. induction idx as [|v idx IH]; [reflexivity|].
    cbn [map omap list_omap]. rewrite list_lookup_fmap, Hj. cbn [fmap option_fmap option_map].
    f_equal. exact IH. }
  apply list_eq. intros j. rewrite !list_lookup_fmap.
  destruct (cols !! j) as [u|] eqn:Hj.
  - rewrite lookup_seq_lt by (eapply lookup_lt_Some; exact Hj).
    simpl. f_equal. now apply Hrow.
  - rewrite lookup_seq_ge by (now apply lookup_ge_None). reflexivity.
Qed.

Lemma tabulate_T_cells (s t : Series) (headers : list string) :
  length s = length t ->
  tabulate_T (crosstab_normalize_index s t) headers
  = mkTable headers
      (map (fun u =>
              (u, map (fun v =>
                         fillna0 (int_truediv (count_pairs (zip s t) v u)
                                              (count_eq s v)))
                      (unique_sorted s)))
           (unique_sorted t)).
Proof.
  intros Hlen. destruct (fst_zip_same_length s t Hlen) as [Hfst Hsnd].
  unfold tabulate_T, crosstab_normalize_index, crosstab.
  cbn [ct_index ct_columns ct_values]. rewrite Hfst, Hsnd.
  f_equal. rewrite map_map.
  assert (Hrows : map (fun v =>
                         map (fun n => fillna0
                                (int_truediv n
                                   (Zsum (map (fun u => count_pairs (zip s t) v u)
                                              (unique_sorted t)))))
                             (map (fun u => count_pairs (zip s t) v u)
                                  (unique_sorted t)))
                      (unique_sorted s)
                  = map (fun v =>
                           map (fun u =>
                                  fillna0 (int_truediv (count_pairs (zip s t) v u)
                                                       (count_eq s v)))
                               (unique_sorted t))
                        (unique_sorted s)).
  { apply map_ext. intros v. rewrite map_map.
    rewrite Zsum_count_pairs, Hfst; [reflexivity | apply unique_sorted_sorted |].
    intros x y Hin. apply unique_sorted_cover. rewrite <- Hsnd.
    exact (in_map snd _ (x, y) Hin). }
  rewrite Hrows.
  rewrite (transpose_table
             (fun v u => fillna0 (int_truediv (count_pairs (zip s t) v u)
                                              (count_eq s v)))).
  clear. induction (unique_sorted t) as [|u U IH]; [reflexivity|].
  simpl. now rewrite IH.
Qed.

(** X14.  The table [representation] returns.  Its headers are the labels in
    the order of the label map; it has one row per distinct true label, in
    increasing order, and in each row one cell per distinct value of the
    sensitive column, in increasing order, whether or not the value has a
    label: the number of records of that sensitive group with that true
    label, divided by the size of the group. *)
Theorem representation_table_cells (X y predictions : loc) (sensitive : string)
    (labels : dict Z string) (w w' : world) (dX : DataFrame) (ys ps s : Series)
    (table : Table) (sens_df : dict string loc) (fig : figure) (p : float) :
  heap w !! X = Some (ODataFrame dX) ->
  heap w !! y = Some (OArray ys) ->
  heap w !! predictions = Some (OArray ps) ->
  df_wf dX ->
  length ys = df_len dX -> length ps = df_len dX ->
  df_get dX sensitive = inr s ->
  sensitive <> "p"%string -> sensitive <> "t"%string ->
  labels <> [] ->
  representation X y sensitive labels predictions w
  = (inr (table, sens_df, fig, p), w') ->
  table
  = mkTable (dict_values labels)
      (map (fun u =>
              (u, map (fun v =>
                         fillna0 (int_truediv (count_pairs (zip s ys) v u)
                                              (count_eq s v)))
                      (unique_sorted s)))
           (unique_sorted ys)).
Proof.
  intros HX Hy Hp Hwf Lys Lps Hs Hnp Hnt Hne Hrun.
  destruct (representation_table_total dX ys ps Lys Lps) as [d2 Htab].
  pose proof (representation_outcome X y predictions sensitive labels w dX d2
                ys ps s HX Hy Hp Htab Hs Hnp Hnt Hne) as Hwp.
  unfold wp in Hwp. rewrite Hrun in Hwp. cbn [fst snd] in Hwp.
  destruct Hwp as (_ & _ & _ & -> & _).
  apply tabulate_T_cells.
  rewrite (df_wf_get _ _ _ Hwf Hs). now symmetry.
Qed.

(** X15.  The chart [representation] returns, for a label map in which no
    two keys bear the same label: two bars per key, in the order of the map.
    The first, in the left panel under the key's label, is the share of the
    key among the values of the sensitive column.  The second, in the right
    panel under the key itself, is the share of the key among the true
    labels: the target distribution is shown for the values that are keys of
    the label map. *)
Theorem representation_chart_bars (X y predictions : loc) (sensitive : string)
    (labels : dict Z string) (w w' : world) (dX : DataFrame) (ys ps s : Series)
    (table : Table) (sens_df : dict string loc) (fig : figure) (p : float) :
  heap w !! X = Some (ODataFrame dX) ->
  heap w !! y = Some (OArray ys) ->
  heap w !! predictions = Some (OArray ps) ->
  length ys = df_len dX -> length ps = df_len dX ->
  df_get dX sensitive = inr s ->
  sensitive <> "p"%string -> sensitive <> "t"%string ->
  labels <> [] ->
  one_key_per_name labels ->
  representation X y sensitive labels predictions w
  = (inr (table, sens_df, fig, p), w') ->
  fig = representation_fig labels s ys
  /\ length fig = (2 * length labels)%nat.
Proof.
  intros HX Hy Hp Lys Lps Hs Hnp Hnt Hne Hinj Hrun.
  destruct (representation_table_total dX ys ps Lys Lps) as [d2 Htab].
  pose proof (representation_outcome X y predictions sensitive labels w dX d2
                ys ps s HX Hy Hp Htab Hs Hnp Hnt Hne) as Hwp.
  unfold wp in Hwp. rewrite Hrun in Hwp. cbn [fst snd] in Hwp.
  destruct Hwp as (_ & _ & _ & _ & _ & Hkeys & _ & Hfig).
  specialize (Hfig Hinj). split; [exact Hfig|]. subst fig.
  unfold representation_fig.
  assert (Hlen : forall l : list Z,
            (forall i, In i l -> In i (dict_keys labels)) ->
            length (flat_map (representation_bars labels s ys) l)
            = (2 * length l)%nat).
  { induction l as [|i l IH]; intros Hl; [reflexivity|].
    cbn [flat_map]. rewrite length_app, IH by (intros j Hj; apply Hl; now right).
    assert (Hi : In i (dict_keys labels)) by (apply Hl; now left).
    destruct (dict_get_keys labels i Hi) as [name Hname].
    destruct (Hkeys i Hi) as (_ & _ & Hrange).
    pose proof (list_getitem_pair "orange"%string "blue"%string i) as Hcol.
    unfold representation_bars. rewrite Hname.
    destruct (list_getitem ["orange"; "blue"]%string i) as [e|color];
      [tauto|]. simpl. lia. }
  rewrite Hlen by auto. unfold dict_keys. now rewrite length_map.
Qed.

Lemma compare_to_true_class_run (full_table : loc) (sensitive : string)
    (affected_group affected_target : Z) (w : world) (d : DataFrame)
    (s t p : Series) :
  heap w !! full_table = Some (ODataFrame d) ->
  df_wf d ->
  df_get d sensitive = inr s -> df_get d "t" = inr t -> df_get d "p" = inr p ->
  wp (compare_to_true_class full_table sensitive affected_group affected_target)
     (fun r w' =>
        extends w w' /\ stdout w' = stdout w
        /\ r = inr (dict_keys (spec_compare_to_true_class d s t p sensitive
                                affected_group affected_target),
                    dict_values (spec_compare_to_true_class d s t p sensitive
                                  affected_group affected_target))) w.
Proof.
  intros Hl Hwf Hs Ht Hp.
  enough (Hwp : wp (compare_to_true_class full_table sensitive
                      affected_group affected_target)
                   (fun r _ =>
                      r = inr (dict_keys (spec_compare_to_true_class d s t p
                                 sensitive affected_group affected_target),
                               dict_values (spec_compare_to_true_class d s t p
                                 sensitive affected_group affected_target))) w).
  { unfold wp in *. split; [apply append_only_compare_to_true_class|].
    split; [apply quiet_compare_to_true_class | exact Hwp]. }
  unfold compare_to_true_class.
  apply wp_bind.
  eapply (wp_select_rows full_table series_ne); [reflexivity | exact Hl | exact Ht | exact Hp |].
  intros w1 Hh1 _ _.
  apply wp_bind. eapply wp_select_group_label;
    [heap_lookup | rewrite df_get_filter, Hs; reflexivity
     | rewrite df_get_filter, Hp; reflexivity |].
  intros w2 Hh2 _ _.
  apply wp_bind.
  eapply (wp_select_rows full_table series_eq); [reflexivity | heap_lookup | exact Ht | exact Hp |].
  intros w3 Hh3 _ _.
  apply wp_bind. eapply wp_select_group_label;
    [heap_lookup | rewrite df_get_filter, Hs; reflexivity
     | rewrite df_get_filter, Ht; reflexivity |].
  intros w4 Hh4 _ _.
  apply wp_bind. eapply wp_feature_names;
    [heap_lookup | eapply df_drop_filter2; eassumption |].
  apply wp_bind. eapply wp_feature_means;
    [heap_lookup | eapply df_drop_filter2; eassumption |].
  apply wp_bind. eapply wp_feature_means;
    [heap_lookup | eapply df_drop_filter2; eassumption |].
  apply wp_bind. eapply wp_feature_means;
    [heap_lookup | eapply df_drop_filter2; eassumption |].
  apply wp_ret. cbn [df_cols].
  destruct (features_wf d sensitive Hwf) as [Hnd Hlen].
  rewrite !(df_mean_map (fun v => select _ (select _ v))).
  f_equal. f_equal.
  - unfold spec_compare_to_true_class.
    rewrite (dict_keys_map_values (fun v => select _ (select _ v))).
    unfold dict_keys. rewrite map_map. reflexivity.
  - rewrite (series_binop_same_columns fsub
               (fun v => series_mean (select _ (select _ v)))
               (fun v => series_mean (select _ (select _ v)))) by exact Hnd.
    rewrite (series_binop_same_columns fdiv
               (fun v => fsub (series_mean (select _ (select _ v)))
                              (series_mean (select _ (select _ v))))
               (fun v => series_mean (select _ (select _ v)))) by exact Hnd.
    unfold spec_compare_to_true_class, dict_values. rewrite !map_map. simpl.
    apply map_ext_in. intros kv Hin. unfold relative_difference.
    rewrite !series_mean_mean_of.
    pose proof (df_wf_get _ _ _ Hwf Hs) as Ls.
    pose proof (df_wf_get _ _ _ Hwf Ht) as Lt.
    pose proof (df_wf_get _ _ _ Hwf Hp) as Lp.
    pose proof (proj1 (List.Forall_forall _ _) Hlen kv Hin) as Lv.
    rewrite select_cohort by congruence.
    rewrite select_true_class by congruence.
    reflexivity.
Qed.

Lemma shap_setup_outcome (self : FairDetect) (w : world) (dX : DataFrame)
    (ys : Series) :
  heap w !! X_test self = Some (ODataFrame dX) ->
  heap w !! y_test self = Some (OArray ys) ->
  wp (shap_setup self)
     (fun r w1 =>
        rng w1 = rng w /\ stdout w1 = stdout w
        /\ match working_table dX ys (predict dX) with
           | inl e => r = inl e
           | inr d2 =>
               match explain dX with
               | inl e => r = inl e
               | inr sv =>
                   r = inr (length (heap w), sv)
                   /\ heap w1 = heap w ++ [ODataFrame d2]
               end
           end) w.
Proof.
  intros HX Hy. unfold shap_setup, working_table.
  apply wp_bind. eapply wp_df_copy; [exact HX|]. intros w1 Hh1 Hr1 Ho1.
  apply wp_bind.
  eapply wp_relabel with (parts := []); [exact Hh1 | reflexivity | exact HX | exact Hy |].
  destruct (df_set dX "t" ys) as [e|d1] eqn:Hd1; [auto|].
  destruct (df_set d1 "p" (predict dX)) as [e|d2] eqn:Hd2.
  { intros w2 Hh2 Hr2 Ho2. split; [congruence|]. split; [congruence|]. reflexivity. }
  intros w2 Hh2 Hr2 Ho2.
  apply wp_bind, wp_read_frame. rewrite Hh2, (lookup_old_heap _ _ _ _ HX).
  apply wp_bind, wp_lift.
  destruct (explain dX) as [e|sv] eqn:Hsv.
  { split; [congruence|]. split; [congruence|]. reflexivity. }
  apply wp_ret. split; [congruence|]. split; [congruence|]. auto.
Qed.

(** The whole of [understand_shap], on the contents of its inputs: the
    call ends as [attribution_trace] says, having printed and shown what it
    says and left the generator in the state it says. *)
Lemma understand_shap_run (self : FairDetect)
    (labels : dict Z string) (sensitive : string)
    (affected_group affected_target : Z) (w : world)
    (dX : DataFrame) (ys : Series) :
  heap w !! X_test self = Some (ODataFrame dX) ->
  heap w !! y_test self = Some (OArray ys) ->
  df_wf dX ->
  wp (understand_shap self labels sensitive affected_group affected_target)
     (fun r w' =>
        r = ended (snd (attribution_trace labels sensitive affected_group
                          affected_target dX ys (rng w)))
        /\ stdout w'
           = stdout w ++ fst (fst (attribution_trace labels sensitive affected_group
                                     affected_target dX ys (rng w)))
        /\ rng w'
           = snd (fst (attribution_trace labels sensitive affected_group
                         affected_target dX ys (rng w)))) w.
Proof.
  intros HX Hy Hwf.
  unfold attribution_trace, attribution_prefix.
  unfold understand_shap. apply wp_bind.
  eapply wp_conseq; [exact (shap_setup_outcome self w dX ys HX Hy)|].
  intros r w1 (Hr1 & Ho1 & Hres).
  destruct (working_table dX ys (predict dX)) as [e|d2] eqn:Hwt.
  { subst r. cbn. now rewrite app_nil_r. }
  destruct (explain dX) as [e|sv] eqn:Hsv.
  { subst r. cbn. now rewrite app_nil_r. }
  destruct Hres as (-> & Hh1).
  destruct (working_table_relabel _ _ _ _ Hwt) as (Ht2 & Hp2 & Gt & Gp).
  pose proof (working_table_wf _ _ _ _ Hwf Hwt) as Hwf2.
  assert (HX1 : heap w1 !! X_test self = Some (ODataFrame dX))
    by (rewrite Hh1; now apply lookup_old_heap).
  assert (Hft1 : heap w1 !! length (heap w) = Some (ODataFrame d2))
    by (rewrite Hh1; apply lookup_snoc_heap).
  (* lines 543-554 *)
  apply wp_bind. unfold importance_comparison.
  apply wp_bind. unfold global_cohorts.
  apply wp_bind. eapply wp_df_getitem; [exact HX1|].
  destruct (df_get dX sensitive) as [e|sX] eqn:HsX.
  { cbn. rewrite app_nil_r. auto. }
  apply wp_bind, wp_lift.
  destruct (list_getitem (dict_keys labels) 0) as [e|first_key] eqn:Hfirst.
  { cbn. rewrite app_nil_r. auto. }
  apply wp_bind, wp_lift.
  destruct (dict_getitem labels 0%Z) as [e|label0] eqn:H0.
  { cbn. rewrite app_nil_r. auto. }
  apply wp_bind, wp_lift.
  destruct (dict_getitem labels 1%Z) as [e|label1] eqn:H1.
  { cbn. rewrite app_nil_r. auto. }
  apply wp_ret.
  apply wp_bind.
  eapply (wp_select_rows (length (heap w)) series_ne);
    [reflexivity | exact Hft1 | exact Gt | exact Gp |].
  intros w2 Hh2 Hr2 Ho2.
  apply wp_bind. unfold select_group_label.
  apply wp_bind. eapply wp_df_getitem; [heap_lookup|].
  rewrite df_get_filter.
  destruct (df_get d2 sensitive) as [e|s] eqn:Hs.
  { cbn. rewrite app_nil_r. split; [reflexivity|]. split; congruence. }
  pose proof (df_wf_get _ _ _ Hwf2 Hs) as Ls.
  pose proof (df_wf_get _ _ _ Hwf2 Gt) as Lt.
  pose proof (df_wf_get _ _ _ Hwf2 Gp) as Lp.
  apply wp_bind. eapply wp_df_getitem; [heap_lookup|].
  rewrite df_get_filter, Gp.
  eapply wp_df_select; [heap_lookup|].
  intros w3 Hh3 Hr3 Ho3.
  apply wp_bind, wp_emit. intros w4 Hh4 Hr4 Ho4.
  apply wp_bind, wp_emit. intros w5 Hh5 Hr5 Ho5.
  fold (cohort_labels first_key label0 label1 sX).
  apply wp_bind, wp_shap_plot.
  destruct (plots_bar_cohorts sv (cohort_labels first_key label0 label1 sX))
    as [e|] eqn:Hplot1.
  { cbn. split; [reflexivity|]. split; [|congruence].
    rewrite Ho5, Ho4, Ho3, Ho2, Ho1, <- !app_assoc. reflexivity. }
  intros w6 Hh6 Hr6 Ho6.
  apply wp_bind, wp_emit. intros w7 Hh7 Hr7 Ho7.
  apply wp_bind, wp_read_frame.
  rewrite Hh7, Hh6, Hh5, Hh4, Hh3, lookup_snoc_heap.
  apply wp_bind, wp_lift.
  pose proof (cohort_table_selected d2 s ys (predict dX) affected_group
                affected_target Hwf2 Gt Gp Ls) as Hsel.
  rewrite Hsel.
  apply wp_bind, wp_lift.
  destruct (explain (cohort_table d2 s ys (predict dX) affected_group
                       affected_target)) as [e|sv2] eqn:Hsv2.
  { cbn. split; [reflexivity|]. split; [|congruence].
    rewrite Ho7, Ho6, Ho5, Ho4, Ho3, Ho2, Ho1, <- !app_assoc. reflexivity. }
  apply wp_shap_plot.
  destruct (plots_bar sv2) as [e|] eqn:Hplot2.
  { cbn. split; [reflexivity|]. split; [|congruence].
    rewrite Ho7, Ho6, Ho5, Ho4, Ho3, Ho2, Ho1, <- !app_assoc. reflexivity. }
  intros w8 Hh8 Hr8 Ho8.
  (* lines 556-557 *)
  apply wp_bind.
  assert (Hh8' : heap w8 = heap w ++ ODataFrame d2 ::
                   [ODataFrame (df_filter d2 (series_ne ys (predict dX)));
                    ODataFrame
                      (df_filter (df_filter d2 (series_ne ys (predict dX)))
                         (mask_and
                            (series_eq_scalar (select (series_ne ys (predict dX)) s)
                               (inject_Z affected_group))
                            (series_eq_scalar
                               (select (series_ne ys (predict dX)) (predict dX))
                               (inject_Z affected_target))))]).
  { rewrite Hh8, Hh7, Hh6, Hh5, Hh4, Hh3, Hh2, Hh1, <- !app_assoc. reflexivity. }
  eapply wp_relabel; [exact Hh8' | reflexivity | exact HX | exact Hy |].
  rewrite Ht2, Hp2. intros w9 Hh9 Hr9 Ho9.
  assert (Hft9 : heap w9 !! length (heap w) = Some (ODataFrame d2))
    by (rewrite Hh9; apply lookup_middle_heap).
  (* lines 559-572 *)
  apply wp_bind. eapply wp_conseq.
  { exact (compare_to_true_class_run (length (heap w)) sensitive affected_group
             affected_target w9 d2 s ys (predict dX) Hft9 Hwf2 Hs Gt Gp). }
  intros r w10 (He10 & Ho10 & ->).
  apply wp_bind, wp_emit. intros w11 Hh11 Hr11 Ho11.
  apply wp_bind, wp_emit. intros w12 Hh12 Hr12 Ho12.
  apply wp_bind, wp_emit. intros w13 Hh13 Hr13 Ho13.
  assert (Hft13 : heap w13 !! length (heap w) = Some (ODataFrame d2)).
  { rewrite Hh13, Hh12, Hh11. eapply extends_lookup; eassumption. }
  (* lines 574-582 *)
  apply wp_bind. eapply wp_conseq.
  { exact (compare_to_all_run (length (heap w)) sensitive affected_group
             affected_target w13 d2 s ys (predict dX) Hft13 Hwf2 Hs Gt Gp). }
  intros r w14 (He14 & Ho14 & ac & -> & Hac).
  apply wp_bind, wp_emit. intros w15 Hh15 Hr15 Ho15.
  apply wp_bind, wp_emit. intros w16 Hh16 Hr16 Ho16.
  assert (Hrng16 : rng w16 = rng w).
  { rewrite Hr16, Hr15, (extends_rng _ _ He14), Hr13, Hr12, Hr11,
      (extends_rng _ _ He10). congruence. }
  assert (Hout16 : stdout w16
            = stdout w ++
              [PltSubplotsAdjust; Print [PStr "Model Importance Comparison"];
               ShapBarCohorts sv (cohort_labels first_key label0 label1 sX);
               PltSubplot 1 2 2; ShapBar sv2;
               Print [PStr "Affected Attribute Comparison"];
               Print [PStr "Average Comparison to True Class Members"];
               comparison_chart
                 (spec_compare_to_true_class d2 s ys (predict dX) sensitive
                    affected_group affected_target);
               Print [PStr "Average Comparison to All Members"];
               comparison_chart
                 (spec_compare_to_all d2 s ys (predict dX) sensitive
                    affected_group affected_target)]).
  { rewrite Ho16, Ho15, Ho14, Ho13, Ho12, Ho11, Ho10, Ho9, Ho8, Ho7, Ho6, Ho5,
      Ho4, Ho3, Ho2, Ho1.
    unfold comparison_chart. rewrite <- !app_assoc. reflexivity. }
  (* lines 584-586 *)
  unfold random_decision_process.
  apply wp_bind, wp_emit. intros w17 Hh17 Hr17 Ho17.
  assert (Hac17 : heap w17 !! ac
            = Some (ODataFrame
                (df_filter (df_filter d2 (series_ne ys (predict dX)))
                   (mask_and
                      (series_eq_scalar (select (series_ne ys (predict dX)) s)
                         (inject_Z affected_group))
                      (series_eq_scalar
                         (select (series_ne ys (predict dX)) (predict dX))
                         (inject_Z affected_target))))))
    by (rewrite Hh17, Hh16, Hh15; exact Hac).
  apply wp_bind, wp_read_frame. rewrite Hac17.
  apply wp_bind, wp_lift. rewrite Hsel.
  apply wp_bind, wp_lift. rewrite Hsv2.
  apply wp_bind, wp_read_frame. rewrite Hac17.
  assert (Hn : df_len
                 (df_filter (df_filter d2 (series_ne ys (predict dX)))
                    (mask_and
                       (series_eq_scalar (select (series_ne ys (predict dX)) s)
                          (inject_Z affected_group))
                       (series_eq_scalar
                          (select (series_ne ys (predict dX)) (predict dX))
                          (inject_Z affected_target))))
               = count_true (cohort_rows s ys (predict dX)
                               affected_group affected_target)).
  { unfold df_filter. cbn [df_len]. apply count_cohort; congruence. }
  rewrite Hn.
  assert (Hout17 : stdout w17
            = stdout w ++
              ([PltSubplotsAdjust; Print [PStr "Model Importance Comparison"]] ++
               [ShapBarCohorts sv (cohort_labels first_key label0 label1 sX);
                PltSubplot 1 2 2]) ++
              [ShapBar sv2;
               Print [PStr "Affected Attribute Comparison"];
               Print [PStr "Average Comparison to True Class Members"];
               comparison_chart
                 (spec_compare_to_true_class d2 s ys (predict dX) sensitive
                    affected_group affected_target);
               Print [PStr "Average Comparison to All Members"];
               comparison_chart
                 (spec_compare_to_all d2 s ys (predict dX) sensitive
                    affected_group affected_target);
               Print [PStr "Random Affected Decision Process"]]).
  { rewrite Ho17, Hout16, <- !app_assoc. reflexivity. }
  assert (Hrng17 : rng w17 = rng w) by congruence.
  apply wp_bind. unfold wp at 1, randrange0.
  destruct (count_true (cohort_rows s ys (predict dX) affected_group
                          affected_target)) as [|n] eqn:Hcount.
  { cbn [fst snd]. split; [reflexivity|]. split; [exact Hout17 | exact Hrng17]. }
  cbn [fst snd]. rewrite Hrng17. unfold explain_record.
  apply wp_bind, wp_lift.
  destruct (list_getitem sv2 (Z.of_nat (fst (randbelow (S n) (rng w)))))
    as [e|row] eqn:Hrow.
  { cbn. split; [reflexivity|]. split; [|reflexivity]. exact Hout17. }
  apply wp_shap_plot.
  destruct (plots_waterfall row) as [e|] eqn:Hplot3.
  { cbn. split; [reflexivity|]. split; [|reflexivity]. exact Hout17. }
  cbn [heap rng stdout fst snd]. intros w18 Hh18 Hr18 Ho18.
  split; [reflexivity|]. split; [|exact Hr18].
  rewrite Ho18. cbn [stdout]. rewrite Hout17, <- !app_assoc. reflexivity.
Qed.

Lemma list_getitem_lookup {A} (l : list A) (k : nat) (a : A) :
  list_getitem l (Z.of_nat k) = inr a <-> l !! k = Some a.
Proof.
  split; [apply list_getitem_nat|].
  intros Hk. destruct (list_getitem l (Z.of_nat k)) as [e|a'] eqn:Hg.
  - apply list_getitem_nat_None in Hg. congruence.
  - apply list_getitem_nat in Hg. congruence.
Qed.

Lemma list_getitem_head {A} (l : list A) (a : A) :
  list_getitem l 0 = inr a <-> head l = Some a.
Proof.
  rewrite list_getitem_0. destruct l as [|x l]; simpl; [split; discriminate|].
  split; intros [= ->]; reflexivity.
Qed.

Lemma dict_getitem_Some {K V} `{EqDecision K} (d : dict K V) (k : K) (v : V) :
  dict_getitem d k = inr v <-> dict_get d k = Some v.
Proof.
  unfold dict_getitem. destruct (dict_get d k); split; intros [= ->]; reflexivity.
Qed.

(** A run that returns: everything [attribution_ready] asks for was there,
    and the output is the complete one. *)
Lemma attribution_trace_returned (labels : dict Z string) (sensitive : string)
    (group target : Z) (dX : DataFrame) (ys : Series) (rs : random_state) :
  snd (attribution_trace labels sensitive group target dX ys rs) = None ->
  exists d2 sX s first_key label0 label1 sv sv2 row,
    working_table dX ys (predict dX) = inr d2
    /\ explain dX = inr sv
    /\ df_get dX sensitive = inr sX
    /\ head (dict_keys labels) = Some first_key
    /\ dict_get labels 0%Z = Some label0
    /\ dict_get labels 1%Z = Some label1
    /\ plots_bar_cohorts sv (cohort_labels first_key label0 label1 sX) = None
    /\ df_get d2 sensitive = inr s
    /\ explain (cohort_table d2 s ys (predict dX) group target) = inr sv2
    /\ plots_bar sv2 = None
    /\ (0 < count_true (cohort_rows s ys (predict dX) group target))%nat
    /\ sv2 !! fst (randbelow (count_true (cohort_rows s ys (predict dX) group target))
                            rs)
       = Some row
    /\ plots_waterfall row = None
    /\ fst (fst (attribution_trace labels sensitive group target dX ys rs))
       = attribution_output sv (cohort_labels first_key label0 label1 sX) sv2
           (spec_compare_to_true_class d2 s ys (predict dX) sensitive group target)
           (spec_compare_to_all d2 s ys (predict dX) sensitive group target)
           row
    /\ snd (fst (attribution_trace labels sensitive group target dX ys rs))
       = snd (randbelow (count_true (cohort_rows s ys (predict dX) group target)) rs).
Proof.
  unfold attribution_trace, attribution_prefix.
  destruct (working_table dX ys (predict dX)) as [e|d2] eqn:Hwt; [discriminate|].
  destruct (explain dX) as [e|sv] eqn:Hsv; [discriminate|].
  destruct (df_get dX sensitive) as [e|sX] eqn:HsX; [discriminate|].
  destruct (list_getitem (dict_keys labels) 0) as [e|first_key] eqn:Hfirst;
    [discriminate|].
  destruct (dict_getitem labels 0%Z) as [e|label0] eqn:H0; [discriminate|].
  destruct (dict_getitem labels 1%Z) as [e|label1] eqn:H1; [discriminate|].
  destruct (df_get d2 sensitive) as [e|s] eqn:Hs; [discriminate|].
  cbv zeta.
  destruct (plots_bar_cohorts sv (cohort_labels first_key label0 label1 sX))
    as [e|] eqn:Hplot1; [discriminate|].
  destruct (explain (cohort_table d2 s ys (predict dX) group target))
    as [e|sv2] eqn:Hsv2; [discriminate|].
  destruct (plots_bar sv2) as [e|] eqn:Hplot2; [discriminate|].
  destruct (count_true (cohort_rows s ys (predict dX) group target)) as [|n]
    eqn:Hcount; [discriminate|].
  cbn [fst snd]. unfold explain_record.
  destruct (list_getitem sv2 (Z.of_nat (fst (randbelow (S n) rs))))
    as [e|row] eqn:Hrow; [discriminate|].
  destruct (plots_waterfall row) as [e|] eqn:Hplot3; [discriminate|].
  intros _.
  exists d2, sX, s, first_key, label0, label1, sv, sv2, row.
  apply list_getitem_head in Hfirst. apply dict_getitem_Some in H0, H1.
  apply list_getitem_lookup in Hrow.
  rewrite Hcount.
  repeat (split; [first [reflexivity | assumption | lia]|]).
  reflexivity.
Qed.

Lemma attribution_ready_returns (labels : dict Z string) (sensitive : string)
    (group target : Z) (dX : DataFrame) (ys : Series) (rs : random_state) :
  attribution_ready labels sensitive group target dX ys rs ->
  snd (attribution_trace labels sensitive group target dX ys rs) = None.
Proof.
  intros (d2 & sX & s & first_key & label0 & label1 & sv & sv2 & row
          & Hwt & Hsv & HsX & Hfirst & H0 & H1 & Hplot1 & Hs & Hsv2 & Hplot2
          & Hpos & Hrow & Hplot3).
  apply list_getitem_head in Hfirst. apply dict_getitem_Some in H0, H1.
  apply list_getitem_lookup in Hrow.
  unfold attribution_trace, attribution_prefix.
  rewrite Hwt, Hsv, HsX, Hfirst, H0, H1, Hs. cbv zeta.
  rewrite Hplot1, Hsv2, Hplot2.
  destruct (count_true (cohort_rows s ys (predict dX) group target)) as [|n];
    [lia|].
  cbn [fst snd]. unfold explain_record. rewrite Hrow, Hplot3. reflexivity.
Qed.

(** X16.  What a normal return of [understand_shap] means.  On a well-formed
    test frame with one true label per record, whenever the call returns,
    the misclassified cohort of the given group and predicted label is not
    empty; [randrange] was asked for a number below the size of the cohort;
    the last chart shown is the waterfall of the row at that position in the
    explanation of the cohort (the cohort's records without the columns [t]
    and [p]); and the generator is left as [randrange] left it. *)
Theorem understand_shap_explains_cohort_member (self : FairDetect)
    (labels : dict Z string) (sensitive : string)
    (affected_group affected_target : Z) (w w' : world)
    (dX : DataFrame) (ys : Series) :
  heap w !! X_test self = Some (ODataFrame dX) ->
  heap w !! y_test self = Some (OArray ys) ->
  df_wf dX -> length ys = df_len dX ->
  understand_shap self labels sensitive affected_group affected_target w
  = (inr tt, w') ->
  exists d2 s e n row,
    working_table dX ys (predict dX) = inr d2
    /\ df_get d2 sensitive = inr s
    /\ n = count_true (cohort_rows s ys (predict dX) affected_group affected_target)
    /\ (0 < n)%nat
    /\ explain (cohort_table d2 s ys (predict dX) affected_group affected_target)
       = inr e
    /\ (fst (randbelow n (rng w)) < n)%nat
    /\ e !! fst (randbelow n (rng w)) = Some row
    /\ last (stdout w') = Some (ShapWaterfall row)
    /\ rng w' = snd (randbelow n (rng w)).
Proof.
  intros HX Hy Hwf _ Hrun.
  pose proof (understand_shap_run self labels sensitive affected_group
                affected_target w dX ys HX Hy Hwf) as Hwp.
  unfold wp in Hwp. rewrite Hrun in Hwp. cbn [fst snd] in Hwp.
  destruct Hwp as (Hr & Hout & Hrng).
  destruct (snd (attribution_trace labels sensitive affected_group
                   affected_target dX ys (rng w))) as [e|] eqn:Hend;
    [discriminate|].
  destruct (attribution_trace_returned _ _ _ _ _ _ _ Hend)
    as (d2 & sX & s & k & l0 & l1 & sv & sv2 & row & Hwt & _ & _ & _ & _ & _ & _
        & Hs & Hsv2 & _ & Hpos & Hrow & _ & Hout' & Hrng').
  exists d2, s, sv2,
    (count_true (cohort_rows s ys (predict dX) affected_group affected_target)),
    row.
  split; [exact Hwt|]. split; [exact Hs|]. split; [reflexivity|].
  split; [exact Hpos|]. split; [exact Hsv2|].
  split; [now apply randbelow_lt|]. split; [exact Hrow|].
  split; [|congruence].
  rewrite Hout, Hout'. unfold attribution_output.
  rewrite last_app. reflexivity.
Qed.

(** X17.  Everything a complete run of [understand_shap] prints and shows,
    in order, on a well-formed test frame with one true label per record:
    the global importance by cohort and the importance within the
    misclassified cohort; the chart of the cohort against the members of the
    true class and the chart of the cohort against all records, with the
    values of the two formulas; the waterfall of one record.  The importance
    chart and the two comparisons (lines 546, 560 and 575) are about the same
    records, those misclassified into the given label within the given
    group. *)
Theorem understand_shap_output (self : FairDetect)
    (labels : dict Z string) (sensitive : string)
    (affected_group affected_target : Z) (w w' : world)
    (dX : DataFrame) (ys : Series) :
  heap w !! X_test self = Some (ODataFrame dX) ->
  heap w !! y_test self = Some (OArray ys) ->
  df_wf dX -> length ys = df_len dX ->
  understand_shap self labels sensitive affected_group affected_target w
  = (inr tt, w') ->
  exists d2 sX s first_key label0 label1 sv sv2 row,
    working_table dX ys (predict dX) = inr d2
    /\ df_get dX sensitive = inr sX
    /\ df_get d2 sensitive = inr s
    /\ head (dict_keys labels) = Some first_key
    /\ dict_get labels 0%Z = Some label0
    /\ dict_get labels 1%Z = Some label1
    /\ explain dX = inr sv
    /\ explain (cohort_table d2 s ys (predict dX) affected_group affected_target)
       = inr sv2
    /\ In row sv2
    /\ stdout w'
       = stdout w ++
         attribution_output sv
           (map (fun v => if Qeq_bool v (inject_Z first_key)
                          then label0 else label1) sX)
           sv2
           (spec_compare_to_true_class d2 s ys (predict dX) sensitive
              affected_group affected_target)
           (spec_compare_to_all d2 s ys (predict dX) sensitive
              affected_group affected_target)
           row.
Proof.
  intros HX Hy Hwf _ Hrun.
  pose proof (understand_shap_run self labels sensitive affected_group
                affected_target w dX ys HX Hy Hwf) as Hwp.
  unfold wp in Hwp. rewrite Hrun in Hwp. cbn [fst snd] in Hwp.
  destruct Hwp as (Hr & Hout & Hrng).
  destruct (snd (attribution_trace labels sensitive affected_group
                   affected_target dX ys (rng w))) as [e|] eqn:Hend;
    [discriminate|].
  destruct (attribution_trace_returned _ _ _ _ _ _ _ Hend)
    as (d2 & sX & s & k & l0 & l1 & sv & sv2 & row & Hwt & Hsv & HsX & Hk & H0 & H1
        & _ & Hs & Hsv2 & _ & _ & Hrow & _ & Hout' & _).
  exists d2, sX, s, k, l0, l1, sv, sv2, row.
  do 8 (split; [assumption|]).
  split; [apply list_elem_of_In; eapply list_elem_of_lookup_2; exact Hrow|].
  rewrite Hout, Hout'. reflexivity.
Qed.

(** X18.  When [understand_shap] returns.  On a well-formed test frame with
    one true label per record, the call returns normally exactly when: the
    predictions fit the frame, the explainer accepts the test frame, the
    sensitive column is in the frame, the label map has the keys 0 and 1,
    the chart of the two cohorts is drawn, the misclassified cohort of the
    given group and predicted label is not empty, the explainer accepts the
    cohort and the chart of its explanation is drawn, the explanation has a
    row at the position [randrange] returns, and the waterfall of that row
    is drawn. *)
Theorem understand_shap_returns_iff (self : FairDetect)
    (labels : dict Z string) (sensitive : string)
    (affected_group affected_target : Z) (w : world)
    (dX : DataFrame) (ys : Series) :
  heap w !! X_test self = Some (ODataFrame dX) ->
  heap w !! y_test self = Some (OArray ys) ->
  df_wf dX -> length ys = df_len dX ->
  (exists w',
     understand_shap self labels sensitive affected_group affected_target w
     = (inr tt, w'))
  <-> attribution_ready labels sensitive affected_group affected_target
        dX ys (rng w).
Proof.
  intros HX Hy Hwf _.
  pose proof (understand_shap_run self labels sensitive affected_group
                affected_target w dX ys HX Hy Hwf) as Hwp.
  unfold wp in Hwp.
  destruct (understand_shap self labels sensitive affected_group
              affected_target w) as [r w'] eqn:Hrun; cbn [fst snd] in Hwp.
  destruct Hwp as (-> & _ & _).
  split.
  - intros [w'' Hret]. injection Hret as Hret _.
    destruct (snd (attribution_trace labels sensitive affected_group
                     affected_target dX ys (rng w))) as [e|] eqn:Hend;
      [discriminate|].
    destruct (attribution_trace_returned _ _ _ _ _ _ _ Hend)
      as (d2 & sX & s & k & l0 & l1 & sv & sv2 & row & H).
    exists d2, sX, s, k, l0, l1, sv, sv2, row.
    repeat (split; [apply H|]). apply H.
  - intros Hready. rewrite (attribution_ready_returns _ _ _ _ _ _ _ Hready).
    now exists w'.
Qed.

(** * The rows of the normalised table *)

Lemma count_eq_In (s : Series) (g : Q) : In g s -> (0 < count_eq s g)%Z.
Proof.
  intros Hg. unfold count_eq.
  assert (Hf : In g (List.filter (fun a => Qeq_bool a g) s)).
  { apply filter_In. split; [exact Hg|]. apply Qeq_bool_iff. reflexivity. }
  destruct (List.filter _ s); [destruct Hf | simpl; lia].
Qed.

(** C7.  The table that [representation] hands to [tabulate] (line 142) and
    returns is the row-normalised contingency table of line 119, transposed:
    one line per target label and, in every line, one cell per sensitive
    group, in increasing order of the groups.  Every value of the sensitive
    column has its group; and for every sensitive group, the cells of the
    group (one in each line: a row of the normalised table) are finite
    numbers whose sum is within 1e-9 of 1. *)
Theorem normalized_rows_sum_to_one (X y predictions : loc) (sensitive : string)
    (labels : dict Z string) (w w' : world) (dX : DataFrame) (ys ps s : Series)
    (table : Table) (sens_df : dict string loc) (fig : figure) (p : float) :
  heap w !! X = Some (ODataFrame dX) ->
  heap w !! y = Some (OArray ys) ->
  heap w !! predictions = Some (OArray ps) ->
  df_wf dX ->
  length ys = df_len dX -> length ps = df_len dX ->
  df_get dX sensitive = inr s ->
  sensitive <> "p"%string -> sensitive <> "t"%string ->
  labels <> [] ->
  representation X y sensitive labels predictions w
  = (inr (table, sens_df, fig, p), w') ->
  map fst (tab_rows table) = unique_sorted ys
  /\ (forall x, In x s -> exists j g, unique_sorted s !! j = Some g /\ x == g)
  /\ forall j g, unique_sorted s !! j = Some g ->
       exists qs : list Q,
         map (fun line => snd line !! j) (tab_rows table)
         = map (fun q => Some (Fin q)) qs
         /\ Qabs (Qsum qs - 1) <= tolerance.
Proof.
  intros HX Hy Hp Hwf Lys Lps Hs Hnp Hnt Hne Hrun.
  destruct (representation_table_total dX ys ps Lys Lps) as [d2 Htab].
  pose proof (representation_outcome X y predictions sensitive labels w dX d2
                ys ps s HX Hy Hp Htab Hs Hnp Hnt Hne) as Hwp.
  unfold wp in Hwp. rewrite Hrun in Hwp. cbn [fst snd] in Hwp.
  destruct Hwp as (_ & _ & _ & -> & _).
  assert (Ls : length s = length ys)
    by (rewrite (df_wf_get _ _ _ Hwf Hs); now symmetry).
  rewrite (tabulate_T_cells s ys (dict_values labels) Ls). cbn [tab_rows].
  destruct (fst_zip_same_length s ys Ls) as [Hfst Hsnd].
  split; [|split].
  - rewrite map_map. cbn [fst]. apply map_id.
  - intros x Hx. destruct (unique_sorted_cover x s Hx) as (g & Hg & Hxg).
    apply list_elem_of_In, list_elem_of_lookup in Hg as [j Hj].
    now exists j, g.
  - intros j g Hj.
    assert (Hg : In g s).
    { apply unique_sorted_in, list_elem_of_In.
      eapply list_elem_of_lookup_2. exact Hj. }
    set (row := map (fun u => count_pairs (zip s ys) g u) (unique_sorted ys)).
    assert (Hsum : Zsum row = count_eq s g).
    { unfold row. rewrite Zsum_count_pairs, Hfst;
        [reflexivity | apply unique_sorted_sorted |].
      intros x' y' Hin. apply unique_sorted_cover. rewrite <- Hsnd.
      exact (in_map snd _ (x', y') Hin). }
    destruct (normalized_row_sums_to_one row) as (qs & Hqs & Hbound).
    { apply List.Forall_forall. intros n Hn. unfold row in Hn.
      apply in_map_iff in Hn as (u & <- & _). apply count_pairs_nonneg. }
    { rewrite Hsum. now apply count_eq_In. }
    exists qs. split; [|exact Hbound].
    rewrite map_map. cbn [snd].
    transitivity (map Some (map (fun n => fillna0 (int_truediv n (Zsum row))) row)).
    + unfold row. rewrite !map_map. apply map_ext. intros u.
      rewrite list_lookup_fmap, Hj. cbn.
      fold row. now rewrite Hsum.
    + rewrite Hqs, map_map. reflexivity.
Qed.

(** * The empty cohort *)

Lemma trace_empty_cohort_raises (labels : dict Z string) (sensitive : string)
    (group target : Z) (dX : DataFrame) (ys : Series) (rs : random_state) :
  df_wf dX ->
  (forall d, working_table dX ys (predict dX) = inr d ->
             cohort_empty d sensitive group target) ->
  exists e,
    snd (attribution_trace labels sensitive group target dX ys rs) = Some e
    /\ snd (fst (attribution_trace labels sensitive group target dX ys rs)) = rs
    /\ forall row,
         ~ In (ShapWaterfall row)
              (fst (fst (attribution_trace labels sensitive group target dX ys rs))).
Proof.
  intros Hwf Hempty. unfold attribution_trace, attribution_prefix.
  destruct (working_table dX ys (predict dX)) as [e|d2] eqn:Hwt;
    [exists e; cbn; auto|].
  specialize (Hempty d2 eq_refl).
  destruct (working_table_relabel _ _ _ _ Hwt) as (_ & _ & Gt & Gp).
  destruct (explain dX) as [e|sv]; [exists e; cbn; auto|].
  destruct (df_get dX sensitive) as [e|sX]; [exists e; cbn; auto|].
  destruct (list_getitem (dict_keys labels) 0) as [e|first_key];
    [exists e; cbn; auto|].
  destruct (dict_getitem labels 0%Z) as [e|label0]; [exists e; cbn; auto|].
  destruct (dict_getitem labels 1%Z) as [e|label1]; [exists e; cbn; auto|].
  destruct (df_get d2 sensitive) as [e|s] eqn:Hs; [exists e; cbn; auto|].
  rewrite (Hempty s ys (predict dX) Hs Gt Gp). cbv zeta.
  destruct (plots_bar_cohorts sv (cohort_labels first_key label0 label1 sX))
    as [e|].
  { exists e. cbn. repeat split.
    intros row Hin. repeat (destruct Hin as [Hin|Hin]; [discriminate|]).
    destruct Hin. }
  destruct (explain (cohort_table d2 s ys (predict dX) group target))
    as [e|sv2].
  { exists e. cbn. repeat split.
    intros row Hin. repeat (destruct Hin as [Hin|Hin]; [discriminate|]).
    destruct Hin. }
  destruct (plots_bar sv2) as [e|].
  { exists e. cbn. repeat split.
    intros row Hin. repeat (destruct Hin as [Hin|Hin]; [discriminate|]).
    destruct Hin. }
  exists ValueError. cbn. repeat split.
  intros row Hin. repeat (destruct Hin as [Hin|Hin]; [discriminate|]).
  destruct Hin.
Qed.

Lemma trace_empty_cohort_refusal (labels : dict Z string) (sensitive : string)
    (group target : Z) (dX : DataFrame) (ys : Series) (rs : random_state)
    d2 sv sX s first_key label0 label1 :
  working_table dX ys (predict dX) = inr d2 ->
  explain dX = inr sv ->
  df_get dX sensitive = inr sX ->
  df_get d2 sensitive = inr s ->
  head (dict_keys labels) = Some first_key ->
  dict_get labels 0%Z = Some label0 ->
  dict_get labels 1%Z = Some label1 ->
  plots_bar_cohorts sv (cohort_labels first_key label0 label1 sX) = None ->
  count_true (cohort_rows s ys (predict dX) group target) = 0%nat ->
  snd (attribution_trace labels sensitive group target dX ys rs)
  = Some (empty_cohort_refusal (cohort_table d2 s ys (predict dX) group target)).
Proof.
  intros Hwt Hsv HsX Hs Hk H0 H1 Hplot Hcount.
  apply list_getitem_head in Hk. apply dict_getitem_Some in H0, H1.
  unfold attribution_trace, attribution_prefix, empty_cohort_refusal.
  rewrite Hwt, Hsv, HsX, Hk, H0, H1, Hs. cbv zeta. rewrite Hplot, Hcount.
  destruct (explain (cohort_table d2 s ys (predict dX) group target))
    as [e|sv2]; [reflexivity|].
  destruct (plots_bar sv2) as [e|]; reflexivity.
Qed.

(** C4, as the code has it.  On a well-formed test frame with one true
    label per record, when no record is misclassified into the given label
    within the given group, [understand_shap] ends in an exception, has
    drawn no waterfall and has left the random generator as it was: no
    record is sampled.  Where the steps before line 553 succeed, the
    exception is the one with which the explainer (line 553) or the bar
    chart of its explanation (line 554) refuses the empty cohort and, if
    both accept it, the [ValueError] of [randrange] on an empty range (line
    586).  No condition of its own is reported for the empty cohort. *)
Theorem empty_cohort_raises_without_sampling (self : FairDetect)
    (labels : dict Z string) (sensitive : string)
    (affected_group affected_target : Z) (w : world)
    (dX : DataFrame) (ys : Series) :
  heap w !! X_test self = Some (ODataFrame dX) ->
  heap w !! y_test self = Some (OArray ys) ->
  df_wf dX -> length ys = df_len dX ->
  (forall d, working_table dX ys (predict dX) = inr d ->
             cohort_empty d sensitive affected_group affected_target) ->
  exists e w' out,
    understand_shap self labels sensitive affected_group affected_target w
    = (inl e, w')
    /\ rng w' = rng w
    /\ stdout w' = stdout w ++ out
    /\ (forall row, ~ In (ShapWaterfall row) out)
    /\ forall d2 sv sX s first_key label0 label1,
         working_table dX ys (predict dX) = inr d2 ->
         explain dX = inr sv ->
         df_get dX sensitive = inr sX ->
         df_get d2 sensitive = inr s ->
         head (dict_keys labels) = Some first_key ->
         dict_get labels 0%Z = Some label0 ->
         dict_get labels 1%Z = Some label1 ->
         plots_bar_cohorts sv (cohort_labels first_key label0 label1 sX) = None ->
         e = empty_cohort_refusal
               (cohort_table d2 s ys (predict dX) affected_group affected_target).
Proof.
  intros HX Hy Hwf _ Hempty.
  pose proof (understand_shap_run self labels sensitive affected_group
                affected_target w dX ys HX Hy Hwf) as Hwp.
  unfold wp in Hwp.
  destruct (understand_shap self labels sensitive affected_group
              affected_target w) as [r w'].
  cbn [fst snd] in Hwp. destruct Hwp as (-> & Hout & Hrng).
  destruct (trace_empty_cohort_raises labels sensitive affected_group
              affected_target dX ys (rng w) Hwf Hempty) as (e & He & Hrs & Hrows).
  exists e, w'. eexists. rewrite He. split; [reflexivity|].
  split; [congruence|]. split; [exact Hout|]. split; [exact Hrows|].
  intros d2 sv sX s first_key label0 label1 Hwt Hsv HsX Hs Hk H0 H1 Hplot.
  destruct (working_table_relabel _ _ _ _ Hwt) as (_ & _ & Gt & Gp).
  pose proof (trace_empty_cohort_refusal labels sensitive affected_group
                affected_target dX ys (rng w) d2 sv sX s first_key label0 label1
                Hwt Hsv HsX Hs Hk H0 H1 Hplot
                (Hempty d2 Hwt s ys (predict dX) Hs Gt Gp)) as Href.
  congruence.
Qed.

(** * Determinism *)

Lemma outcome_rel_impl {A} (R R' : A -> A -> Prop) (r1 r2 : result A) :
  (forall a1 a2, R a1 a2 -> R' a1 a2) ->
  outcome_rel R r1 r2 -> outcome_rel R' r1 r2.
Proof. intros HR. destruct r1, r2; simpl; auto. Qed.

Lemma outcome_rel_eq_inv {A} (r1 r2 : result A) : outcome_rel eq r1 r2 -> r1 = r2.
Proof. destruct r1, r2; simpl; intros HR; now subst. Qed.

Lemma input_loc_rel B1 B2 l1 l2 : input_rel B1 B2 l1 l2 -> loc_rel B1 B2 l1 l2.
Proof. now left. Qed.

(** C9.  The representation, ability and predictive analyses are
    deterministic.  Take two runs that start in any two worlds, whatever
    their random generators hold and whatever else their heaps hold, on
    inputs with the same contents.  Then the two runs of [representation]
    raise the same exception or return the same contingency table, the same
    figure, the same p-value and partitions with the same names and equal
    frames; the two runs of [ability] have the same outcome, and so have the
    two runs of [predictive].  Two runs of [understand_shap] on the same
    well-formed test frame and the same true labels print and show the same
    things up to the last step; either both end there, with the same
    exception and their generators untouched, or both go on to explain one
    record of the same explanation of the same cohort, and all that differs
    between them is which record the generator of each run picks. *)
Theorem analyses_deterministic (w1 w2 : world) :
  (forall (X1 X2 y1 y2 p1 p2 : loc) (sensitive : string) (labels : dict Z string),
     input_rel w1 w2 X1 X2 -> input_rel w1 w2 y1 y2 -> input_rel w1 w2 p1 p2 ->
     let run1 := representation X1 y1 sensitive labels p1 w1 in
     let run2 := representation X2 y2 sensitive labels p2 w2 in
     outcome_rel
       (representation_rel
          (fun l1 l2 => heap (snd run1) !! l1 = heap (snd run2) !! l2))
       (fst run1) (fst run2))
  /\ (forall (self1 self2 : FairDetect) (p1 p2 s1 s2 : loc),
        input_rel w1 w2 (y_test self1) (y_test self2) ->
        input_rel w1 w2 p1 p2 -> input_rel w1 w2 s1 s2 ->
        fst (ability self1 p1 s1 w1) = fst (ability self2 p2 s2 w2))
  /\ (forall (labels : dict Z string) (sd1 sd2 : dict string loc),
        partition_rel (input_rel w1 w2) sd1 sd2 ->
        fst (predictive labels sd1 w1) = fst (predictive labels sd2 w2))
  /\ (forall (self1 self2 : FairDetect) (labels : dict Z string)
             (sensitive : string) (affected_group affected_target : Z)
             (dX : DataFrame) (ys : Series),
        heap w1 !! X_test self1 = Some (ODataFrame dX) ->
        heap w2 !! X_test self2 = Some (ODataFrame dX) ->
        heap w1 !! y_test self1 = Some (OArray ys) ->
        heap w2 !! y_test self2 = Some (OArray ys) ->
        df_wf dX -> length ys = df_len dX ->
        let run1 := understand_shap self1 labels sensitive affected_group
                      affected_target w1 in
        let run2 := understand_shap self2 labels sensitive affected_group
                      affected_target w2 in
        exists out : list event,
          (exists e,
             fst run1 = inl e /\ fst run2 = inl e
             /\ stdout (snd run1) = stdout w1 ++ out
             /\ stdout (snd run2) = stdout w2 ++ out
             /\ rng (snd run1) = rng w1 /\ rng (snd run2) = rng w2)
          \/ (exists (sv2 : explanation) (n : nat),
                (0 < n)%nat
                /\ let k1 := fst (randbelow n (rng w1)) in
                   let k2 := fst (randbelow n (rng w2)) in
                   fst run1 = ended (snd (explain_record sv2 k1))
                   /\ fst run2 = ended (snd (explain_record sv2 k2))
                   /\ stdout (snd run1)
                      = stdout w1 ++ out ++ fst (explain_record sv2 k1)
                   /\ stdout (snd run2)
                      = stdout w2 ++ out ++ fst (explain_record sv2 k2))).
Proof.
  split; [|split; [|split]].
  - intros X1 X2 y1 y2 p1 p2 sensitive labels HX Hy Hp run1 run2.
    destruct (related_representation w1 w2 X1 X2 y1 y2 p1 p2 sensitive labels
                (input_loc_rel _ _ _ _ HX) (input_loc_rel _ _ _ _ Hy)
                (input_loc_rel _ _ _ _ Hp) w1 w2 (sim_start w1 w2))
      as [Hsim Hout].
    fold run1 run2 in Hsim, Hout.
    eapply outcome_rel_impl; [|exact Hout].
    intros a b (Ht & Hsd & Hf & Hpv). repeat split; try assumption.
    eapply partition_rel_weaken; [|exact Hsd].
    intros l1 l2 Hl. eapply sim_lookup; [exact Hsim | now right].
  - intros self1 self2 p1 p2 s1 s2 Hy Hp Hs.
    apply outcome_rel_eq_inv.
    apply (related_ability w1 w2 self1 self2 p1 p2 s1 s2
             (input_loc_rel _ _ _ _ Hy) (input_loc_rel _ _ _ _ Hp)
             (input_loc_rel _ _ _ _ Hs) w1 w2 (sim_start w1 w2)).
  - intros labels sd1 sd2 Hsd.
    apply outcome_rel_eq_inv.
    apply (related_predictive w1 w2 labels sd1 sd2); [|apply sim_start].
    eapply partition_rel_weaken; [|exact Hsd]. intros l1 l2. apply input_loc_rel.
  - intros self1 self2 labels sensitive g tg dX ys HX1 HX2 Hy1 Hy2 Hwf _
           run1 run2.
    pose proof (understand_shap_run self1 labels sensitive g tg w1 dX ys
                  HX1 Hy1 Hwf) as Hrun1.
    pose proof (understand_shap_run self2 labels sensitive g tg w2 dX ys
                  HX2 Hy2 Hwf) as Hrun2.
    unfold wp in Hrun1, Hrun2. fold run1 in Hrun1. fold run2 in Hrun2.
    destruct Hrun1 as (Hr1 & Ho1 & Hg1). destruct Hrun2 as (Hr2 & Ho2 & Hg2).
    revert Hr1 Ho1 Hg1 Hr2 Ho2 Hg2. unfold attribution_trace.
    destruct (attribution_prefix labels sensitive g tg dX ys)
      as [out [e|[sv2 [|n]]]]; cbn [fst snd]; intros Hr1 Ho1 Hg1 Hr2 Ho2 Hg2;
      exists out.
    + left. exists e. auto 10.
    + left. exists ValueError. auto 10.
    + right. exists sv2, (S n). split; [lia|]. cbv zeta. auto.
Qed.

End Properties.

(** * The interactive label map *)

Section CreateLabels.
Context {order : PySet}.

Lemma num_dict_set_fresh (d : dict Q string) (k : Q) (v : string) :
  ~ InA Qeq k (dict_keys d) -> num_dict_set d k v = d ++ [(k, v)].
Proof.
  induction d as [|[k' v'] d IH]; simpl; [reflexivity|].
  intros Hk. destruct (Qeq_bool k' k) eqn:Heq.
  - exfalso. apply Hk. left. symmetry. now apply Qeq_bool_iff.
  - rewrite IH; [reflexivity|]. intros Hin. apply Hk. now right.
Qed.

Lemma label_groups_run (groups : list Q) (acc : dict Q string) (c : console) :
  NoDupA Qeq groups ->
  (forall k, InA Qeq k (dict_keys acc) -> ~ InA Qeq k groups) ->
  (length groups <= length (stdin c))%nat ->
  label_groups groups acc c
  = (inr (acc ++ zip groups (take (length groups) (stdin c))),
     mkConsole (drop (length groups) (stdin c))
               (prompts c ++ map label_prompt groups)).
Proof.
  revert acc c. induction groups as [|i groups IH]; intros acc c Hnd Hacc Hlen.
  - simpl. rewrite drop_0, !app_nil_r. now destruct c.
  - simpl in Hlen. cbn [label_groups]. unfold input.
    destruct (stdin c) as [|line rest] eqn:Hin; [simpl in Hlen; lia|].
    simpl in Hlen. inversion Hnd as [|? ? Hi Hnd']. subst.
    rewrite IH; cbn [stdin prompts].
    + rewrite num_dict_set_fresh.
      * simpl. rewrite <- !app_assoc. reflexivity.
      * intros Hk. apply (Hacc i Hk). now left.
    + exact Hnd'.
    + intros k Hk. rewrite num_dict_set_fresh in Hk
        by (intros Hk'; apply (Hacc i Hk'); now left).
      unfold dict_keys in Hk. rewrite map_app in Hk.
      apply InA_app in Hk as [Hk|Hk].
      * intros Hg. apply (Hacc k Hk). now right.
      * inversion Hk as [? ? Heq|? ? Hnil]; [|inversion Hnil]. subst.
        simpl in Heq. intros Hg. apply Hi. now rewrite <- Heq.
    + lia.
Qed.

Lemma label_groups_eof (groups : list Q) (acc : dict Q string) (c : console) :
  (length (stdin c) < length groups)%nat ->
  label_groups groups acc c
  = (inl EOFError,
     mkConsole []
       (prompts c ++ map label_prompt (take (S (length (stdin c))) groups))).
Proof.
  revert acc c. induction groups as [|i groups IH]; intros acc c Hlen.
  - simpl in Hlen. lia.
  - cbn [label_groups]. unfold input.
    destruct (stdin c) as [|line rest] eqn:Hin.
    + simpl. reflexivity.
    + simpl in Hlen. rewrite IH by (cbn [stdin]; lia). cbn [stdin prompts].
      simpl. rewrite <- !app_assoc. reflexivity.
Qed.

Lemma zip_In_fst {A B} (l : list A) (k : list B) (a : A) :
  (length l <= length k)%nat -> In a l -> exists b, In (a, b) (zip l k).
Proof.
  revert k. induction l as [|x l IH]; intros [|y k] Hlen Hin; simpl in *;
    try tauto; try lia.
  destruct Hin as [->|Hin].
  - exists y. now left.
  - destruct (IH k ltac:(lia) Hin) as [b Hb]. exists b. now right.
Qed.

(** X19.  [create_labels] with enough answers.  When the sensitive column is
    in the frame and the console holds at least one line per distinct value
    of the column, the call returns a map with exactly one entry per
    distinct value, in the order of iteration, labelled with the lines in
    the order in which they were entered: every value of the column has a
    label.  It has asked one question per distinct value and read exactly
    that many lines. *)
Theorem create_labels_labels_every_group (X_test : loc) (sensitive : string)
    (w : world) (c : console) (d : DataFrame) (values : Series) :
  heap w !! X_test = Some (ODataFrame d) ->
  df_get d sensitive = inr values ->
  distinct_values (set_iter values) values ->
  (length (set_iter values) <= length (stdin c))%nat ->
  exists sensitive_label,
    create_labels X_test sensitive w c
    = (inr sensitive_label,
       mkConsole (drop (length (set_iter values)) (stdin c))
                 (prompts c ++ map label_prompt (set_iter values)))
    /\ sensitive_label
       = zip (set_iter values) (take (length (set_iter values)) (stdin c))
    /\ NoDupA Qeq (dict_keys sensitive_label)
    /\ forall x, In x values ->
         exists k label, k == x /\ In (k, label) sensitive_label.
Proof.
  intros HX Hs [Hnd Hmem] Hlen.
  exists (zip (set_iter values) (take (length (set_iter values)) (stdin c))).
  assert (Hkeys : dict_keys (zip (set_iter values)
                               (take (length (set_iter values)) (stdin c)))
                  = set_iter values).
  { unfold dict_keys. apply fst_zip. rewrite length_take. lia. }
  split; [|split; [reflexivity|split]].
  - unfold create_labels, df_getitem, bind, read_frame, lift.
    rewrite HX. cbn [fst]. rewrite Hs.
    rewrite label_groups_run; [reflexivity | exact Hnd | | exact Hlen].
    intros k Hk. inversion Hk.
  - rewrite Hkeys. exact Hnd.
  - intros x Hx.
    assert (HxA : InA Qeq x values) by (apply InA_alt; exists x; now split).
    apply Hmem, InA_alt in HxA as (k & Hk & Hin).
    destruct (zip_In_fst (set_iter values)
                (take (length (set_iter values)) (stdin c)) k) as [label Hl];
      [rewrite length_take; lia | exact Hin |].
    exists k, label. split; [now symmetry | exact Hl].
Qed.

(** X20.  [create_labels] when it cannot finish.  An unknown column name is
    a [KeyError] before any question is asked.  When the input ends before
    every distinct value has its label, the call raises [EOFError] right
    after the first question without an answer, and the labels entered so
    far are not returned. *)
Theorem create_labels_failures (X_test : loc) (sensitive : string)
    (w : world) (c : console) (d : DataFrame) :
  heap w !! X_test = Some (ODataFrame d) ->
  (~ In sensitive (dict_keys (df_cols d)) ->
   create_labels X_test sensitive w c = (inl (Raised KeyError), c))
  /\ (forall values,
        df_get d sensitive = inr values ->
        (length (stdin c) < length (set_iter values))%nat ->
        create_labels X_test sensitive w c
        = (inl EOFError,
           mkConsole []
             (prompts c ++
              map label_prompt (take (S (length (stdin c))) (set_iter values))))).
Proof.
  intros HX. split.
  - intros Hmiss. unfold create_labels, df_getitem, bind, read_frame, lift.
    rewrite HX. cbn [fst].
    unfold df_get, dict_getitem.
    destruct (dict_get (df_cols d) sensitive) as [v|] eqn:Hg; [|reflexivity].
    exfalso. apply Hmiss. eapply dict_get_In. exact Hg.
  - intros values Hs Hlen. unfold create_labels, df_getitem, bind, read_frame, lift.
    rewrite HX. cbn [fst]. rewrite Hs. now apply label_groups_eof.
Qed.

End CreateLabels.

(** * The theorems at work on the demo audit *)

Ltac decide_by_computation :=
  match goal with
  | |- ?P => apply (bool_decide_unpack P); vm_compute; exact I
  end.

Lemma demo_X_wf : df_wf demo_X.
Proof. unfold df_wf. split; decide_by_computation. Defined.

(** C1 on the demo audit. *)
Lemma ability_metrics_demo :
  exists mf tpr fpr tnr fnr sel acc,
    ability demo_self 2%nat 3%nat demo_world = (inr mf, demo_world)
    /\ by_group mf =
         [("true_positive_rate_m", tpr); ("false_positive_rate_m", fpr);
          ("true_negative_rate_m", tnr); ("false_negative_rate_m", fnr);
          ("selection_rate", sel); ("accuracy_score", acc)]%string
    /\ ability_p_values (by_group mf) =
         [("true_positive_rate_m",
           snd (chisquare (map (fun x => fmul x (Fin 100)) tpr) None));
          ("false_positive_rate_m",
           snd (chisquare (map (fun x => fmul x (Fin 100)) fpr) None));
          ("true_negative_rate_m",
           snd (chisquare (map (fun x => fmul x (Fin 100)) tnr) None));
          ("false_negative_rate_m",
           snd (chisquare (map (fun x => fmul x (Fin 100)) fnr) None))]%string.
Proof.
  assert (Hrun : exists mf, ability demo_self 2%nat 3%nat demo_world
                            = (inr mf, demo_world))
    by (eexists; vm_compute; reflexivity).
  destruct Hrun as [mf Hrun].
  destruct (ability_metrics_tests_four_rates demo_self 2%nat 3%nat
              demo_world demo_world mf Hrun)
    as (tpr & fpr & tnr & fnr & sel & acc & Hby & Hp & _).
  exists mf, tpr, fpr, tnr, fnr, sel, acc. auto.
Defined.

(** C2 on the p-values of the specification. *)
Lemma verdict_policy_demo :
  predictive_verdict (flit (5 # 1000)) = predictive_line Reject99 (flit (5 # 1000))
  /\ ability_verdict "true_positive_rate_m" (flit (3 # 100))
     = ability_line Reject95 "true_positive_rate_m" (flit (3 # 100))
  /\ representation_verdict "sex" (flit (8 # 100))
     = representation_line Reject90 "sex" (flit (8 # 100))
  /\ predictive_verdict (flit (1 # 2)) = predictive_line AcceptH0 (flit (1 # 2))
  /\ (strength Reject95 <= strength Reject99)%nat.
Proof.
  destruct verdict_policy_four_tiers_monotone as (Hbranch & _ & Hmono).
  destruct verdict_examples as (H99 & H95 & H90 & Hacc).
  split; [|split; [|split; [|split]]].
  - apply (Hbranch "x"%string "x"%string _ _ H99).
  - apply (Hbranch "true_positive_rate_m"%string "x"%string _ _ H95).
  - apply (Hbranch "x"%string "sex"%string _ _ H90).
  - apply (Hbranch "x"%string "x"%string _ _ Hacc).
  - apply (Hmono (flit (5 # 1000)) (flit (3 # 100)) Reject99 Reject95);
      [vm_compute; reflexivity | exact H99 | exact H95].
Defined.

Lemma demo_table_wf : df_wf demo_table.
Proof. unfold df_wf. split; decide_by_computation. Defined.

(** C3 on the demo audit: group 0, predicted label 1.  The cohort has the
    ages 50 and 45 and the scores 0.7 and 0.8, the true class the age 30 and
    the score 0.9: (47.5 - 30) / 47.5 and (0.75 - 0.9) / 0.75, in binary64. *)
Lemma compare_to_true_class_demo :
  exists w',
    compare_to_true_class 4%nat "sex" 0 1 demo_table_world
    = (inr (["age"; "score"]%string,
            [Fin (6636883661388099 # 18014398509481984);
             Fin (-7205759403792795 # 36028797018963968)]), w')
    /\ extends demo_table_world w'.
Proof.
  destruct (compare_to_true_class_formula 4%nat "sex" 0 1 demo_table_world
              demo_table [0; 0; 0; 0; 1; 1; 1; 1] demo_y [1; 0; 1; 1; 0; 1; 0; 1]
              eq_refl demo_table_wf eq_refl eq_refl eq_refl)
    as [w' [Hrun Hext]].
  exists w'. split; [|exact Hext].
  rewrite Hrun. vm_compute. reflexivity.
Defined.

(** Sums are rounded at every addition: the mean of 0.1, 0.2 and 0.3, added
    from left to right, is 0.20000000000000004, and its relative difference
    to 0.25 is -0.24999999999999975. *)
Example relative_difference_in_binary64 :
  mean_of [1 # 10; 2 # 10; 3 # 10] = Fin (7205759403792795 # 36028797018963968)
  /\ relative_difference [1 # 10; 2 # 10; 3 # 10] [1 # 4]
     = Fin (-9007199254740983 # 36028797018963968).
Proof. split; vm_compute; reflexivity. Qed.

(** C4 as stated fails on the demo audit.  No record of group 1 is
    misclassified into label 1.  With a bar chart that, like the one of the
    SHAP library, refuses an explanation without records, [understand_shap]
    ends in [IndexError] at line 554, after the chart of the two cohorts:
    an index fault of the library, not a condition of the empty cohort's
    own. *)
Lemma empty_cohort_counterexample :
  count_true (cohort_rows [0; 0; 0; 0; 1; 1; 1; 1] demo_y (predict demo_X) 1 1)
  = 0%nat
  /\ exists w',
       understand_shap demo_self demo_labels "sex" 1 1 demo_world
       = (inl IndexError, w')
       /\ length (stdout w') = 4%nat.
Proof.
  split; [vm_compute; reflexivity|].
  eexists. split; vm_compute; reflexivity.
Qed.

Lemma demo_cohort_empty (d : DataFrame) :
  working_table demo_X demo_y (predict demo_X) = inr d ->
  cohort_empty d "sex" 1 1.
Proof.
  intros Hd s t p Hs Ht Hp.
  vm_compute in Hd. injection Hd as <-.
  vm_compute in Hs. injection Hs as <-.
  vm_compute in Ht. injection Ht as <-.
  vm_compute in Hp. injection Hp as <-.
  vm_compute. reflexivity.
Defined.

Lemma demo_length : length demo_y = df_len demo_X.
Proof. reflexivity. Defined.

Lemma demo_setup :
  exists sv,
    working_table demo_X demo_y (predict demo_X) = inr demo_table
    /\ explain demo_X = inr sv
    /\ plots_bar_cohorts sv
         (cohort_labels 0 "F" "M" [0; 0; 0; 0; 1; 1; 1; 1]) = None.
Proof. eexists. repeat split; vm_compute; reflexivity. Defined.

(** The amended C4 on the demo audit: the exception is the refusal of the
    empty cohort. *)
Lemma empty_cohort_demo :
  exists e w',
    understand_shap demo_self demo_labels "sex" 1 1 demo_world = (inl e, w')
    /\ rng w' = rng demo_world
    /\ e = empty_cohort_refusal
             (cohort_table demo_table [0; 0; 0; 0; 1; 1; 1; 1] demo_y
                (predict demo_X) 1 1).
Proof.
  destruct (empty_cohort_raises_without_sampling demo_self demo_labels "sex" 1 1
              demo_world demo_X demo_y eq_refl eq_refl demo_X_wf demo_length
              demo_cohort_empty)
    as (e & w' & out & Hrun & Hrng & _ & _ & Hwhy).
  destruct demo_setup as (sv & Hwt & Hsv & Hplot).
  exists e, w'. split; [exact Hrun|]. split; [exact Hrng|].
  exact (Hwhy demo_table sv [0; 0; 0; 0; 1; 1; 1; 1] [0; 0; 0; 0; 1; 1; 1; 1]
           0%Z "F"%string "M"%string Hwt Hsv eq_refl eq_refl eq_refl eq_refl
           eq_refl Hplot).
Defined.

(** C5 as stated fails: the second subgroup has no predicted positive and its
    precision is reported as the number [0.0], not as an undefined value. *)
Lemma zero_precision_counterexample :
  count_eq [0; 0] 1 = 0%Z
  /\ (exists fig p w',
        predictive demo_labels zero_sens_df zero_world
        = (inr ([("F", Fin 1); ("M", Fin 0)]%string, fig, p), w'))
  /\ Fin 0 <> NaN.
Proof.
  split; [reflexivity|]. split; [|discriminate].
  do 3 eexists. vm_compute. reflexivity.
Qed.

Lemma binary_demo_labels :
  binary [1; 0] /\ binary [0; 0].
Proof.
  split; repeat constructor; (now left) || (now right).
Defined.

Lemma zero_world_subgroups (i : Z) :
  In i (dict_keys demo_labels) ->
  exists name t p,
    subgroup_labels demo_labels zero_sens_df zero_world i name t p
    /\ binary t /\ binary p /\ length t = length p /\ t <> [].
Proof.
  destruct binary_demo_labels as [B10 B00].
  intros [<-|[<-|[]]].
  - exists "F"%string, [1; 0], [1; 0]. split; [|repeat split; auto; discriminate].
    exists 0%nat, (mkDF 2 [("sex", [0; 0]); ("p", [1; 0]); ("t", [1; 0])]%string).
    repeat split; reflexivity.
  - exists "M"%string, [1; 0], [0; 0]. split; [|repeat split; auto; discriminate].
    exists 1%nat, (mkDF 2 [("sex", [1; 1]); ("p", [0; 0]); ("t", [1; 0])]%string).
    repeat split; reflexivity.
Defined.

(** The amended C5 on the two subgroups. *)
Lemma zero_precision_demo :
  exists precision_dic fig,
    predictive demo_labels zero_sens_df zero_world
    = (inr (precision_dic, fig,
            snd (chisquare (map (fun x => fmul x (Fin 100))
                                (dict_values precision_dic)) None)),
       zero_world)
    /\ dict_get precision_dic "M"%string = Some (Fin 0).
Proof.
  destruct (zero_predicted_positive_precision_is_zero demo_labels zero_sens_df
              zero_world zero_world_subgroups)
    as (dic & fig & Hrun & Hzero).
  exists dic, fig. split; [exact Hrun|].
  apply (Hzero 1%Z "M"%string [1; 0] [0; 0]).
  - right. now left.
  - exists 1%nat, (mkDF 2 [("sex", [1; 1]); ("p", [0; 0]); ("t", [1; 0])]%string).
    repeat split; reflexivity.
  - reflexivity.
Defined.



(** C7 on the demo audit: the cells of group 0 in the table returned. *)
Lemma normalized_rows_demo :
  exists table sens_df fig p w' qs,
    representation 0%nat 1%nat "sex" demo_labels 2%nat demo_world
    = (inr (table, sens_df, fig, p), w')
    /\ map (fun line => snd line !! 0%nat) (tab_rows table)
       = map (fun q => Some (Fin q)) qs
    /\ Qabs (Qsum qs - 1) <= tolerance.
Proof.
  assert (Hrun : exists table sens_df fig p w',
            representation 0%nat 1%nat "sex" demo_labels 2%nat demo_world
            = (inr (table, sens_df, fig, p), w'))
    by (do 5 eexists; vm_compute; reflexivity).
  destruct Hrun as (table & sens_df & fig & p & w' & Hrun).
  destruct (normalized_rows_sum_to_one 0%nat 1%nat 2%nat "sex" demo_labels
              demo_world w' demo_X demo_y [1; 0; 1; 1; 0; 1; 0; 1]
              [0; 0; 0; 0; 1; 1; 1; 1] table sens_df fig p
              eq_refl eq_refl eq_refl demo_X_wf eq_refl eq_refl eq_refl
              ltac:(discriminate) ltac:(discriminate) ltac:(discriminate) Hrun)
    as (_ & _ & Hsum).
  destruct (Hsum 0%nat 0 eq_refl) as (qs & Hcells & Hbound).
  exists table, sens_df, fig, p, w', qs. repeat split; assumption.
Defined.

(** C8 on the demo audit. *)
Lemma caller_data_unchanged_demo :
  heap (snd (representation 0%nat 1%nat "sex" demo_labels 2%nat demo_world)) !! 0%nat
  = Some (ODataFrame demo_X)
  /\ heap (snd (understand_shap demo_self demo_labels "sex" 0 1 demo_world)) !! 1%nat
     = Some (OArray demo_y).
Proof.
  destruct (analyses_leave_caller_data_unchanged demo_world)
    as (Hrep & _ & _ & Hshap).
  split.
  - destruct (Hrep 0%nat 1%nat 2%nat "sex"%string demo_labels
                ltac:(eexists; reflexivity) ltac:(eexists; reflexivity)
                ltac:(eexists; reflexivity)) as [[ext Hgrow] _].
    rewrite Hgrow. reflexivity.
  - destruct (Hshap demo_self demo_labels "sex"%string 0%Z 1%Z) as [ext Hgrow].
    rewrite Hgrow. reflexivity.
Defined.

(** C9 on the demo audit, run in two worlds that differ in everything but
    the contents of the inputs. *)
Lemma analyses_deterministic_demo :
  fst (ability demo_self 2%nat 3%nat demo_world)
  = fst (ability demo_self' 4%nat 5%nat demo_world')
  /\ outcome_rel
       (representation_rel
          (fun l1 l2 =>
             heap (snd (representation 0%nat 1%nat "sex" demo_labels 2%nat demo_world)) !! l1
             = heap (snd (representation 2%nat 3%nat "sex" demo_labels 4%nat demo_world')) !! l2))
       (fst (representation 0%nat 1%nat "sex" demo_labels 2%nat demo_world))
       (fst (representation 2%nat 3%nat "sex" demo_labels 4%nat demo_world'))
  /\ exists (out : list event) (sv2 : explanation) (k1 k2 : nat),
       stdout (snd (understand_shap demo_self demo_labels "sex" 0 1 demo_world))
       = stdout demo_world ++ out ++ fst (explain_record sv2 k1)
       /\ stdout (snd (understand_shap demo_self' demo_labels "sex" 0 1 demo_world'))
          = stdout demo_world' ++ out ++ fst (explain_record sv2 k2).
Proof.
  destruct (analyses_deterministic demo_world demo_world')
    as (Hrep & Hab & _ & Hshap).
  split; [|split].
  - apply (Hab demo_self demo_self' 2%nat 4%nat 3%nat 5%nat);
      eexists; split; reflexivity.
  - apply (Hrep 0%nat 2%nat 1%nat 3%nat 2%nat 4%nat "sex"%string demo_labels);
      eexists; split; reflexivity.
  - destruct (Hshap demo_self demo_self' demo_labels "sex"%string 0%Z 1%Z
                demo_X demo_y eq_refl eq_refl eq_refl eq_refl demo_X_wf
                demo_length)
      as [out [(e & He & _)|(sv2 & n & _ & _ & _ & Ho1 & Ho2)]].
    + vm_compute in He. discriminate He.
    + exists out, sv2. eexists _, _. split; [exact Ho1 | exact Ho2].
Defined.

(** The record that [understand_shap] explains at the end depends on the
    state of the random generator: the cohort of group 0 and label 1 has two
    records, and two generators pick different ones. *)
Example attribution_sample_depends_on_random_state :
  last (stdout (snd (understand_shap demo_self demo_labels "sex" 0 1 demo_world)))
  = Some (ShapWaterfall [Fin 0; Fin 50; Fin (7 # 10)])
  /\ last (stdout (snd (understand_shap demo_self demo_labels "sex" 0 1
                          demo_world_other_rng)))
     = Some (ShapWaterfall [Fin 0; Fin 45; Fin (8 # 10)]).
Proof. split; vm_compute; reflexivity. Qed.

(** C10 on the demo audit with the label map that lacks the key 1. *)
Lemma labels_0_and_1_demo :
  exists e w',
    understand_shap demo_self partial_labels "sex" 0 1 demo_world = (inl e, w')
    /\ is_LookupError e.
Proof.
  assert (Hsetup : exists v w1, shap_setup demo_self demo_world = (inr v, w1))
    by (do 2 eexists; vm_compute; reflexivity).
  destruct Hsetup as (v & w1 & Hsetup).
  destruct understand_shap_indexes_labels_0_and_1 as [Hfail _].
  apply (Hfail demo_self partial_labels "sex"%string 0%Z 1%Z demo_world w1 v Hsetup).
  right. reflexivity.
Defined.

(** * The further properties at work on the demo audit *)

Lemma binary_demo_y : binary demo_y.
Proof. repeat constructor; (now left) || (now right). Defined.

Lemma binary_demo_predictions : binary (predict demo_X).
Proof. vm_compute. repeat constructor; (now left) || (now right). Defined.

Lemma demo_predictions_length : length (predict demo_X) = df_len demo_X.
Proof. reflexivity. Defined.

Lemma demo_keys_present (i : Z) :
  In i (dict_keys demo_labels) ->
  count_eq [0; 0; 0; 0; 1; 1; 1; 1] (inject_Z i) <> 0%Z
  /\ count_eq demo_y (inject_Z i) <> 0%Z.
Proof. intros [<-|[<-|[]]]; split; vm_compute; discriminate. Defined.

Lemma demo_one_key_per_name : one_key_per_name demo_labels.
Proof.
  intros i j name [<-|[<-|[]]] [<-|[<-|[]]]; simpl; congruence.
Defined.

(** X1 on the demo audit: the call returns, and both sides hold. *)
Lemma representation_returns_iff_demo :
  (exists r w',
     representation 0%nat 1%nat "sex" demo_labels 2%nat demo_world = (inr r, w'))
  <-> ((exists v, chi2_contingency
                    (ct_values (crosstab [0; 0; 0; 0; 1; 1; 1; 1] demo_y)) = inr v)
       /\ forall i, In i (dict_keys demo_labels) ->
            key_usable [0; 0; 0; 0; 1; 1; 1; 1] demo_y i).
Proof.
  exact (representation_returns_iff 0%nat 1%nat 2%nat "sex" demo_labels demo_world
           demo_X demo_y [1; 0; 1; 1; 0; 1; 0; 1] [0; 0; 0; 0; 1; 1; 1; 1]
           eq_refl eq_refl eq_refl eq_refl eq_refl eq_refl
           ltac:(discriminate) ltac:(discriminate) ltac:(discriminate)).
Defined.

(** X2 on a label map with the key 2, which is not in the data. *)
Lemma representation_raises_demo :
  representation_failure stray_labels [0; 0; 0; 0; 1; 1; 1; 1] demo_y KeyError.
Proof.
  assert (Hrun : exists w',
            representation 0%nat 1%nat "sex" stray_labels 2%nat demo_world
            = (inl KeyError, w'))
    by (eexists; vm_compute; reflexivity).
  destruct Hrun as [w' Hrun].
  exact (proj1 (representation_raises_classified 0%nat 1%nat 2%nat "sex"
                  stray_labels demo_world w' demo_X demo_y
                  [1; 0; 1; 1; 0; 1; 0; 1] [0; 0; 0; 0; 1; 1; 1; 1] KeyError
                  eq_refl eq_refl eq_refl eq_refl eq_refl eq_refl
                  ltac:(discriminate) ltac:(discriminate) ltac:(discriminate)
                  Hrun)).
Defined.

Lemma demo_representation_run :
  exists table sens_df fig p w',
    representation 0%nat 1%nat "sex" demo_labels 2%nat demo_world
    = (inr (table, sens_df, fig, p), w').
Proof. do 5 eexists. vm_compute. reflexivity. Defined.

(** X3 on the demo audit: the frame of the group [F]. *)
Lemma representation_partition_demo :
  exists table sens_df fig p w' l d,
    representation 0%nat 1%nat "sex" demo_labels 2%nat demo_world
    = (inr (table, sens_df, fig, p), w')
    /\ dict_get sens_df "F"%string = Some l
    /\ heap w' !! l = Some (ODataFrame d)
    /\ df_get d "t" = inr [1; 0; 0; 0]
    /\ df_get d "p" = inr [1; 0; 1; 1].
Proof.
  destruct demo_representation_run as (table & sens_df & fig & p & w' & Hrun).
  destruct (representation_partition 0%nat 1%nat 2%nat "sex" demo_labels
              demo_world w' demo_X demo_y [1; 0; 1; 1; 0; 1; 0; 1]
              [0; 0; 0; 0; 1; 1; 1; 1] table sens_df fig p
              eq_refl eq_refl eq_refl eq_refl eq_refl eq_refl
              ltac:(discriminate) ltac:(discriminate) ltac:(discriminate)
              Hrun 0%Z "F"%string ltac:(now left) eq_refl
              ltac:(intros j [<-|[<-|[]]]; [reflexivity | discriminate]))
    as (l & d & Hl & _ & Hd & _ & Ht & Hp & _).
  exists table, sens_df, fig, p, w', l, d. repeat split; assumption.
Defined.

(** X4 on the demo audit: the precision of the group [M]. *)
Lemma predictive_after_representation_demo :
  exists table sens_df fig p w' precision_dic pred_fig score,
    representation 0%nat 1%nat "sex" demo_labels 2%nat demo_world
    = (inr (table, sens_df, fig, p), w')
    /\ predictive demo_labels sens_df w'
       = (inr (precision_dic, pred_fig,
               snd (chisquare (times_100 (dict_values precision_dic)) None)), w')
    /\ precision_score [1; 1; 0; 1] [0; 1; 0; 1] = inr score
    /\ dict_get precision_dic "M"%string = Some score.
Proof.
  destruct demo_representation_run as (table & sens_df & fig & p & w' & Hrun).
  destruct (predictive_after_representation 0%nat 1%nat 2%nat "sex" demo_labels
              demo_world w' demo_X demo_y [1; 0; 1; 1; 0; 1; 0; 1]
              [0; 0; 0; 0; 1; 1; 1; 1] table sens_df fig p
              eq_refl eq_refl eq_refl demo_X_wf eq_refl eq_refl eq_refl
              ltac:(discriminate) ltac:(discriminate) ltac:(discriminate)
              binary_demo_y binary_demo_predictions Hrun)
    as (dic & pred_fig & Hpred & Hscores).
  destruct (Hscores 1%Z "M"%string ltac:(right; now left) eq_refl
              ltac:(intros j [<-|[<-|[]]]; [discriminate | reflexivity]))
    as (score & Hscore & Hget).
  exists table, sens_df, fig, p, w', dic, pred_fig, score.
  repeat split; assumption.
Defined.

Lemma demo_chi2 :
  exists c p dof expected,
    chi2_contingency (ct_values (crosstab [0; 0; 0; 0; 1; 1; 1; 1] demo_y))
    = inr (c, p, dof, expected).
Proof. do 4 eexists. vm_compute. reflexivity. Defined.

(** X6 on the demo audit. *)
Lemma identify_bias_returns_demo :
  exists w', identify_bias demo_self "sex" demo_labels demo_world = (inr tt, w')
             /\ rng w' = rng demo_world.
Proof.
  destruct demo_chi2 as (c & p & dof & expected & Hchi).
  destruct (identify_bias_returns demo_self "sex" demo_labels demo_world demo_X
              demo_y [0; 0; 0; 0; 1; 1; 1; 1] c p dof expected
              eq_refl eq_refl demo_X_wf eq_refl demo_predictions_length eq_refl
              ltac:(discriminate) ltac:(discriminate) ltac:(discriminate)
              binary_demo_y binary_demo_predictions demo_keys_present Hchi)
    as (w' & _ & _ & _ & _ & Hrun & _ & _ & Hrng).
  exists w'. split; assumption.
Defined.

(** X7 on the demo audit: twelve items. *)
Lemma identify_bias_output_demo :
  exists w',
    identify_bias demo_self "sex" demo_labels demo_world = (inr tt, w')
    /\ length (stdout w') = 12%nat.
Proof.
  assert (Hrun : exists w',
            identify_bias demo_self "sex" demo_labels demo_world = (inr tt, w'))
    by (eexists; vm_compute; reflexivity).
  destruct Hrun as [w' Hrun]. exists w'. split; [exact Hrun|].
  destruct (identify_bias_output demo_self "sex" demo_labels demo_world w' Hrun)
    as (rep_fig & table & rep_p & pred_fig & pred_p & mf & Hout & Hkeys & _).
  rewrite Hout. unfold audit_output. rewrite !length_app, length_map.
  unfold dict_keys in Hkeys.
  rewrite <- (length_map fst (ability_p_values (by_group mf))), Hkeys.
  reflexivity.
Defined.

(** X8 on the demo audit with a column name the frame does not have. *)
Lemma identify_bias_unknown_column_demo :
  exists w',
    identify_bias demo_self "race" demo_labels demo_world = (inl KeyError, w')
    /\ stdout w' = stdout demo_world.
Proof.
  exact (identify_bias_unknown_column demo_self "race" demo_labels demo_world
           demo_X demo_y eq_refl eq_refl eq_refl demo_predictions_length
           ltac:(simpl; intuition discriminate)
           ltac:(discriminate) ltac:(discriminate)).
Defined.

(** X9 on the demo audit. *)
Lemma representation_empty_labels_demo :
  exists w',
    representation 0%nat 1%nat "sex" [] 2%nat demo_world = (inl KeyError, w')
    /\ stdout w' = stdout demo_world.
Proof.
  exact (representation_empty_labels 0%nat 1%nat 2%nat "sex" demo_world demo_X
           eq_refl ltac:(simpl; intuition discriminate)).
Defined.

(** X10 on the demo audit. *)
Lemma understand_shap_unknown_column_demo :
  exists w',
    understand_shap demo_self demo_labels "race" 0 1 demo_world
    = (inl KeyError, w')
    /\ stdout w' = stdout demo_world /\ rng w' = rng demo_world.
Proof.
  assert (Hsv : exists sv, explain demo_X = inr sv)
    by (eexists; vm_compute; reflexivity).
  destruct Hsv as [sv Hsv].
  exact (understand_shap_unknown_column demo_self demo_labels "race" 0 1
           demo_world demo_X demo_y sv eq_refl eq_refl eq_refl
           demo_predictions_length Hsv
           ltac:(simpl; intuition discriminate)).
Defined.

Lemma demo_understand_shap_run :
  exists w', understand_shap demo_self demo_labels "sex" 0 1 demo_world = (inr tt, w').
Proof. eexists. vm_compute. reflexivity. Defined.

(** X16 on the demo audit: the cohort of group 0 and label 1 has two
    records, and the waterfall shown is the one of a row of their
    explanation. *)
Lemma understand_shap_explains_cohort_member_demo :
  exists w' e row,
    understand_shap demo_self demo_labels "sex" 0 1 demo_world = (inr tt, w')
    /\ explain (cohort_table demo_table [0; 0; 0; 0; 1; 1; 1; 1] demo_y
                  (predict demo_X) 0 1) = inr e
    /\ (fst (randbelow 2 (rng demo_world)) < 2)%nat
    /\ e !! fst (randbelow 2 (rng demo_world)) = Some row
    /\ last (stdout w') = Some (ShapWaterfall row).
Proof.
  destruct demo_understand_shap_run as [w' Hrun].
  destruct (understand_shap_explains_cohort_member demo_self demo_labels "sex"
              0 1 demo_world w' demo_X demo_y eq_refl eq_refl demo_X_wf
              demo_length Hrun)
    as (d2 & s & e & n & row & Hwt & Hs & Hn & _ & He & Hlt & Hrow & Hlast & _).
  destruct demo_setup as (sv & Hwt' & _).
  assert (d2 = demo_table) as -> by congruence.
  assert (s = [0; 0; 0; 0; 1; 1; 1; 1]) as -> by (vm_compute in Hs; congruence).
  assert (n = 2%nat) as -> by (rewrite Hn; vm_compute; reflexivity).
  exists w', e, row. repeat split; assumption.
Defined.

(** X11 on the working table of the demo audit. *)
Lemma compare_to_all_formula_demo :
  exists w' affected_class dac,
    compare_to_all 4%nat "sex" 0 1 demo_table_world
    = (inr (affected_class,
            dict_keys (spec_compare_to_all demo_table [0; 0; 0; 0; 1; 1; 1; 1]
                         demo_y [1; 0; 1; 1; 0; 1; 0; 1] "sex" 0 1),
            dict_values (spec_compare_to_all demo_table [0; 0; 0; 0; 1; 1; 1; 1]
                           demo_y [1; 0; 1; 1; 0; 1; 0; 1] "sex" 0 1)), w')
    /\ extends demo_table_world w'
    /\ heap w' !! affected_class = Some (ODataFrame dac)
    /\ df_len dac = 2%nat.
Proof.
  exact (compare_to_all_formula 4%nat "sex" 0 1 demo_table_world
           demo_table [0; 0; 0; 0; 1; 1; 1; 1] demo_y [1; 0; 1; 1; 0; 1; 0; 1]
           eq_refl demo_table_wf eq_refl eq_refl eq_refl).
Defined.

(** X12 on a frame with one tested rate among three columns: one line. *)
Lemma ability_metrics_any_frame_demo :
  exists w',
    ability_metrics demo_metric_frame demo_world = (inr tt, w')
    /\ heap w' = heap demo_world /\ rng w' = rng demo_world
    /\ stdout w'
       = [ability_verdict "false_positive_rate_m"
            (snd (chisquare (times_100 [Fin (1 # 4); Fin (1 # 2)]) None))].
Proof.
  exact (ability_metrics_any_frame demo_metric_frame demo_world
           ltac:(decide_by_computation)).
Defined.

(** X13 on the two subgroups of the precision example. *)
Lemma predictive_needs_complete_partition_demo :
  exists name p score,
    subgroup_precision demo_labels zero_sens_df zero_world 1 name p score.
Proof.
  assert (Hrun : exists dic fig pp w',
            predictive demo_labels zero_sens_df zero_world
            = (inr (dic, fig, pp), w'))
    by (do 4 eexists; vm_compute; reflexivity).
  destruct Hrun as (dic & fig & pp & w' & Hrun).
  destruct (predictive_needs_complete_partition demo_labels zero_sens_df
              zero_world w' dic fig pp Hrun) as (_ & _ & _ & Hall).
  destruct (Hall 1%Z ltac:(right; now left)) as (name & p & score & Hsub & _).
  exists name, p, score. exact Hsub.
Defined.

(** X14 on the demo audit. *)
Lemma representation_table_cells_demo :
  exists table sens_df fig p w',
    representation 0%nat 1%nat "sex" demo_labels 2%nat demo_world
    = (inr (table, sens_df, fig, p), w')
    /\ tab_headers table = ["F"; "M"]%string
    /\ length (tab_rows table) = 2%nat.
Proof.
  destruct demo_representation_run as (table & sens_df & fig & p & w' & Hrun).
  exists table, sens_df, fig, p, w'. split; [exact Hrun|].
  rewrite (representation_table_cells 0%nat 1%nat 2%nat "sex" demo_labels
             demo_world w' demo_X demo_y [1; 0; 1; 1; 0; 1; 0; 1]
             [0; 0; 0; 0; 1; 1; 1; 1] table sens_df fig p
             eq_refl eq_refl eq_refl demo_X_wf eq_refl eq_refl eq_refl
             ltac:(discriminate) ltac:(discriminate) ltac:(discriminate) Hrun).
  split; reflexivity.
Defined.

(** X15 on the demo audit: four bars. *)
Lemma representation_chart_bars_demo :
  exists table sens_df fig p w',
    representation 0%nat 1%nat "sex" demo_labels 2%nat demo_world
    = (inr (table, sens_df, fig, p), w')
    /\ fig = representation_fig demo_labels [0; 0; 0; 0; 1; 1; 1; 1] demo_y
    /\ length fig = 4%nat.
Proof.
  destruct demo_representation_run as (table & sens_df & fig & p & w' & Hrun).
  exists table, sens_df, fig, p, w'. split; [exact Hrun|].
  exact (representation_chart_bars 0%nat 1%nat 2%nat "sex" demo_labels
           demo_world w' demo_X demo_y [1; 0; 1; 1; 0; 1; 0; 1]
           [0; 0; 0; 0; 1; 1; 1; 1] table sens_df fig p
           eq_refl eq_refl eq_refl eq_refl eq_refl eq_refl
           ltac:(discriminate) ltac:(discriminate) ltac:(discriminate)
           demo_one_key_per_name Hrun).
Defined.

(** X17 on the demo audit: twelve items. *)
Lemma understand_shap_output_demo :
  exists w',
    understand_shap demo_self demo_labels "sex" 0 1 demo_world = (inr tt, w')
    /\ length (stdout w') = 12%nat.
Proof.
  destruct demo_understand_shap_run as [w' Hrun].
  exists w'. split; [exact Hrun|].
  destruct (understand_shap_output demo_self demo_labels "sex" 0 1 demo_world
              w' demo_X demo_y eq_refl eq_refl demo_X_wf demo_length Hrun)
    as (d2 & sX & s & k & l0 & l1 & sv & sv2 & row
        & _ & _ & _ & _ & _ & _ & _ & _ & _ & Hout).
  rewrite Hout. reflexivity.
Defined.

Lemma unique_sorted_distinct (s : Series) : distinct_values (unique_sorted s) s.
Proof.
  split.
  - apply (SortA_NoDupA Q_Setoid (Build_StrictOrder Qlt Qlt_irrefl Qlt_trans)
             Qlt_compat).
    apply unique_sorted_sorted.
  - intros x. rewrite !InA_alt. split.
    + intros (u & Hxu & Hu). exists u. split; [exact Hxu|].
      now apply unique_sorted_in.
    + intros (v & Hxv & Hv).
      destruct (unique_sorted_cover v s Hv) as (u & Hu & Hvu).
      exists u. split; [now rewrite Hxv | exact Hu].
Qed.

Lemma demo_distinct_values :
  distinct_values (set_iter [0; 0; 0; 0; 1; 1; 1; 1]) [0; 0; 0; 0; 1; 1; 1; 1].
Proof. exact (unique_sorted_distinct _). Defined.

Lemma demo_answers :
  (length (set_iter [0; 0; 0; 0; 1; 1; 1; 1]%Q) <= length (stdin demo_console))%nat
  /\ (length (stdin short_console) < length (set_iter [0; 0; 0; 0; 1; 1; 1; 1]%Q))%nat.
Proof. split; vm_compute; lia. Defined.

(** X19 on the demo audit: two groups, two answers read, one left. *)
Lemma create_labels_demo :
  exists sensitive_label,
    create_labels 0%nat "sex" demo_world demo_console
    = (inr sensitive_label,
       mkConsole ["left over"]%string [label_prompt 0; label_prompt 1])
    /\ sensitive_label = [(0, "F"); (1, "M")]%string.
Proof.
  destruct (create_labels_labels_every_group 0%nat "sex" demo_world demo_console
              demo_X [0; 0; 0; 0; 1; 1; 1; 1] eq_refl eq_refl
              demo_distinct_values (proj1 demo_answers))
    as (m & Hrun & Hm & _).
  exists m. split; [exact Hrun | exact Hm].
Defined.

(** X20 on the demo audit with one answer for two groups. *)
Lemma create_labels_failures_demo :
  create_labels 0%nat "sex" demo_world short_console
  = (inl EOFError, mkConsole [] [label_prompt 0; label_prompt 1]).
Proof.
  exact (proj2 (create_labels_failures 0%nat "sex" demo_world short_console
                  demo_X eq_refl)
           [0; 0; 0; 0; 1; 1; 1; 1] eq_refl (proj2 demo_answers)).
Defined.

(** X18 on the demo audit. *)
Lemma understand_shap_returns_iff_demo :
  (exists w',
     understand_shap demo_self demo_labels "sex" 0 1 demo_world = (inr tt, w'))
  <-> attribution_ready demo_labels "sex" 0 1 demo_X demo_y (rng demo_world).
Proof.
  exact (understand_shap_returns_iff demo_self demo_labels "sex" 0 1 demo_world
           demo_X demo_y eq_refl eq_refl demo_X_wf demo_length).
Defined.
